(** * os_construction_db: the request pipeline of [app_improved.py]

A shallow embedding of the Flask application in [app_improved.py],
of the decorators in [authentication.py], of the schemas in
[models.py] and of the exception classes in [exceptions.py].

The application is glue around three collaborators that are not part
of the repository: the pydantic validators, the PyJWT decoder and the
hosted relational store.  The structure the repository adds (order of
checks, which exception is raised where, how a response is shaped) is
embedded as executable definitions; what only the collaborators know
(how a string is coerced, whether a signature verifies, how [ilike]
matches) is taken from the record [World], and so is what Python's
[int()] makes of a text.  What Flask makes of the body of a request
is part of the request.  Logging and the rate limiter are left out:
they decide nothing about the answer to a request that reaches its
view. *)

From Stdlib Require Import ZArith String Ascii List Lia Bool.
From stdpp Require Import gmap strings list fin_maps pretty.

Set Warnings "-register-all".
Local Open Scope Z_scope.

(** ** Python values *)

Module Py.

(** A calendar date, as [datetime.date] holds it. *)
Record date := Date { year : Z; month : Z; day : Z }.

(** The Python objects that travel through the handlers: the JSON body
    of a request, the validated fields of a model, a row of a table,
    the body given to [jsonify].  A float [VFloat m e] stands for
    [m * 2^e]; dictionaries are keyed by strings, as JSON objects
    are. *)
Inductive value :=
| VNone
| VBool (b : bool)
| VInt (n : Z)
| VFloat (m e : Z)
| VStr (s : string)
| VDate (d : date)
| VList (l : list value)
| VDict (d : gmap string value).

(** [bool(v)], the test behind [if not data]. *)
Definition truthy (v : value) : bool :=
  match v with
  | VNone => false
  | VBool b => b
  | VInt n => negb (n =? 0)
  | VFloat m _ => negb (m =? 0)
  | VStr s => negb (String.eqb s "")
  | VDate _ => true
  | VList l => match l with [] => false | _ => true end
  | VDict d => negb (bool_decide (d = ∅))
  end.

(** [v == s] for a string [s]: only a string equals a string. *)
Definition eq_str (v : value) (s : string) : bool :=
  match v with
  | VStr t => String.eqb t s
  | _ => false
  end.

(** [v == w] on the scalars a query filter compares. *)
Definition eq_scalar (v w : value) : bool :=
  match v, w with
  | VNone, VNone => true
  | VBool a, VBool b => Bool.eqb a b
  | VInt a, VInt b => a =? b
  | VStr a, VStr b => String.eqb a b
  | _, _ => false
  end.

(** [x in l] for a list of strings [l]. *)
Definition in_str_list (v : value) (l : list string) : bool :=
  existsb (eq_str v) l.

(** *** Strings *)

(** [s.startswith(p)] *)
Fixpoint startswith (p s : string) : bool :=
  match p, s with
  | EmptyString, _ => true
  | String a p', String b s' => if Ascii.eqb a b then startswith p' s' else false
  | String _ _, EmptyString => false
  end.

(** [s.split(sep)] for a one-character separator: every occurrence
    cuts, empty pieces are kept, and the empty string gives [['']]. *)
Fixpoint split_go (sep : ascii) (cur : string) (s : string) : list string :=
  match s with
  | EmptyString => [String.rev cur]
  | String c s' =>
      if Ascii.eqb c sep then String.rev cur :: split_go sep "" s'
      else split_go sep (String c cur) s'
  end.

Definition split (sep : ascii) (s : string) : list string :=
  split_go sep "" s.

(** [sep.join(l)] *)
Fixpoint join (sep : string) (l : list string) : string :=
  match l with
  | [] => ""
  | [x] => x
  | x :: l' => x +:+ sep +:+ join sep l'
  end.

(** [s.lower()] on ASCII letters. *)
Definition lower_ascii (c : ascii) : ascii :=
  let n := nat_of_ascii c in
  if (Nat.leb 65 n && Nat.leb n 90)%bool then ascii_of_nat (n + 32) else c.

Fixpoint lower (s : string) : string :=
  match s with
  | EmptyString => EmptyString
  | String c s' => String (lower_ascii c) (lower s')
  end.

(** [str(n)] for an integer. *)
Definition str_int (n : Z) : string := pretty n.

(** [n] printed on at least [w] digits, the [%0wd] of [isoformat]. *)
Fixpoint zfill_go (k : nat) (s : string) : string :=
  match k with
  | O => s
  | S k' => zfill_go k' (String "0" s)
  end.

Definition zfill (w : nat) (n : Z) : string :=
  let s := str_int n in
  zfill_go (w - String.length s) s.

(** [d.isoformat()] *)
Definition isoformat (d : date) : string :=
  zfill 4 (year d) +:+ "-" +:+ zfill 2 (month d) +:+ "-" +:+ zfill 2 (day d).

(** [a < b] on dates. *)
Definition date_ltb (a b : date) : bool :=
  (year a <? year b)
  || ((year a =? year b)
      && ((month a <? month b)
          || ((month a =? month b) && (day a <? day b)))).

(** [len(s)].  Text is held as its UTF-8 bytes; Python counts code
    points, that is the bytes that do not continue a character. *)
Definition is_continuation (c : ascii) : bool :=
  let n := nat_of_ascii c in
  (Nat.leb 128 n && Nat.ltb n 192)%bool.

Fixpoint len (s : string) : nat :=
  match s with
  | EmptyString => O
  | String c s' => if is_continuation c then len s' else S (len s')
  end.

End Py.
Export Py.

(** ** exceptions.py *)

(** The classes of [exceptions.py], each carrying the message it was
    built with.  [PydanticValidationError] is pydantic's own
    [ValidationError] with the list behind [e.errors()], one
    [(loc[0], msg)] per entry; [PyException] is any other Python
    exception ([TypeError], [KeyError], ...). *)
Inductive exn :=
| OSConstructionError (msg : string)
| DatabaseConnectionError (msg : string)
| ResourceNotFoundError (msg : string)
| ValidationError (msg : string)
| AuthenticationError (msg : string)
| AuthorizationError (msg : string)
| DatabaseError (msg : string)
| PydanticValidationError (errors : list (string * string))
| PyException (msg : string).

(** [isinstance(e, OSConstructionError)] *)
Definition is_OSConstructionError (e : exn) : bool :=
  match e with
  | PydanticValidationError _ | PyException _ => false
  | _ => true
  end.

(** ** Collaborators *)

(** The result of a library validator: the coerced value, or the
    message of the error it raised. *)
Inductive checked (A : Type) :=
| Valid (a : A)
| Invalid (msg : string).
Arguments Valid {A} a.
Arguments Invalid {A} msg.

(** What [jwt.decode] does with a token: the payload, or one of the two
    exceptions [decode_token] catches. *)
Inductive jwt_result :=
| Decoded (payload : gmap string value)
| ExpiredSignatureError
| InvalidTokenError.

(** Everything the application asks of the world outside the
    repository.  No property of these functions is assumed anywhere. *)
Record World := {
  (** pydantic: the validators of the field types used in [models.py],
      and the texts of its own errors *)
  str_validator : value -> checked string;
  int_validator : value -> checked Z;
  bool_validator : value -> checked bool;
  email_validator : string -> checked string;
  date_validator : value -> checked date;
  msg_missing : string;
  msg_none_not_allowed : string;
  msg_min_length : nat -> string;
  msg_max_length : nat -> string;
  pydantic_str : list (string * string) -> string;
  (** Python: the text of the [TypeError] of [Model( **data)] when
      [data] is not a mapping, and [int(s)] for a string [s], [None]
      when it raises [ValueError] *)
  kwargs_type_error : value -> string;
  py_int : string -> option Z;
  (** PyJWT, with the configured secret and the clock *)
  jwt_decode : string -> jwt_result;
  (** [os.environ.get('ADMIN_USER_IDS')] *)
  ADMIN_USER_IDS : option string;
  (** [datetime.datetime.utcnow().isoformat()] and [datetime.now().year] *)
  utcnow_isoformat : string;
  current_year : Z;
  (** the store: the [ilike] operator and the default of an [id] column *)
  ilike : string -> string -> bool;
  uuid_generate : list (gmap string value) -> string
}.

(** ** models.py *)

Module Models.
Section Models.
Context (W : World).

(** A field of a pydantic model: its name, whether it is required,
    its default, whether [None] is allowed ([Optional[...]]), the
    validators of its type and constraints, and the class validator
    declared for it with [@validator], which also sees the fields
    validated before it. *)
Record field := Field {
  f_name : string;
  f_required : bool;
  f_default : value;
  f_allow_none : bool;
  f_validators : value -> checked value;
  f_post : option (gmap string value -> value -> checked value)
}.

Definition lift {A} (wrap : A -> value) (c : checked A) : checked value :=
  match c with
  | Valid a => Valid (wrap a)
  | Invalid m => Invalid m
  end.

(** [str] *)
Definition t_str (v : value) : checked value := lift VStr (str_validator W v).

(** [str] with [Field(min_length=lo, max_length=hi)] *)
Definition t_constr (lo hi : nat) (v : value) : checked value :=
  match str_validator W v with
  | Valid s =>
      let n := len s in
      if (n <? lo)%nat then Invalid (msg_min_length W lo)
      else if (hi <? n)%nat then Invalid (msg_max_length W hi)
      else Valid (VStr s)
  | Invalid m => Invalid m
  end.

(** [EmailStr] *)
Definition t_email (v : value) : checked value :=
  match str_validator W v with
  | Valid s => lift VStr (email_validator W s)
  | Invalid m => Invalid m
  end.

Definition t_int (v : value) : checked value := lift VInt (int_validator W v).
Definition t_bool (v : value) : checked value := lift VBool (bool_validator W v).
Definition t_date (v : value) : checked value := lift VDate (date_validator W v).

(** [name: T = Field(...)] or [name: T], a required field *)
Definition required (name : string) (t : value -> checked value) : field :=
  Field name true VNone false t None.

(** [name: Optional[T] = None] *)
Definition optional (name : string) (t : value -> checked value) : field :=
  Field name false VNone true t None.

(** [name: T = default] *)
Definition defaulted (name : string) (t : value -> checked value) (d : value) : field :=
  Field name false d false t None.

Definition with_validator (f : field)
    (post : gmap string value -> value -> checked value) : field :=
  Field (f_name f) (f_required f) (f_default f) (f_allow_none f)
        (f_validators f) (Some post).

(** [validate_founded_year]; the value is [None] or what the [int]
    validator returned. *)
Definition validate_founded_year (values : gmap string value) (v : value)
  : checked value :=
  match v with
  | VInt n =>
      if (n <? 1800) || (current_year W <? n)
      then Invalid ("Founded year must be between 1800 and "
                    +:+ str_int (current_year W))
      else Valid v
  | _ => Valid v
  end.

(** [v < w] on the dates a class validator compares. *)
Definition date_lt (v w : value) : bool :=
  match v, w with
  | VDate a, VDate b => date_ltb a b
  | _, _ => false
  end.

(** [validate_end_date] *)
Definition validate_end_date (values : gmap string value) (v : value)
  : checked value :=
  match values !! "start_date" with
  | Some s =>
      if truthy v && truthy s && date_lt v s
      then Invalid "End date must be after start date"
      else Valid v
  | None => Valid v
  end.

Definition valid_statuses : list string :=
  ["planned"; "in_progress"; "completed"; "cancelled"; "on_hold"].

(** [repr(valid_statuses)] *)
Definition valid_statuses_repr : string :=
  "['planned', 'in_progress', 'completed', 'cancelled', 'on_hold']".

(** [ProjectBase.validate_status] *)
Definition validate_status (values : gmap string value) (v : value)
  : checked value :=
  if in_str_list v valid_statuses then Valid v
  else Invalid ("Status must be one of " +:+ valid_statuses_repr).

Definition CompanyBase : list field :=
  [ required "company_name" (t_constr 1 255);
    required "company_address" t_str;
    required "company_email" t_email;
    required "company_phone" (t_constr 5 50) ].

Definition CompanyCreate : list field :=
  CompanyBase ++
  [ optional "website" t_str;
    optional "description" t_str;
    with_validator (optional "founded_year" t_int) validate_founded_year;
    defaulted "is_verified" t_bool (VBool false) ].

Definition CompanyUpdate : list field :=
  [ optional "company_name" (t_constr 1 255);
    optional "company_address" t_str;
    optional "company_email" t_email;
    optional "company_phone" (t_constr 5 50);
    optional "website" t_str;
    optional "description" t_str;
    with_validator (optional "founded_year" t_int) validate_founded_year;
    optional "is_verified" t_bool ].

Definition ServiceBase : list field :=
  [ required "service_name" (t_constr 1 255);
    optional "description" t_str;
    defaulted "is_free" t_bool (VBool true);
    optional "eligibility_criteria" t_str ].

Definition ServiceCreate : list field := ServiceBase.

Definition ProjectBase : list field :=
  [ required "project_name" (t_constr 1 255);
    required "location" t_str;
    optional "start_date" t_date;
    with_validator (optional "end_date" t_date) validate_end_date;
    with_validator (defaulted "status" t_str (VStr "planned")) validate_status;
    optional "description" t_str;
    optional "beneficiary_info" t_str ].

Definition ProjectCreate : list field := ProjectBase.

Definition EmployeeBase : list field :=
  [ required "full_name" (t_constr 1 255);
    required "position" (t_constr 1 100);
    optional "email" t_email;
    optional "phone" t_str;
    optional "specialization" t_str;
    optional "join_date" t_date ].

Definition EmployeeCreate : list field := EmployeeBase.

(** *** Validation of a model, as pydantic runs it *)

Definition apply_post (f : field) (values : gmap string value) (v : value)
  : checked value :=
  match f_post f with
  | Some post => post values v
  | None => Valid v
  end.

(** One supplied value against one field: [None] passes an optional
    field and is refused by the others; any other value goes through
    the validators of the type; the class validator comes last. *)
Definition validate_field (f : field) (values : gmap string value) (v : value)
  : checked value :=
  match v with
  | VNone =>
      if f_allow_none f then apply_post f values VNone
      else Invalid (msg_none_not_allowed W)
  | _ =>
      match f_validators f v with
      | Valid v' => apply_post f values v'
      | Invalid m => Invalid m
      end
  end.

(** The fields are visited in declaration order.  A missing required
    field is an error, a missing optional one takes its default
    without validation, a supplied one is validated; every error is
    recorded under the name of its field and the walk goes on.  Keys
    of [data] that name no field are ignored. *)
Fixpoint validate_model (fields : list field) (data : gmap string value)
    (values : gmap string value) (errors : list (string * string))
  : gmap string value * list (string * string) :=
  match fields with
  | [] => (values, errors)
  | f :: rest =>
      match data !! f_name f with
      | None =>
          if f_required f
          then validate_model rest data values
                 (errors ++ [(f_name f, msg_missing W)])
          else validate_model rest data (<[f_name f := f_default f]> values) errors
      | Some v =>
          match validate_field f values v with
          | Valid v' => validate_model rest data (<[f_name f := v']> values) errors
          | Invalid m => validate_model rest data values (errors ++ [(f_name f, m)])
          end
      end
  end.

(** [Model( **data).dict()] for a mapping [data]. *)
Definition model_dict (fields : list field) (data : gmap string value)
  : exn + gmap string value :=
  match validate_model fields data ∅ [] with
  | (values, []) => inr values
  | (_, errors) => inl (PydanticValidationError errors)
  end.

(** [Model( **data).dict()] for any request body: unpacking something
    that is not a mapping is a [TypeError]. *)
Definition model_of_json (fields : list field) (data : value)
  : exn + gmap string value :=
  match data with
  | VDict d => model_dict fields d
  | _ => inl (PyException (kwargs_type_error W data))
  end.

End Models.
End Models.

(** ** The store

The hosted database, seen through the query builder of its client:
four tables of rows, a row being a mapping from column to value.
Calls to the store do not fail in this model, and the store accepts
every row it is given. *)

Module Store.

Inductive table :=
| os_construction
| os_construction_services
| os_construction_projects
| os_construction_employees.

Record store := {
  companies : list (gmap string value);
  services : list (gmap string value);
  projects : list (gmap string value);
  employees : list (gmap string value)
}.

Definition rows (t : table) (st : store) : list (gmap string value) :=
  match t with
  | os_construction => companies st
  | os_construction_services => services st
  | os_construction_projects => projects st
  | os_construction_employees => employees st
  end.

Definition set_rows (t : table) (l : list (gmap string value)) (st : store) : store :=
  match t with
  | os_construction =>
      {| companies := l; services := services st;
         projects := projects st; employees := employees st |}
  | os_construction_services =>
      {| companies := companies st; services := l;
         projects := projects st; employees := employees st |}
  | os_construction_projects =>
      {| companies := companies st; services := services st;
         projects := l; employees := employees st |}
  | os_construction_employees =>
      {| companies := companies st; services := services st;
         projects := projects st; employees := l |}
  end.

(** [.eq(col, v)] and [.ilike(col, pattern)] *)
Inductive condition :=
| Eq (col : string) (v : value)
| ILike (col : string) (pattern : string).

(** [supabase.table(t).select(...)] with the filters and the range
    chained on it. *)
Record query := {
  q_table : table;
  q_columns : string;
  q_filters : list condition;
  q_range : option (Z * Z)
}.

(** [supabase.table(t).select(columns)], for ["*"] or one column. *)
Definition select (t : table) (columns : string) : query :=
  {| q_table := t; q_columns := columns; q_filters := []; q_range := None |}.

Definition eq (col : string) (v : value) (q : query) : query :=
  {| q_table := q_table q; q_columns := q_columns q;
     q_filters := q_filters q ++ [Eq col v]; q_range := q_range q |}.

Definition ilike_ (col : string) (pattern : string) (q : query) : query :=
  {| q_table := q_table q; q_columns := q_columns q;
     q_filters := q_filters q ++ [ILike col pattern]; q_range := q_range q |}.

Definition range (first last : Z) (q : query) : query :=
  {| q_table := q_table q; q_columns := q_columns q;
     q_filters := q_filters q; q_range := Some (first, last) |}.

(** The columns of a row a query returns. *)
Definition project (columns : string) (r : gmap string value) : gmap string value :=
  if String.eqb columns "*" then r
  else match r !! columns with
       | Some v => {[ columns := v ]}
       | None => ∅
       end.

(** What [.execute()] returns: the rows, and the exact count of the
    rows the filters select. *)
Record result := { data : list (gmap string value); count : Z }.

Section Store.
Context (W : World).

Definition matches (r : gmap string value) (f : condition) : bool :=
  match f with
  | Eq col v =>
      match r !! col with
      | Some w => eq_scalar w v
      | None => false
      end
  | ILike col pattern =>
      match r !! col with
      | Some (VStr s) => ilike W pattern s
      | _ => false
      end
  end.

Definition selected (fs : list condition) (r : gmap string value) : bool :=
  forallb (matches r) fs.

(** Rows [first] to [last], both included. *)
Definition slice (first last : Z) (l : list (gmap string value))
  : list (gmap string value) :=
  take (Z.to_nat (last - first + 1)) (drop (Z.to_nat first) l).

Definition execute (q : query) (st : store) : result :=
  let hit := List.filter (selected (q_filters q)) (rows (q_table q) st) in
  {| data := List.map (project (q_columns q))
               match q_range q with
               | Some (first, last) => slice first last hit
               | None => hit
               end;
     count := Z.of_nat (length hit) |}.

(** [.insert(row).execute()]: the row is appended, with the default
    of its [id] column when it brings none. *)
Definition with_id (t : table) (st : store) (r : gmap string value)
  : gmap string value :=
  match r !! "id" with
  | Some _ => r
  | None => <["id" := VStr (uuid_generate W (rows t st))]> r
  end.

Definition insert_row (t : table) (r : gmap string value) (st : store)
  : result * store :=
  let r' := with_id t st r in
  ({| data := [r']; count := 1 |}, set_rows t (rows t st ++ [r']) st).

(** [.update(changes).eq(...).execute()]: the selected rows take the
    columns of [changes] and keep their other columns. *)
Definition patch (fs : list condition) (changes r : gmap string value)
  : gmap string value :=
  if selected fs r then changes ∪ r else r.

Definition update_rows (t : table) (changes : gmap string value)
    (fs : list condition) (st : store) : result * store :=
  let hit := List.filter (selected fs) (rows t st) in
  ({| data := List.map (fun r => changes ∪ r) hit;
      count := Z.of_nat (length hit) |},
   set_rows t (List.map (patch fs changes) (rows t st)) st).

(** [.delete().eq(...).execute()]: the selected rows go, and with a
    company go the rows that reference it ([company_id UUID
    REFERENCES os_construction(id) ON DELETE CASCADE]). *)
Definition references (gone : list (gmap string value)) (r : gmap string value)
  : bool :=
  match r !! "company_id" with
  | Some v =>
      existsb (fun g => match g !! "id" with
                        | Some w => eq_scalar v w
                        | None => false
                        end) gone
  | None => false
  end.

Definition cascade (gone : list (gmap string value)) (st : store) : store :=
  let keep := List.filter (fun r => negb (references gone r)) in
  {| companies := companies st;
     services := keep (services st);
     projects := keep (projects st);
     employees := keep (employees st) |}.

Definition delete_rows (t : table) (fs : list condition) (st : store)
  : result * store :=
  let gone := List.filter (selected fs) (rows t st) in
  let st' := set_rows t (List.filter (fun r => negb (selected fs r)) (rows t st)) st in
  ({| data := gone; count := Z.of_nat (length gone) |},
   match t with
   | os_construction => cascade gone st'
   | _ => st'
   end).

End Store.
End Store.
Export Store.

(** ** Handlers as computations

A view function reads and writes the store and either returns or
raises. *)

Definition M (A : Type) : Type := store -> (exn + A) * store.

Definition ret {A} (a : A) : M A := fun st => (inr a, st).
Definition raise {A} (e : exn) : M A := fun st => (inl e, st).
Definition bind {A B} (m : M A) (k : A -> M B) : M B :=
  fun st =>
    match m st with
    | (inr a, st') => k a st'
    | (inl e, st') => (inl e, st')
    end.

(** A pure step that may raise. *)
Definition lift_exn {A} (r : exn + A) : M A :=
  match r with
  | inr a => ret a
  | inl e => raise e
  end.

(** [try: body except ... as e: handler(e)] *)
Definition try_except {A} (body : M A) (handler : exn -> M A) : M A :=
  fun st =>
    match body st with
    | (inl e, st') => handler e st'
    | r => r
    end.

Declare Scope handler_scope.
Delimit Scope handler_scope with handler.
Notation "'let*' x ':=' m 'in' k" := (bind m (fun x => k))
  (at level 10, x name, m at level 100, k at level 200) : handler_scope.
Notation "'let*' ' p ':=' m 'in' k" := (bind m (fun p => k))
  (at level 10, p strict pattern, m at level 100, k at level 200) : handler_scope.
Notation "m ';;' k" := (bind m (fun _ => k))
  (at level 100, k at level 200, right associativity) : handler_scope.
Local Open Scope handler_scope.

(** [if cond: raise e] *)
Definition raise_if (cond : bool) (e : exn) : M unit :=
  if cond then raise e else ret tt.

(** The store calls, as steps. *)
Definition run_query (W : World) (q : query) : M result :=
  fun st => (inr (execute W q st), st).
Definition run_insert (W : World) (t : table) (r : gmap string value) : M result :=
  fun st => let '(res, st') := insert_row W t r st in (inr res, st').
Definition run_update (W : World) (t : table) (changes : gmap string value)
    (fs : list condition) : M result :=
  fun st => let '(res, st') := update_rows W t changes fs st in (inr res, st').
Definition run_delete (W : World) (t : table) (fs : list condition) : M result :=
  fun st => let '(res, st') := delete_rows W t fs st in (inr res, st').

(** ** Requests and responses *)

(** The part of Flask's [request] the application reads, and the two
    attributes [token_required] sets on it.  [json] is what evaluating
    [request.json] gives: the parsed body, or the text of the exception
    Flask raises when there is no body it can parse (a werkzeug
    [HTTPException], which is none of the classes of [exceptions.py]). *)
Record request := {
  headers : gmap string string;
  args : gmap string string;
  json : string + value;
  user_id : option value;
  username : option value
}.

(** [request.json], as an expression that may raise. *)
Definition read_json (req : request) : exn + value :=
  match json req with
  | inr data => inr data
  | inl msg => inl (PyException msg)
  end.

Definition set_user (req : request) (sub name : value) : request :=
  {| headers := headers req; args := args req; json := json req;
     user_id := Some sub; username := Some name |}.

(** What a view returns: [jsonify(body), status]. *)
Record response := { body : value; status : Z }.

Definition jsonify (b : gmap string value) : value := VDict b.

(** [{"error": kind, "message": text}] *)
Definition envelope (kind text : string) : gmap string value :=
  {[ "error" := VStr kind; "message" := VStr text ]}.

(** ** authentication.py *)

Module Auth.
Section Auth.
Context (W : World).

(** [decode_token] *)
Definition decode_token (token : string) : exn + gmap string value :=
  match jwt_decode W token with
  | Decoded payload => inr payload
  | ExpiredSignatureError =>
      inl (AuthenticationError "Token expired. Please log in again.")
  | InvalidTokenError =>
      inl (AuthenticationError "Invalid token. Please log in again.")
  end.

(** The token [token_required] reads from the header: [None] until a
    [Bearer ] header gives the second piece of [split(' ')]. *)
Definition bearer_token (req : request) : exn + option string :=
  match headers req !! "Authorization" with
  | Some auth_header =>
      if startswith "Bearer " auth_header then
        match split " " auth_header !! 1%nat with
        | Some token => inr (Some token)
        | None => inl (PyException "IndexError: list index out of range")
        end
      else inr None
  | None => inr None
  end.

(** [payload[key]] *)
Definition getitem (payload : gmap string value) (key : string) : exn + value :=
  match payload !! key with
  | Some v => inr v
  | None => inl (PyException ("KeyError: '" +:+ key +:+ "'"))
  end.

(** [not token] *)
Definition no_token (token : option string) : bool :=
  match token with
  | None => true
  | Some t => String.eqb t ""
  end.

(** [token_required(f)] *)
Definition token_required (f : request -> M response) (req : request)
  : M response :=
  let* token := lift_exn (bearer_token req) in
  if no_token token then
    ret {| body := jsonify (envelope "Authentication required" "Token is missing");
           status := 401 |}
  else
    match decode_token (default "" token) with
    | inl (AuthenticationError msg) =>
        ret {| body := jsonify (envelope "Authentication failed" msg);
               status := 401 |}
    | inl e => raise e
    | inr payload =>
        let* sub := lift_exn (getitem payload "sub") in
        let* name := lift_exn (getitem payload "username") in
        f (set_user req sub name)
    end.

(** [os.environ.get('ADMIN_USER_IDS', '').split(',')] *)
Definition admin_user_ids : list string :=
  split "," (default "" (ADMIN_USER_IDS W)).

(** [hasattr(request, 'user_id') and request.user_id in admin_user_ids] *)
Definition is_admin (req : request) : bool :=
  match user_id req with
  | Some uid => in_str_list uid admin_user_ids
  | None => false
  end.

(** [admin_required(f)] *)
Definition admin_required (f : request -> M response) (req : request)
  : M response :=
  if negb (is_admin req) then
    ret {| body := jsonify (envelope "Authorization failed" "Admin privileges required");
           status := 403 |}
  else f req.

End Auth.
End Auth.
Export Auth.

(** ** app_improved.py *)

Module App.
Section App.
Context (W : World).

(** *** Error handlers *)

(** [str(e)] *)
Definition str_exn (e : exn) : string :=
  match e with
  | OSConstructionError m | DatabaseConnectionError m | ResourceNotFoundError m
  | ValidationError m | AuthenticationError m | AuthorizationError m
  | DatabaseError m | PyException m => m
  | PydanticValidationError errors => pydantic_str W errors
  end.

Definition error_response (kind : string) (e : exn) (code : Z) : response :=
  {| body := jsonify (envelope kind (str_exn e)); status := code |}.

(** [handle_custom_exception], registered for [OSConstructionError] *)
Definition handle_custom_exception (e : exn) : response :=
  match e with
  | ResourceNotFoundError _ => error_response "Not Found" e 404
  | ValidationError _ | PydanticValidationError _ =>
      error_response "Validation Error" e 400
  | AuthenticationError _ => error_response "Authentication Error" e 401
  | AuthorizationError _ => error_response "Authorization Error" e 403
  | DatabaseConnectionError _ => error_response "Database Connection Error" e 503
  | _ => error_response "Application Error" e 500
  end.

(** [handle_generic_exception], registered for [Exception] *)
Definition handle_generic_exception (e : exn) : response :=
  {| body := jsonify (envelope "Internal Server Error" "An unexpected error occurred");
     status := 500 |}.

(** Flask runs the view and hands what it raises to the handler
    registered for the nearest class. *)
Definition dispatch (view : M response) (st : store) : response * store :=
  match view st with
  | (inr r, st') => (r, st')
  | (inl e, st') =>
      (if is_OSConstructionError e then handle_custom_exception e
       else handle_generic_exception e, st')
  end.

(** *** Helper functions *)

(** [int(request.args.get(name, default))] *)
Definition int_arg (req : request) (name : string) (default : Z) : option Z :=
  match args req !! name with
  | Some s => py_int W s
  | None => Some default
  end.

(** [get_pagination_params] *)
Definition get_pagination_params (req : request) : exn + Z * Z :=
  match int_arg req "page" 1 with
  | Some p =>
      let page := Z.max 1 p in
      match int_arg req "per_page" 10 with
      | Some pp =>
          let per_page := Z.max 1 (Z.min 100 pp) in
          inr (page, per_page)
      | None => inl (ValidationError "Invalid pagination parameters")
      end
  | None => inl (ValidationError "Invalid pagination parameters")
  end.

(** [paginate_query] *)
Definition paginate_query (q : query) (page per_page : Z) : query :=
  let offset := (page - 1) * per_page in
  range offset (offset + per_page - 1) q.

(** [get_total_count]: the exact count of the whole table (the
    fallback to 0 is for a store call that fails). *)
Definition get_total_count (t : table) : M Z :=
  let* response := run_query W (select t "count") in
  ret (count response).

(** [a // b] *)
Definition floordiv (a b : Z) : exn + Z :=
  if b =? 0 then inl (PyException "ZeroDivisionError: integer division or modulo by zero")
  else inr (a / b).

(** The [pages] entry of [format_paginated_response]. *)
Definition pages (per_page total : Z) : exn + Z :=
  if 0 <? total then floordiv (total + per_page - 1) per_page else inr 0.

(** [format_paginated_response] *)
Definition format_paginated_response (rows : list (gmap string value))
    (page per_page total : Z) : exn + gmap string value :=
  match pages per_page total with
  | inr n =>
      inr {[ "data" := VList (VDict <$> rows);
             "pagination" := VDict {[ "page" := VInt page;
                                      "per_page" := VInt per_page;
                                      "total" := VInt total;
                                      "pages" := VInt n ]} ]}
  | inl e => inl e
  end.

(** *** The [except] clauses every mutating view ends with *)

(** [except PydanticValidationError as e] *)
Definition error_messages (errors : list (string * string)) : list string :=
  (fun err => fst err +:+ ": " +:+ snd err) <$> errors.

Definition invalid_data (errors : list (string * string)) : exn :=
  ValidationError ("Invalid data: " +:+ join "; " (error_messages errors)).

(** [except Exception as e] *)
Definition except_exception {A} (prefix : string) (e : exn) : M A :=
  if is_OSConstructionError e then raise e
  else raise (DatabaseConnectionError (prefix +:+ str_exn e)).

Definition except_clauses {A} (prefix : string) (e : exn) : M A :=
  match e with
  | PydanticValidationError errors => raise (invalid_data errors)
  | _ => except_exception prefix e
  end.

(** [check = supabase.table("os_construction").select("id")
    .eq("id", company_id).execute()] followed by
    [if not check.data: raise ResourceNotFoundError(...)] *)
Definition company_query (company_id : string) : query :=
  eq "id" (VStr company_id) (select os_construction "id").

Definition not_found (company_id : string) : exn :=
  ResourceNotFoundError ("Company with ID " +:+ company_id +:+ " not found").

Definition check_company (company_id : string) : M unit :=
  let* check := run_query W (company_query company_id) in
  raise_if (negb (truthy (VList (VDict <$> data check)))) (not_found company_id).

(** [if not response.data: raise DatabaseConnectionError(msg)] followed
    by [return jsonify(response.data[0]), code] *)
Definition first_row (r : result) (msg : string) (code : Z) : M response :=
  match data r with
  | [] => raise (DatabaseConnectionError msg)
  | row :: _ => ret {| body := jsonify row; status := code |}
  end.

(** [data = request.json] with [if not data: raise ValidationError(...)] *)
Definition request_json (req : request) : M value :=
  let* data := lift_exn (read_json req) in
  raise_if (negb (truthy data)) (ValidationError "No data provided");;
  ret data.

(** [db_data["created_at"] = now; db_data["updated_at"] = now] *)
Definition stamp (db_data : gmap string value) : gmap string value :=
  let now := utcnow_isoformat W in
  <["updated_at" := VStr now]> (<["created_at" := VStr now]> db_data).

(** [if db_data.get(key): db_data[key] = db_data[key].isoformat()] *)
Definition isoformat_field (key : string) (db_data : gmap string value)
  : exn + gmap string value :=
  match db_data !! key with
  | Some v =>
      if truthy v then
        match v with
        | VDate d => inr (<[key := VStr (isoformat d)]> db_data)
        | _ => inl (PyException "AttributeError: isoformat")
        end
      else inr db_data
  | None => inr db_data
  end.

(** *** Company endpoints *)

(** The filters [get_companies] chains on its query. *)
Definition companies_query (req : request) : query :=
  let query := select os_construction "*" in
  let query :=
    match args req !! "is_verified" with
    | Some is_verified =>
        eq "is_verified" (VBool (String.eqb (lower is_verified) "true")) query
    | None => query
    end in
  match args req !! "name" with
  | Some name_search =>
      if truthy (VStr name_search)
      then ilike_ "company_name" ("%" +:+ name_search +:+ "%") query
      else query
  | None => query
  end.

(** [GET /api/companies] *)
Definition get_companies (req : request) : M response :=
  try_except
    (let* '(page, per_page) := lift_exn (get_pagination_params req) in
     let query := companies_query req in
     let* total_count := get_total_count os_construction in
     let query := paginate_query query page per_page in
     let* response := run_query W query in
     let* result := lift_exn (format_paginated_response (data response)
                                page per_page total_count) in
     ret {| body := jsonify result; status := 200 |})
    (except_exception "Failed to retrieve companies: ").

(** [GET /api/companies/<company_id>] *)
Definition get_company (company_id : string) (req : request) : M response :=
  try_except
    (let* response := run_query W (eq "id" (VStr company_id)
                                     (select os_construction "*")) in
     match data response with
     | [] => raise (not_found company_id)
     | row :: _ => ret {| body := jsonify row; status := 200 |}
     end)
    (except_exception "Failed to retrieve company: ").

(** [POST /api/companies] *)
Definition create_company (req : request) : M response :=
  try_except
    (let* data := request_json req in
     let* company_data := lift_exn (Models.model_of_json W (Models.CompanyCreate W) data) in
     let db_data := stamp company_data in
     let* response := run_insert W os_construction db_data in
     first_row response "Failed to create company" 201)
    (except_clauses "Failed to create company: ").

(** [{k: v for k, v in company_data.dict().items() if v is not None}] *)
Definition is_not_none (v : value) : bool :=
  match v with
  | VNone => false
  | _ => true
  end.

Definition drop_none (d : gmap string value) : gmap string value :=
  filter (fun kv => is_not_none (snd kv) = true) d.

(** The columns [update_company] sends to the store for a validated
    payload. *)
Definition update_db_data (company_data : gmap string value) : gmap string value :=
  <["updated_at" := VStr (utcnow_isoformat W)]> (drop_none company_data).

(** [PUT /api/companies/<company_id>] *)
Definition update_company (company_id : string) (req : request) : M response :=
  try_except
    (let* data := request_json req in
     let* company_data := lift_exn (Models.model_of_json W (Models.CompanyUpdate W) data) in
     let db_data := update_db_data company_data in
     check_company company_id;;
     let* response := run_update W os_construction db_data
                        [Eq "id" (VStr company_id)] in
     first_row response "Failed to update company" 200)
    (except_clauses "Failed to update company: ").

(** [DELETE /api/companies/<company_id>], without its decorators *)
Definition delete_company (company_id : string) (req : request) : M response :=
  try_except
    (check_company company_id;;
     let* response := run_delete W os_construction [Eq "id" (VStr company_id)] in
     match data response with
     | [] => raise (DatabaseConnectionError "Failed to delete company")
     | _ :: _ =>
         ret {| body := jsonify {[ "message" :=
                   VStr ("Company with ID " +:+ company_id +:+ " deleted successfully") ]};
                status := 200 |}
     end)
    (except_exception "Failed to delete company: ").

(** *** Child endpoints *)

(** [POST /api/companies/<company_id>/services] *)
Definition add_company_service (company_id : string) (req : request) : M response :=
  try_except
    (let* data := request_json req in
     let* service_data := lift_exn (Models.model_of_json W (Models.ServiceCreate W) data) in
     check_company company_id;;
     let db_data := <["company_id" := VStr company_id]> service_data in
     let db_data := stamp db_data in
     let* response := run_insert W os_construction_services db_data in
     first_row response "Failed to create service" 201)
    (except_clauses "Failed to add service: ").

(** [POST /api/companies/<company_id>/projects] *)
Definition add_company_project (company_id : string) (req : request) : M response :=
  try_except
    (let* data := request_json req in
     let* project_data := lift_exn (Models.model_of_json W (Models.ProjectCreate W) data) in
     check_company company_id;;
     let db_data := <["company_id" := VStr company_id]> project_data in
     let* db_data := lift_exn (isoformat_field "start_date" db_data) in
     let* db_data := lift_exn (isoformat_field "end_date" db_data) in
     let db_data := stamp db_data in
     let* response := run_insert W os_construction_projects db_data in
     first_row response "Failed to create project" 201)
    (except_clauses "Failed to add project: ").

(** [POST /api/companies/<company_id>/employees] *)
Definition add_company_employee (company_id : string) (req : request) : M response :=
  try_except
    (let* data := request_json req in
     let* employee_data := lift_exn (Models.model_of_json W (Models.EmployeeCreate W) data) in
     check_company company_id;;
     let db_data := <["company_id" := VStr company_id]> employee_data in
     let* db_data := lift_exn (isoformat_field "join_date" db_data) in
     let db_data := stamp db_data in
     let* response := run_insert W os_construction_employees db_data in
     first_row response "Failed to create employee" 201)
    (except_clauses "Failed to add employee: ").

(** [GET /api/companies/<company_id>/projects] *)
Definition projects_query (company_id : string) (req : request) : exn + query :=
  let query := eq "company_id" (VStr company_id)
                 (select os_construction_projects "*") in
  match args req !! "status" with
  | Some status =>
      if truthy (VStr status) then
        if in_str_list (VStr status) Models.valid_statuses
        then inr (eq "status" (VStr status) query)
        else inl (ValidationError ("Invalid status. Must be one of "
                                   +:+ Models.valid_statuses_repr))
      else inr query
  | None => inr query
  end.

Definition get_company_projects (company_id : string) (req : request) : M response :=
  try_except
    (let* '(page, per_page) := lift_exn (get_pagination_params req) in
     check_company company_id;;
     let* query := lift_exn (projects_query company_id req) in
     let* total_response := run_query W query in
     let total_count := Z.of_nat (length (data total_response)) in
     let query := paginate_query query page per_page in
     let* response := run_query W query in
     let* result := lift_exn (format_paginated_response (data response)
                                page per_page total_count) in
     ret {| body := jsonify result; status := 200 |})
    (except_exception "Failed to retrieve projects: ").

(** [GET /api/companies/<company_id>/services] *)
Definition get_company_services (company_id : string) (req : request) : M response :=
  try_except
    (let* '(page, per_page) := lift_exn (get_pagination_params req) in
     check_company company_id;;
     let* total_count := get_total_count os_construction_services in
     let query := eq "company_id" (VStr company_id)
                    (select os_construction_services "*") in
     let query := paginate_query query page per_page in
     let* response := run_query W query in
     let* result := lift_exn (format_paginated_response (data response)
                                page per_page total_count) in
     ret {| body := jsonify result; status := 200 |})
    (except_exception "Failed to retrieve services: ").

(** [GET /api/companies/<company_id>/employees] *)
Definition get_company_employees (company_id : string) (req : request) : M response :=
  try_except
    (let* '(page, per_page) := lift_exn (get_pagination_params req) in
     check_company company_id;;
     let query := eq "company_id" (VStr company_id)
                    (select os_construction_employees "count") in
     let* count_response := run_query W query in
     let total_count := count count_response in
     let query := eq "company_id" (VStr company_id)
                    (select os_construction_employees "*") in
     let query := paginate_query query page per_page in
     let* response := run_query W query in
     let* result := lift_exn (format_paginated_response (data response)
                                page per_page total_count) in
     ret {| body := jsonify result; status := 200 |})
    (except_exception "Failed to retrieve employees: ").

(** *** Routes: the views under their decorators *)

Definition route_delete_company (company_id : string) : request -> M response :=
  token_required W (admin_required W (delete_company company_id)).

Definition route_update_company (company_id : string) : request -> M response :=
  token_required W (update_company company_id).

Definition route_create_company : request -> M response :=
  token_required W create_company.

Definition route_add_company_service (company_id : string) : request -> M response :=
  token_required W (add_company_service company_id).

Definition route_add_company_project (company_id : string) : request -> M response :=
  token_required W (add_company_project company_id).

Definition route_add_company_employee (company_id : string) : request -> M response :=
  token_required W (add_company_employee company_id).

End App.
End App.
Export App.


(** ** A sample world

    One concrete set of collaborators, to run the handlers on: validators
    that accept what the field type holds and the usual string forms,
    four tokens, a fixed clock. *)

Module Sample.

(** The integers the sample world reads from ASCII text, as [int()]
    does: blanks around are dropped (space and the characters 9 to
    13), then come an optional sign and a run of decimal digits in
    which single underscores may separate digits.  Anything else is
    refused.  This is [int()] on ASCII text that stays under the
    interpreter's limit on the number of digits; the theorems are
    stated for any [py_int]. *)
Definition is_space (c : ascii) : bool :=
  let n := nat_of_ascii c in
  (Nat.eqb n 32 || (Nat.leb 9 n && Nat.leb n 13))%bool.

Definition digit_of (c : ascii) : option Z :=
  let n := nat_of_ascii c in
  if (Nat.leb 48 n && Nat.leb n 57)%bool then Some (Z.of_nat (n - 48)) else None.

Fixpoint lstrip (s : string) : string :=
  match s with
  | String c s' => if is_space c then lstrip s' else s
  | EmptyString => EmptyString
  end.

Definition strip (s : string) : string :=
  String.rev (lstrip (String.rev (lstrip s))).

(** [digits acc sep s]: [acc] is the value read so far, [sep] tells
    that the last character was an underscore. *)
Fixpoint digits (acc : Z) (sep : bool) (s : string) : option Z :=
  match s with
  | EmptyString => if sep then None else Some acc
  | String c s' =>
      match digit_of c with
      | Some d => digits (10 * acc + d) false s'
      | None =>
          if (Ascii.eqb c "_" && negb sep)%bool then digits acc true s'
          else None
      end
  end.

Definition unsigned (s : string) : option Z :=
  match s with
  | String c s' =>
      match digit_of c with
      | Some d => digits d false s'
      | None => None
      end
  | EmptyString => None
  end.

Definition read_int (s : string) : option Z :=
  match strip s with
  | String "-" s' => Z.opp <$> unsigned s'
  | String "+" s' => unsigned s'
  | s' => unsigned s'
  end.

Definition coerce_str (v : value) : checked string :=
  match v with
  | VStr s => Valid s
  | VInt n => Valid (str_int n)
  | _ => Invalid "str type expected"
  end.

Definition coerce_int (v : value) : checked Z :=
  match v with
  | VInt n => Valid n
  | VBool b => Valid (if b then 1 else 0)
  | VStr s => match read_int s with
              | Some n => Valid n
              | None => Invalid "value is not a valid integer"
              end
  | _ => Invalid "value is not a valid integer"
  end.

Definition coerce_bool (v : value) : checked bool :=
  match v with
  | VBool b => Valid b
  | VInt 0 => Valid false
  | VInt 1 => Valid true
  | VStr s =>
      if existsb (String.eqb (lower s)) ["1"; "on"; "t"; "true"; "y"; "yes"]
      then Valid true
      else if existsb (String.eqb (lower s)) ["0"; "off"; "f"; "false"; "n"; "no"]
      then Valid false
      else Invalid "value could not be parsed to a boolean"
  | _ => Invalid "value could not be parsed to a boolean"
  end.

(** An address is taken to be one [@] between two non-empty parts. *)
Definition check_email (s : string) : checked string :=
  match split "@" s with
  | [local; domain] =>
      if (String.eqb local "" || String.eqb domain "")%bool
      then Invalid "value is not a valid email address"
      else Valid s
  | _ => Invalid "value is not a valid email address"
  end.

(** A date is a date object or the text [YYYY-MM-DD]. *)
Definition parse_date (v : value) : checked date :=
  match v with
  | VDate d => Valid d
  | VStr s =>
      match unsigned <$> split "-" s with
      | [Some y; Some m; Some d] => Valid (Date y m d)
      | _ => Invalid "invalid date format"
      end
  | _ => Invalid "invalid date format"
  end.

Definition token_payload (sub name : string) : gmap string value :=
  {[ "sub" := VStr sub; "username" := VStr name ]}.

Definition decode (token : string) : jwt_result :=
  if String.eqb token "admin-token" then Decoded (token_payload "admin-user-id" "admin")
  else if String.eqb token "user-token" then Decoded (token_payload "user-1" "bob")
  else if String.eqb token "blank-token" then Decoded (token_payload "" "nobody")
  else if String.eqb token "old-token" then ExpiredSignatureError
  else InvalidTokenError.

(** [s in t], both lowered: the match of [%s%] when [s] holds no
    wildcard. *)
Fixpoint contains (s t : string) : bool :=
  startswith s t
  || match t with
     | String _ t' => contains s t'
     | EmptyString => false
     end.

Definition like (pattern s : string) : bool :=
  match split "%" pattern with
  | [_; needle; _] => contains (lower needle) (lower s)
  | _ => String.eqb (lower pattern) (lower s)
  end.

Definition world (admins : option string) : World :=
  {| str_validator := coerce_str;
     int_validator := coerce_int;
     bool_validator := coerce_bool;
     email_validator := check_email;
     date_validator := parse_date;
     msg_missing := "field required";
     msg_none_not_allowed := "none is not an allowed value";
     msg_min_length := fun n =>
       "ensure this value has at least " +:+ pretty n +:+ " characters";
     msg_max_length := fun n =>
       "ensure this value has at most " +:+ pretty n +:+ " characters";
     pydantic_str := fun errors => join "; " (fst <$> errors);
     kwargs_type_error := fun _ => "argument after ** must be a mapping";
     py_int := read_int;
     jwt_decode := decode;
     ADMIN_USER_IDS := admins;
     utcnow_isoformat := "2024-05-01T12:00:00";
     current_year := 2024;
     ilike := like;
     uuid_generate := fun l => "id-" +:+ pretty (length l) |}.

Definition company (id name : string) (verified : bool) : gmap string value :=
  {[ "id" := VStr id; "company_name" := VStr name;
     "company_address" := VStr "1 Main Street";
     "company_email" := VStr "office@example.org";
     "company_phone" := VStr "555-0100";
     "is_verified" := VBool verified;
     "created_at" := VStr "2024-01-01T00:00:00";
     "updated_at" := VStr "2024-01-01T00:00:00" ]}.

(** A store with two companies, one of them verified, and one project. *)
Definition two_companies : store :=
  {| companies := [company "c1" "Acme Builders" true;
                   company "c2" "Brick and Co" false];
     services := [];
     projects := [ {[ "id" := VStr "p1"; "company_id" := VStr "c1";
                      "project_name" := VStr "Bridge";
                      "status" := VStr "planned" ]} ];
     employees := [] |}.

Definition empty_store : store :=
  {| companies := []; services := []; projects := []; employees := [] |}.

Definition get (params : gmap string string) : request :=
  {| headers := ∅; args := params; json := inr VNone;
     user_id := None; username := None |}.

Definition post (payload : value) : request :=
  {| headers := ∅; args := ∅; json := inr payload;
     user_id := None; username := None |}.

Definition with_header (auth : string) : request :=
  {| headers := {[ "Authorization" := auth ]}; args := ∅; json := inr VNone;
     user_id := None; username := None |}.

End Sample.


(** ** Vocabulary of the properties *)

Section Vocabulary.
Context (W : World).

(** The two rejections of [token_required] and the one of
    [admin_required]. *)
Definition token_missing : response :=
  {| body := jsonify (envelope "Authentication required" "Token is missing");
     status := 401 |}.

Definition authentication_failed (msg : string) : response :=
  {| body := jsonify (envelope "Authentication failed" msg); status := 401 |}.

Definition forbidden : response :=
  {| body := jsonify (envelope "Authorization failed" "Admin privileges required");
     status := 403 |}.

(** The request carries no bearer token: no [Authorization] header, one
    that does not start with [Bearer ], or an empty token after it. *)
Definition without_token (req : request) : Prop :=
  exists token, bearer_token req = inr token /\ no_token token = true.

(** The request carries the bearer token [t]. *)
Definition with_token (req : request) (t : string) : Prop :=
  bearer_token req = inr (Some t) /\ t <> "".

(** [request.user_id] is an element of the allow-list. *)
Definition on_allow_list (req : request) : Prop :=
  exists s, user_id req = Some (VStr s)
            /\ s ∈ split "," (default "" (ADMIN_USER_IDS W)).

(** The gate of an admin-only route admits the request: its token
    verifies, carries a subject and a user name, and the subject is on
    the allow-list. *)
Definition admitted_as_admin (req : request) : Prop :=
  exists t payload sub name,
    with_token req t /\ jwt_decode W t = Decoded payload
    /\ payload !! "sub" = Some sub /\ payload !! "username" = Some name
    /\ in_str_list sub (admin_user_ids W) = true.

(** A company with this id is in the store. *)
Definition company_exists (company_id : string) (st : store) : Prop :=
  exists r, r ∈ companies st /\ r !! "id" = Some (VStr company_id).

(** The rows the existence check and the delete both select. *)
Definition company_rows (company_id : string) (st : store)
  : list (gmap string value) :=
  List.filter (selected W [Eq "id" (VStr company_id)]) (companies st).

(** The store a successful delete leaves. *)
Definition after_delete (company_id : string) (st : store) : store :=
  snd (delete_rows W os_construction [Eq "id" (VStr company_id)] st).

Definition deleted (company_id : string) : response :=
  {| body := jsonify {[ "message" :=
               VStr ("Company with ID " +:+ company_id +:+ " deleted successfully") ]};
     status := 200 |}.

(** The order of the checks of a view that posts a child under a
    company that is absent.  The body is read first: when
    [request.json] raises, or gives something that is neither empty
    nor a mapping, the view ends in its last [except] clause with
    [DatabaseConnectionError].  An empty body is refused next.  A
    mapping is then validated against [schema], and only one that
    passes reaches the existence check.  [prefix] is the text the last
    [except] clause of the view puts before the message. *)
Definition validates_before_lookup
    (view : string -> request -> M response) (schema : list Models.field)
    (prefix : string) : Prop :=
  forall company_id req st,
    ~ company_exists company_id st ->
    (forall msg,
       json req = inl msg ->
       view company_id req st
       = (inl (DatabaseConnectionError (prefix +:+ msg)), st))
    /\ (forall data,
          json req = inr data -> truthy data = false ->
          view company_id req st = (inl (ValidationError "No data provided"), st))
    /\ (forall data,
          json req = inr data -> truthy data = true ->
          (forall d, data <> VDict d) ->
          view company_id req st
          = (inl (DatabaseConnectionError (prefix +:+ kwargs_type_error W data)), st))
    /\ (forall d errors,
          json req = inr (VDict d) -> d <> ∅ ->
          Models.model_dict W schema d = inl (PydanticValidationError errors) ->
          view company_id req st = (inl (invalid_data errors), st))
    /\ (forall d values,
          json req = inr (VDict d) -> d <> ∅ ->
          Models.model_dict W schema d = inr values ->
          view company_id req st = (inl (not_found company_id), st)).

(** Under an absent company the view always raises, one of the classes
    of [exceptions.py], answered 400, 404 or 503, and leaves the store
    as it was. *)
Definition refuses_under_absent_company
    (view : string -> request -> M response) : Prop :=
  forall company_id req st,
    ~ company_exists company_id st ->
    exists e,
      view company_id req st = (inl e, st)
      /\ is_OSConstructionError e = true
      /\ (status (handle_custom_exception W e) = 400
          \/ status (handle_custom_exception W e) = 404
          \/ status (handle_custom_exception W e) = 503).

(** One field of a schema against a payload, the class validator of
    the field being given [values]: what the spec calls an offending
    field is one for which this is [Invalid]. *)
Definition field_check (values : gmap string value) (f : Models.field)
    (d : gmap string value) : checked value :=
  match d !! Models.f_name f with
  | None =>
      if Models.f_required f then Invalid (msg_missing W)
      else Valid (Models.f_default f)
  | Some v => Models.validate_field W f values v
  end.

(** The values of the fields that pass when each is taken alone. *)
Definition keep_passing (d values : gmap string value) (f : Models.field)
  : gmap string value :=
  match field_check ∅ f d with
  | Valid x => <[Models.f_name f := x]> values
  | Invalid _ => values
  end.

Definition passing (fields : list Models.field) (d : gmap string value)
  : gmap string value :=
  foldl (keep_passing d) ∅ fields.

(** The fields that offend when their class validators are given
    [values], each with its message, in the order of the schema. *)
Definition offences_given (values : gmap string value)
    (fields : list Models.field) (d : gmap string value)
  : list (string * string) :=
  omap (fun f => match field_check values f d with
                 | Invalid m => Some (Models.f_name f, m)
                 | Valid _ => None
                 end) fields.

(** The offending fields of a payload.  A class validator that looks at
    another field ([validate_end_date] at [start_date]) is given the
    value of that field when it passes. *)
Definition offences (fields : list Models.field) (d : gmap string value)
  : list (string * string) :=
  offences_given (passing fields d) fields d.

(** The class validator of the field, if any, does not look at the
    other fields. *)
Definition standalone (f : Models.field) : Prop :=
  forall values values' v,
    Models.apply_post f values v = Models.apply_post f values' v.

(** The response of the boundary handler to a [ValidationError]. *)
Definition validation_error (text : string) : response :=
  {| body := jsonify (envelope "Validation Error" text); status := 400 |}.

(** The one string a view makes of the errors pydantic reports. *)
Definition joined_text (errors : list (string * string)) : string :=
  "Invalid data: " +:+ join "; " (error_messages errors).

(** A view turns the list of errors of its schema into that string,
    raised as [ValidationError] and answered 400.  The payload is a
    mapping that is not empty: the empty mapping is refused before it
    is validated, with a message that names no field. *)
Definition joins_errors (view : request -> M response)
    (schema : list Models.field) : Prop :=
  forall req st,
    (forall d errors,
       json req = inr (VDict d) -> d <> ∅ ->
       Models.model_dict W schema d = inl (PydanticValidationError errors) ->
       view req st = (inl (ValidationError (joined_text errors)), st)
       /\ dispatch W (view req) st = (validation_error (joined_text errors), st))
    /\ (json req = inr (VDict ∅) ->
        view req st = (inl (ValidationError "No data provided"), st)
        /\ dispatch W (view req) st = (validation_error "No data provided", st)).

(** The errors pydantic reports for a schema are its offences, all of
    them. *)
Definition enumerates_offences (schema : list Models.field) : Prop :=
  forall d, offences schema d <> [] ->
    Models.model_dict W schema d
    = inl (PydanticValidationError (offences schema d)).

(** A field of a partial schema: absent it is [None], and [None] given
    for it stays [None]. *)
Definition partial_field (f : Models.field) : Prop :=
  Models.f_default f = VNone
  /\ forall values, Models.validate_field W f values VNone = Valid VNone.

(** [.eq("id", company_id)], the rows an update or a delete aims at. *)
Definition update_filter (company_id : string) : list condition :=
  [Eq "id" (VStr company_id)].

(** The rows of [os_construction] a request to [GET /api/companies]
    selects. *)
Definition filtered_companies (req : request) (st : store)
  : list (gmap string value) :=
  List.filter (selected W (q_filters (companies_query req))) (companies st).

(** The [total] entry of a paginated body. *)
Definition total_of (r : response) : option value :=
  match body r with
  | VDict b =>
      match b !! "pagination" with
      | Some (VDict p) => p !! "total"
      | _ => None
      end
  | _ => None
  end.

End Vocabulary.

(** ** Issuing tokens: [generate_token] and [login] *)

(** What issuing a token asks of the world: PyJWT's encoder with the
    configured secret, and the clock, in seconds. *)
Record Issuer := {
  jwt_encode : gmap string value -> string;
  utcnow : Z
}.

(** [Config.JWT_ACCESS_TOKEN_EXPIRES] of [config.py], inherited by every
    configuration class. *)
Definition JWT_ACCESS_TOKEN_EXPIRES : Z := 24 * 60 * 60.

Section Login.
Context (J : Issuer).

(** [generate_token(user_id, username, expiration)], [expiration] in
    hours.  The two instants of the payload are held in seconds, as
    PyJWT writes them into the token. *)
Definition generate_token (user_id username : value) (expiration : Z) : string :=
  jwt_encode J {[ "exp" := VInt (utcnow J + expiration * 3600);
                  "iat" := VInt (utcnow J);
                  "sub" := user_id;
                  "username" := username ]}.

(** [data.get(key)]: [None] for a key a dict does not have; an
    [AttributeError] when [data] is no dict. *)
Definition dict_get (data : value) (key : string) : exn + value :=
  match data with
  | VDict d => inr (default VNone (d !! key))
  | _ => inl (PyException "AttributeError: object has no attribute 'get'")
  end.

(** [POST /api/auth/login] *)
Definition login (req : request) : M response :=
  try_except
    (let* data := lift_exn (read_json req) in
     raise_if (negb (truthy data)) (ValidationError "No data provided");;
     let* username := lift_exn (dict_get data "username") in
     let* password := lift_exn (dict_get data "password") in
     raise_if (negb (truthy username) || negb (truthy password))
       (ValidationError "Username and password are required");;
     if eq_str username "admin" && eq_str password "password" then
       let token := generate_token (VStr "admin-user-id") username 24 in
       ret {| body := jsonify
                {[ "token" := VStr token;
                   "expires_in" := VInt JWT_ACCESS_TOKEN_EXPIRES;
                   "user" := VDict {[ "id" := VStr "admin-user-id";
                                      "username" := username ]} ]};
              status := 200 |}
     else raise (AuthenticationError "Invalid credentials"))
    (fun e =>
       match e with
       | ValidationError _ | AuthenticationError _ => raise e
       | _ => raise (AuthenticationError "Authentication failed")
       end).

End Login.

(** A sample issuer, whose tokens the sample decoder reads. *)
Definition sample_issuer : Issuer :=
  {| jwt_encode := fun payload =>
       match payload !! "sub" with
       | Some (VStr "admin-user-id") => "admin-token"
       | _ => "user-token"
       end;
     utcnow := 1714564800 |}.

(** Sample payloads, with what the sample validators make of them. *)
Module Cases.

Definition stone : gmap string value :=
  {[ "company_name" := VStr "Stone Works";
     "company_address" := VStr "2 Quarry Road";
     "company_email" := VStr "info@stone.example";
     "company_phone" := VStr "555-0199";
     "id" := VStr "chosen-by-client";
     "created_at" := VStr "1999-01-01" ]}.

Definition stone_validated : gmap string value :=
  {[ "company_name" := VStr "Stone Works";
     "company_address" := VStr "2 Quarry Road";
     "company_email" := VStr "info@stone.example";
     "company_phone" := VStr "555-0199";
     "website" := VNone; "description" := VNone; "founded_year" := VNone;
     "is_verified" := VBool false ]}.

Definition roof : gmap string value :=
  {[ "service_name" := VStr "Roof repair"; "company_id" := VStr "c2" ]}.

Definition roof_validated : gmap string value :=
  {[ "service_name" := VStr "Roof repair"; "description" := VNone;
     "is_free" := VBool true; "eligibility_criteria" := VNone ]}.

Definition rename : gmap string value :=
  {[ "id" := VStr "c9"; "created_at" := VStr "never";
     "company_name" := VStr "Acme Rebuilt" ]}.

Definition renamed : gmap string value :=
  <["company_name" := VStr "Acme Rebuilt"]>
    (<["updated_at" := VStr "2024-05-01T12:00:00"]>
       (Sample.company "c1" "Acme Builders" true)).

(** A store whose rows are within the constraints of the schemas. *)
Definition yard : store :=
  {| companies :=
       [ {[ "id" := VStr "y1"; "company_name" := VStr "Stone Works";
            "company_phone" := VStr "555-0199"; "founded_year" := VInt 1990;
            "is_verified" := VBool false ]} ];
     services := [];
     projects :=
       [ {[ "id" := VStr "p1"; "company_id" := VStr "y1";
            "project_name" := VStr "Wall"; "status" := VStr "planned";
            "start_date" := VStr "2024-03-01"; "end_date" := VNone ]} ];
     employees := [] |}.

Definition school : gmap string value :=
  {[ "project_name" := VStr "School"; "location" := VStr "Hill";
     "start_date" := VStr "2024-03-01"; "end_date" := VStr "2024-09-30" ]}.

Definition backwards : gmap string value :=
  {[ "project_name" := VStr "School"; "location" := VStr "Hill";
     "start_date" := VStr "2024-05-01"; "end_date" := VStr "2024-04-01" ]}.

(** A request with a bearer token and a body. *)
Definition signed (token : string) (payload : value) : request :=
  {| headers := {[ "Authorization" := "Bearer " +:+ token ]}; args := ∅;
     json := inr payload; user_id := None; username := None |}.

(** Two companies with services of their own. *)
Definition depot : store :=
  {| companies := [ {[ "id" := VStr "y1"; "company_name" := VStr "Stone Works" ]};
                    {[ "id" := VStr "y2"; "company_name" := VStr "Brick and Co" ]} ];
     services := [ {[ "id" := VStr "s1"; "company_id" := VStr "y1";
                      "service_name" := VStr "Roof repair" ]};
                   {[ "id" := VStr "s2"; "company_id" := VStr "y2";
                      "service_name" := VStr "Masonry" ]};
                   {[ "id" := VStr "s3"; "company_id" := VStr "y2";
                      "service_name" := VStr "Paving" ]} ];
     projects := [];
     employees := [] |}.

End Cases.

(** ** Vocabulary of the further properties *)

Section FurtherVocabulary.
Context (W : World).

(** [c] occurs in [s]. *)
Fixpoint has_char (c : ascii) (s : string) : bool :=
  match s with
  | EmptyString => false
  | String a s' => Ascii.eqb a c || has_char c s'
  end.

(** [W] with another decoder. *)
Definition with_decoder (decode : string -> jwt_result) : World :=
  {| str_validator := str_validator W;
     int_validator := int_validator W;
     bool_validator := bool_validator W;
     email_validator := email_validator W;
     date_validator := date_validator W;
     msg_missing := msg_missing W;
     msg_none_not_allowed := msg_none_not_allowed W;
     msg_min_length := msg_min_length W;
     msg_max_length := msg_max_length W;
     pydantic_str := pydantic_str W;
     kwargs_type_error := kwargs_type_error W;
     py_int := py_int W;
     jwt_decode := decode;
     ADMIN_USER_IDS := ADMIN_USER_IDS W;
     utcnow_isoformat := utcnow_isoformat W;
     current_year := current_year W;
     ilike := ilike W;
     uuid_generate := uuid_generate W |}.

(** The answer of [handle_generic_exception]. *)
Definition internal_server_error : response :=
  {| body := jsonify (envelope "Internal Server Error" "An unexpected error occurred");
     status := 500 |}.

(** The [KeyError] of [payload[key]]. *)
Definition key_error (key : string) : exn :=
  PyException ("KeyError: '" +:+ key +:+ "'").

(** A computation that leaves the store as it finds it. *)
Definition read_only {A} (m : M A) : Prop :=
  forall st, snd (m st) = st.

(** A view that changes the store only when it answers 200 or 201. *)
Definition writes_only_on_success (m : M response) : Prop :=
  forall st x st',
    m st = (x, st') ->
    st' = st \/ exists r, x = inr r /\ (status r = 200 \/ status r = 201).

(** The names of the fields of a schema. *)
Definition field_names (fields : list Models.field) : list string :=
  Models.f_name <$> fields.

(** The row [create_company] stores for a validated payload. *)
Definition created_company (st : store) (values : gmap string value)
  : gmap string value :=
  with_id W os_construction st (stamp W values).

(** The row a child view stores under [company_id]. *)
Definition created_child (t : table) (company_id : string) (st : store)
    (values : gmap string value) : gmap string value :=
  with_id W t st (stamp W (<["company_id" := VStr company_id]> values)).

(** [r] references the company [company_id]. *)
Definition child_of (company_id : string) (r : gmap string value) : bool :=
  match r !! "company_id" with
  | Some v => eq_scalar v (VStr company_id)
  | None => false
  end.

(** The six routes that write. *)
Definition mutating_routes (company_id : string) : list (request -> M response) :=
  [ route_create_company W;
    route_update_company W company_id;
    route_delete_company W company_id;
    route_add_company_service W company_id;
    route_add_company_project W company_id;
    route_add_company_employee W company_id ].

(** A date column as it is sent to the store: a date as its ISO text,
    [None] as it is. *)
Definition iso_column (key : string) (db_data : gmap string value)
  : gmap string value :=
  match db_data !! key with
  | Some (VDate d) => <[key := VStr (isoformat d)]> db_data
  | _ => db_data
  end.

(** The row [add_company_project] stores under [company_id]. *)
Definition created_project (company_id : string) (st : store)
    (values : gmap string value) : gmap string value :=
  with_id W os_construction_projects st
    (stamp W (iso_column "end_date"
                (iso_column "start_date"
                   (<["company_id" := VStr company_id]> values)))).

(** A date column holds a date or [None]. *)
Definition date_or_none (v : value) : Prop :=
  v = VNone \/ exists d, v = VDate d.

End FurtherVocabulary.

(** ** Vocabulary of the invariants *)

Section InvariantVocabulary.
Context (W : World).

(** The row holds [k], with a value that satisfies [P]. *)
Definition holds (k : string) (P : value -> Prop) (r : gmap string value) : Prop :=
  exists v, r !! k = Some v /\ P v.

(** A string of [lo] to [hi] characters, as [len] counts them. *)
Definition within (lo hi : nat) (v : value) : Prop :=
  exists s, v = VStr s /\ (lo <= len s <= hi)%nat.

Definition founded_year_ok (v : value) : Prop :=
  v = VNone \/ exists n, v = VInt n /\ 1800 <= n <= current_year W.

Definition is_bool (v : value) : Prop := exists b, v = VBool b.

Definition status_ok (v : value) : Prop :=
  in_str_list v Models.valid_statuses = true.

(** A date as the store holds it: its ISO text; [None] as it is. *)
Definition iso_date (v : value) : value :=
  match v with
  | VDate d => VStr (isoformat d)
  | _ => v
  end.

(** The column holds the ISO text of a date, or [None]. *)
Definition iso_or_none (v : value) : Prop :=
  exists x, date_or_none x /\ v = iso_date x.

Definition company_constraints (r : gmap string value) : Prop :=
  holds "company_name" (within 1 255) r
  /\ holds "company_phone" (within 5 50) r
  /\ holds "founded_year" founded_year_ok r
  /\ holds "is_verified" is_bool r.

Definition service_constraints (r : gmap string value) : Prop :=
  holds "service_name" (within 1 255) r /\ holds "is_free" is_bool r.

Definition project_constraints (r : gmap string value) : Prop :=
  holds "project_name" (within 1 255) r
  /\ holds "status" status_ok r
  /\ exists s e,
       date_or_none s /\ date_or_none e
       /\ r !! "start_date" = Some (iso_date s)
       /\ r !! "end_date" = Some (iso_date e)
       /\ Models.date_lt e s = false.

Definition employee_constraints (r : gmap string value) : Prop :=
  holds "full_name" (within 1 255) r
  /\ holds "position" (within 1 100) r
  /\ holds "join_date" iso_or_none r.

(** The constraints of the schemas, on every row of the store. *)
Definition constrained (st : store) : Prop :=
  Forall company_constraints (companies st)
  /\ Forall service_constraints (services st)
  /\ Forall project_constraints (projects st)
  /\ Forall employee_constraints (employees st).

(** Every service, project and employee references a company of the
    store. *)
Definition references_a_company (st : store) (r : gmap string value) : Prop :=
  exists company_id,
    r !! "company_id" = Some (VStr company_id) /\ company_exists company_id st.

Definition referential_integrity (st : store) : Prop :=
  Forall (references_a_company st) (services st)
  /\ Forall (references_a_company st) (projects st)
  /\ Forall (references_a_company st) (employees st).

(** The row [add_company_employee] stores under [company_id]. *)
Definition created_employee (company_id : string) (st : store)
    (values : gmap string value) : gmap string value :=
  with_id W os_construction_employees st
    (stamp W (iso_column "join_date"
                (<["company_id" := VStr company_id]> values))).

(** How a field came to its value in a model that validates: by its
    default, as a [None] that is allowed, or through the validators of
    its type; the class validator has the last word in the last two. *)
Definition field_value (f : Models.field) (d vals : gmap string value)
    (x : value) : Prop :=
  (d !! Models.f_name f = None /\ Models.f_required f = false
   /\ x = Models.f_default f)
  \/ (d !! Models.f_name f = Some VNone /\ Models.f_allow_none f = true
      /\ Models.apply_post f vals VNone = Valid x)
  \/ (exists v v', d !! Models.f_name f = Some v /\ v <> VNone
                   /\ Models.f_validators f v = Valid v'
                   /\ Models.apply_post f vals v' = Valid x).

(** Every request to the view leaves a store with [P] a store with [P]. *)
Definition preserved (P : store -> Prop) (view : request -> M response) : Prop :=
  forall req st, P st -> P (snd (view req st)).

End InvariantVocabulary.

(** ** Vocabulary of the listings *)

Section ListingVocabulary.
Context (W : World).

(** The [data] entry of a paginated body. *)
Definition data_of (r : response) : option value :=
  match body r with
  | VDict b => b !! "data"
  | _ => None
  end.

(** The rows of [t] that reference the company. *)
Definition rows_of (company_id : string) (t : table) (st : store)
  : list (gmap string value) :=
  List.filter (selected W [Eq "company_id" (VStr company_id)]) (rows t st).

(** The three views that list the children of a company, each with its
    table. *)
Definition child_listings (company_id : string)
  : list (table * (request -> M response)) :=
  [ (os_construction_services, get_company_services W company_id);
    (os_construction_projects, get_company_projects W company_id);
    (os_construction_employees, get_company_employees W company_id) ].

(** A page of the rows of one company: what a child listing answers
    with. *)
Definition page_of (company_id : string) (t : table) (st : store)
    (per_page : Z) (r : response) : Prop :=
  status r = 200
  /\ exists rows,
       data_of r = Some (VList (VDict <$> rows))
       /\ (length rows <= Z.to_nat per_page)%nat
       /\ forall row, row ∈ rows -> row ∈ rows_of company_id t st.

(** The filters [get_company_projects] builds for a request. *)
Definition project_filters (company_id : string) (req : request)
  : list condition :=
  match args req !! "status" with
  | Some status =>
      if truthy (VStr status)
      then [Eq "company_id" (VStr company_id); Eq "status" (VStr status)]
      else [Eq "company_id" (VStr company_id)]
  | None => [Eq "company_id" (VStr company_id)]
  end.

End ListingVocabulary.

(** * Properties *)

(** ** Pagination *)

Lemma floordiv_pos (a b : Z) : 0 < b -> floordiv a b = inr (a / b).
Proof.
  intros Hb. unfold floordiv.
  destruct (Z.eqb_spec b 0) as [-> | _]; [lia | reflexivity].
Qed.

(** The quotient the code computes is the ceiling of [total / per_page]:
    the least [n] with [total <= n * per_page]. *)
Lemma ceiling_bounds (total per_page : Z) :
  0 < per_page ->
  let n := (total + per_page - 1) / per_page in
  (n - 1) * per_page < total <= n * per_page.
Proof.
  intros Hp n.
  pose proof (Z.div_mod (total + per_page - 1) per_page ltac:(lia)) as Hdm.
  pose proof (Z.mod_pos_bound (total + per_page - 1) per_page Hp) as Hm.
  fold n in Hdm. nia.
Qed.

Lemma pages_value (per_page total : Z) :
  0 <= total -> 0 < per_page ->
  pages per_page total
  = inr (if 0 <? total then (total + per_page - 1) / per_page else 0).
Proof.
  intros Ht Hp. unfold pages.
  destruct (0 <? total); [apply floordiv_pos; assumption | reflexivity].
Qed.

(** C6.  For [total >= 0] and [per_page] in [1..100] the envelope built
    by [format_paginated_response] reports [pages = ceil(total /
    per_page)], that is the [n] with [(n-1) * per_page < total <= n *
    per_page]; [pages = 0] when [total = 0]; and [total = 25],
    [per_page = 10] give [pages = 3]. *)
Theorem format_paginated_response_pages
    (rows : list (gmap string value)) (page per_page total : Z) :
  0 <= total -> 1 <= per_page <= 100 ->
  exists n,
    format_paginated_response rows page per_page total
    = inr {[ "data" := VList (VDict <$> rows);
             "pagination" := VDict {[ "page" := VInt page;
                                      "per_page" := VInt per_page;
                                      "total" := VInt total;
                                      "pages" := VInt n ]} ]}
    /\ (n - 1) * per_page < total <= n * per_page
    /\ (total = 0 -> n = 0)
    /\ (total = 25 -> per_page = 10 -> n = 3).
Proof.
  intros Ht Hp.
  exists (if 0 <? total then (total + per_page - 1) / per_page else 0).
  unfold format_paginated_response.
  rewrite pages_value by lia.
  split; [reflexivity |].
  destruct (Z.ltb_spec 0 total) as [Hpos | Hzero].
  - pose proof (ceiling_bounds total per_page ltac:(lia)) as Hc. cbv zeta in Hc.
    split; [exact Hc |]. split; [lia |].
    intros -> ->. reflexivity.
  - assert (total = 0) as -> by lia.
    split; [lia |]. split; [reflexivity | discriminate].
Qed.

Lemma format_paginated_response_pages_witness :
  0 <= 25 /\ 1 <= 10 <= 100 /\
  exists n,
    format_paginated_response [] 1 10 25
    = inr {[ "data" := VList [];
             "pagination" := VDict {[ "page" := VInt 1;
                                      "per_page" := VInt 10;
                                      "total" := VInt 25;
                                      "pages" := VInt n ]} ]}
    /\ n = 3.
Proof.
  split; [lia |]. split; [lia |].
  destruct (format_paginated_response_pages [] 1 10 25 ltac:(lia) ltac:(lia))
    as (n & Heq & _ & _ & H25).
  exists n. split; [exact Heq | apply H25; reflexivity].
Defined.

Lemma int_arg_none (W : World) (req : request) (name : string) (d : Z) :
  int_arg W req name d = None
  <-> exists s, args req !! name = Some s /\ py_int W s = None.
Proof.
  unfold int_arg. destruct (args req !! name) as [s |].
  - split; [intros H; exists s; auto | intros (s' & [= <-] & H); exact H].
  - split; [discriminate | intros (s' & [=] & _)].
Qed.

(** Whatever [get_pagination_params] returns has been clamped. *)
Lemma get_pagination_params_range (W : World) (req : request) (page per_page : Z) :
  get_pagination_params W req = inr (page, per_page) ->
  1 <= page /\ 1 <= per_page <= 100.
Proof.
  unfold get_pagination_params.
  destruct (int_arg W req "page" 1) as [p |]; [| discriminate].
  destruct (int_arg W req "per_page" 10) as [pp |]; [| discriminate].
  intros [= <- <-]. lia.
Qed.

(** C7, as the code has it.  [get_pagination_params] fails with
    [ValidationError] exactly when [page] or [per_page] is supplied and
    Python's [int()] refuses its text, whatever [int()] is.  A value
    [int()] reads is never refused: [page] below 1 is replaced by 1,
    and [per_page] is brought into [1..100].  A parameter that is not
    supplied counts as 1 for [page] and 10 for [per_page]. *)
Theorem get_pagination_params_clamps (W : World) (req : request) :
  (get_pagination_params W req
   = inl (ValidationError "Invalid pagination parameters")
   <-> (exists s, args req !! "page" = Some s /\ py_int W s = None)
       \/ (exists s, args req !! "per_page" = Some s /\ py_int W s = None))
  /\ (forall p pp,
        int_arg W req "page" 1 = Some p -> int_arg W req "per_page" 10 = Some pp ->
        get_pagination_params W req = inr (Z.max 1 p, Z.max 1 (Z.min 100 pp))
        /\ (p <= 0 -> Z.max 1 p = 1)
        /\ (pp <= 0 -> Z.max 1 (Z.min 100 pp) = 1)
        /\ (100 <= pp -> Z.max 1 (Z.min 100 pp) = 100))
  /\ (forall e, get_pagination_params W req = inl e ->
                e = ValidationError "Invalid pagination parameters")
  /\ (args req !! "page" = None -> int_arg W req "page" 1 = Some 1)
  /\ (args req !! "per_page" = None -> int_arg W req "per_page" 10 = Some 10)
  /\ (forall s, args req !! "page" = Some s ->
                int_arg W req "page" 1 = py_int W s)
  /\ (forall s, args req !! "per_page" = Some s ->
                int_arg W req "per_page" 10 = py_int W s).
Proof.
  split; [| split; [| split; [| split; [| split; [| split]]]]].
  - rewrite <- (int_arg_none W req "page" 1), <- (int_arg_none W req "per_page" 10).
    unfold get_pagination_params.
    destruct (int_arg W req "page" 1) as [p |];
      destruct (int_arg W req "per_page" 10) as [pp |];
      split; intros H; try discriminate H; try reflexivity;
      try (left; reflexivity); try (right; reflexivity).
    destruct H as [H | H]; discriminate H.
  - intros p pp Hp Hpp. unfold get_pagination_params. rewrite Hp, Hpp.
    repeat split; lia.
  - intros e. unfold get_pagination_params.
    destruct (int_arg W req "page" 1) as [p |]; [| intros [= <-]; reflexivity].
    destruct (int_arg W req "per_page" 10) as [pp |];
      [discriminate | intros [= <-]; reflexivity].
  - intros H. unfold int_arg. rewrite H. reflexivity.
  - intros H. unfold int_arg. rewrite H. reflexivity.
  - intros s H. unfold int_arg. rewrite H. reflexivity.
  - intros s H. unfold int_arg. rewrite H. reflexivity.
Qed.

Lemma get_pagination_params_clamps_witness :
  let W := Sample.world None in
  get_pagination_params W (Sample.get {[ "page" := "-3"; "per_page" := "500" ]})
  = inr (1, 100).
Proof.
  intros W.
  destruct (get_pagination_params_clamps W
              (Sample.get {[ "page" := "-3"; "per_page" := "500" ]}))
    as (_ & H & _).
  destruct (H (-3) 500 eq_refl eq_refl) as [Heq _].
  exact Heq.
Defined.

(** C7, as the specification words it, fails: [page=0] is numeric and not
    positive, and the call returns page 1 instead of raising. *)
Lemma get_pagination_params_page_zero :
  let W := Sample.world None in
  int_arg W (Sample.get {[ "page" := "0" ]}) "page" 1 = Some 0
  /\ get_pagination_params W (Sample.get {[ "page" := "0" ]}) = inr (1, 10)
  /\ ~ (exists msg, get_pagination_params W (Sample.get {[ "page" := "0" ]})
                    = inl (ValidationError msg)).
Proof.
  intros W. split; [reflexivity |]. split; [reflexivity |].
  intros [msg H]. discriminate H.
Qed.

(** ** The authorization gate *)

Section Gate.
Context (W : World).

Lemma no_token_some (t : string) : t <> "" -> no_token (Some t) = false.
Proof.
  intros Ht. simpl. destruct (String.eqb_spec t ""); congruence.
Qed.

Lemma token_required_missing (f : request -> M response) (req : request) (st : store) :
  without_token req -> token_required W f req st = (inr token_missing, st).
Proof.
  intros (token & Hb & Hn). unfold token_required, bind, lift_exn.
  rewrite Hb. unfold ret at 1. rewrite Hn. reflexivity.
Qed.

Lemma token_required_expired (f : request -> M response) (req : request)
    (t : string) (st : store) :
  with_token req t -> jwt_decode W t = ExpiredSignatureError ->
  token_required W f req st
  = (inr (authentication_failed "Token expired. Please log in again."), st).
Proof.
  intros [Hb Ht] Hd. unfold token_required, bind, lift_exn.
  rewrite Hb. unfold ret at 1. rewrite (no_token_some t Ht).
  unfold decode_token. change (default "" (Some t)) with t. rewrite Hd. reflexivity.
Qed.

Lemma token_required_invalid (f : request -> M response) (req : request)
    (t : string) (st : store) :
  with_token req t -> jwt_decode W t = InvalidTokenError ->
  token_required W f req st
  = (inr (authentication_failed "Invalid token. Please log in again."), st).
Proof.
  intros [Hb Ht] Hd. unfold token_required, bind, lift_exn.
  rewrite Hb. unfold ret at 1. rewrite (no_token_some t Ht).
  unfold decode_token. change (default "" (Some t)) with t. rewrite Hd. reflexivity.
Qed.

(** A verified token with a subject and a user name lets the request
    through, with both attached to it. *)
Lemma token_required_verified (f : request -> M response) (req : request)
    (t : string) (payload : gmap string value) (sub name : value) (st : store) :
  with_token req t -> jwt_decode W t = Decoded payload ->
  payload !! "sub" = Some sub -> payload !! "username" = Some name ->
  token_required W f req st = f (set_user req sub name) st.
Proof.
  intros [Hb Ht] Hd Hsub Hname. unfold token_required, bind, lift_exn.
  rewrite Hb. unfold ret at 1. rewrite (no_token_some t Ht).
  unfold decode_token. change (default "" (Some t)) with t. rewrite Hd.
  unfold getitem. rewrite Hsub, Hname. reflexivity.
Qed.

Lemma eq_str_true (v : value) (s : string) : eq_str v s = true <-> v = VStr s.
Proof.
  destruct v; simpl; try (split; [discriminate | intros [=]]).
  rewrite String.eqb_eq. split; [intros -> | intros [=]]; congruence.
Qed.

Lemma in_str_list_true (v : value) (l : list string) :
  in_str_list v l = true <-> exists s, v = VStr s /\ s ∈ l.
Proof.
  unfold in_str_list. rewrite existsb_exists. split.
  - intros (s & Hin & Heq). exists s. apply eq_str_true in Heq.
    split; [exact Heq | apply list_elem_of_In; exact Hin].
  - intros (s & -> & Hin). exists s.
    split; [apply list_elem_of_In; exact Hin | apply eq_str_true; reflexivity].
Qed.

Lemma is_admin_true (req : request) : is_admin W req = true <-> on_allow_list W req.
Proof.
  unfold is_admin, on_allow_list, admin_user_ids.
  destruct (user_id req) as [uid |].
  - rewrite in_str_list_true. split.
    + intros (s & -> & Hin). exists s. auto.
    + intros (s & [= ->] & Hin). exists s. auto.
  - split; [discriminate | intros (s & [=] & _)].
Qed.

Lemma admin_required_admits (f : request -> M response) (req : request) :
  on_allow_list W req -> admin_required W f req = f req.
Proof.
  intros H. apply is_admin_true in H. unfold admin_required. rewrite H. reflexivity.
Qed.

Lemma admin_required_rejects (f : request -> M response) (req : request) :
  ~ on_allow_list W req -> admin_required W f req = ret forbidden.
Proof.
  intros H. unfold admin_required.
  destruct (is_admin W req) eqn:Ha; [| reflexivity].
  apply is_admin_true in Ha. contradiction.
Qed.

Lemma admin_user_ids_unset :
  ADMIN_USER_IDS W = None \/ ADMIN_USER_IDS W = Some "" ->
  admin_user_ids W = [""].
Proof.
  unfold admin_user_ids. intros [-> | ->]; reflexivity.
Qed.

End Gate.

(** C4.  On the admin-only route [DELETE /api/companies/<id>]: a request
    without a bearer token is answered 401; a request whose token has
    expired is answered 401 with the message [Token expired. Please log
    in again.]; a request whose token verifies and whose subject is not
    on the allow-list is answered 403, the authorization failure.  The
    store is not touched in any of the three. *)
Theorem admin_route_401_403 (W : World) (company_id : string) (req : request)
    (st : store) :
  (without_token req ->
   dispatch W (route_delete_company W company_id req) st = (token_missing, st))
  /\ (forall t, with_token req t -> jwt_decode W t = ExpiredSignatureError ->
      dispatch W (route_delete_company W company_id req) st
      = (authentication_failed "Token expired. Please log in again.", st))
  /\ (forall t payload sub name,
      with_token req t -> jwt_decode W t = Decoded payload ->
      payload !! "sub" = Some sub -> payload !! "username" = Some name ->
      in_str_list sub (admin_user_ids W) = false ->
      dispatch W (route_delete_company W company_id req) st = (forbidden, st))
  /\ status token_missing = 401
  /\ (forall msg, status (authentication_failed msg) = 401)
  /\ status forbidden = 403.
Proof.
  unfold dispatch, route_delete_company. repeat split.
  - intros H. rewrite (token_required_missing W _ req st H). reflexivity.
  - intros t Ht Hd. rewrite (token_required_expired W _ req t st Ht Hd). reflexivity.
  - intros t payload sub name Ht Hd Hsub Hname Hadm.
    rewrite (token_required_verified W _ req t payload sub name st Ht Hd Hsub Hname).
    unfold admin_required.
    change (is_admin W (set_user req sub name))
      with (in_str_list sub (admin_user_ids W)).
    rewrite Hadm. reflexivity.
Qed.

Lemma admin_route_401_403_witness :
  let W := Sample.world (Some "admin-user-id,root") in
  dispatch W (route_delete_company W "c1" (Sample.get ∅)) Sample.two_companies
  = (token_missing, Sample.two_companies)
  /\ dispatch W (route_delete_company W "c1" (Sample.with_header "Bearer old-token"))
       Sample.two_companies
     = (authentication_failed "Token expired. Please log in again.",
        Sample.two_companies)
  /\ dispatch W (route_delete_company W "c1" (Sample.with_header "Bearer user-token"))
       Sample.two_companies
     = (forbidden, Sample.two_companies).
Proof.
  intros W. split; [| split].
  - apply (admin_route_401_403 W "c1" (Sample.get ∅) Sample.two_companies).
    exists None. split; reflexivity.
  - apply (admin_route_401_403 W "c1" (Sample.with_header "Bearer old-token")
             Sample.two_companies) with (t := "old-token").
    + split; [reflexivity | discriminate].
    + reflexivity.
  - apply (admin_route_401_403 W "c1" (Sample.with_header "Bearer user-token")
             Sample.two_companies)
      with (t := "user-token") (payload := Sample.token_payload "user-1" "bob")
           (sub := VStr "user-1") (name := VStr "bob").
    + split; [reflexivity | discriminate].
    + reflexivity.
    + reflexivity.
    + reflexivity.
    + reflexivity.
Defined.

(** C9.  [admin_required] lets a request through exactly when
    [request.user_id] is an element of [ADMIN_USER_IDS] split on commas,
    and answers 403 otherwise.  When the variable is unset or empty the
    list is [['']], and a token that verifies with the empty string as
    its subject reaches the admin-only view. *)
Theorem admin_required_allow_list (W : World) :
  (forall f req, on_allow_list W req -> admin_required W f req = f req)
  /\ (forall f req, ~ on_allow_list W req -> admin_required W f req = ret forbidden)
  /\ (ADMIN_USER_IDS W = None \/ ADMIN_USER_IDS W = Some "" ->
      admin_user_ids W = [""]
      /\ forall company_id req t payload name st,
           with_token req t -> jwt_decode W t = Decoded payload ->
           payload !! "sub" = Some (VStr "") ->
           payload !! "username" = Some name ->
           route_delete_company W company_id req st
           = delete_company W company_id (set_user req (VStr "") name) st).
Proof.
  split; [| split].
  - intros f req. apply admin_required_admits.
  - intros f req. apply admin_required_rejects.
  - intros Hunset. pose proof (admin_user_ids_unset W Hunset) as Hids.
    split; [exact Hids |].
    intros company_id req t payload name st Ht Hd Hsub Hname.
    unfold route_delete_company.
    rewrite (token_required_verified W _ req t payload _ name st Ht Hd Hsub Hname).
    rewrite admin_required_admits; [reflexivity |].
    exists "". split; [reflexivity |].
    fold (admin_user_ids W). rewrite Hids. apply list_elem_of_here.
Qed.

Lemma admin_required_allow_list_witness :
  let W := Sample.world None in
  let req := Sample.with_header "Bearer blank-token" in
  admin_user_ids W = [""]
  /\ route_delete_company W "c1" req Sample.two_companies
     = delete_company W "c1" (set_user req (VStr "") (VStr "nobody"))
         Sample.two_companies
  /\ status (fst (dispatch W (route_delete_company W "c1" req) Sample.two_companies))
     = 200.
Proof.
  intros W req.
  destruct (admin_required_allow_list W) as (_ & _ & H).
  destruct (H (or_introl eq_refl)) as [Hids Hroute].
  split; [exact Hids |]. split.
  - apply (Hroute "c1" req "blank-token" (Sample.token_payload "" "nobody")).
    + split; [reflexivity | discriminate].
    + reflexivity.
    + reflexivity.
    + reflexivity.
  - vm_compute. reflexivity.
Defined.

(** ** Steps of a view *)

Section Steps.
Context {A B : Type}.

Lemma bind_inr (m : M A) (k : A -> M B) (st st' : store) (a : A) :
  m st = (inr a, st') -> bind m k st = k a st'.
Proof. intros H. unfold bind. rewrite H. reflexivity. Qed.

Lemma bind_inl (m : M A) (k : A -> M B) (st st' : store) (e : exn) :
  m st = (inl e, st') -> bind m k st = (inl e, st').
Proof. intros H. unfold bind. rewrite H. reflexivity. Qed.

Lemma try_except_inr (m : M A) (h : exn -> M A) (st st' : store) (a : A) :
  m st = (inr a, st') -> try_except m h st = (inr a, st').
Proof. intros H. unfold try_except. rewrite H. reflexivity. Qed.

Lemma try_except_inl (m : M A) (h : exn -> M A) (st st' : store) (e : exn) :
  m st = (inl e, st') -> try_except m h st = h e st'.
Proof. intros H. unfold try_except. rewrite H. reflexivity. Qed.

End Steps.

Section Views.
Context (W : World).

Lemma eq_scalar_str (w : value) (s : string) :
  eq_scalar w (VStr s) = true <-> w = VStr s.
Proof.
  destruct w; simpl; try (split; [discriminate | intros [=]]).
  rewrite String.eqb_eq. split; [intros -> | intros [=]]; congruence.
Qed.

Lemma selected_id (company_id : string) (r : gmap string value) :
  selected W [Eq "id" (VStr company_id)] r = true
  <-> r !! "id" = Some (VStr company_id).
Proof.
  unfold selected. simpl. rewrite andb_true_r.
  destruct (r !! "id") as [w |].
  - rewrite eq_scalar_str. split; congruence.
  - split; discriminate.
Qed.

Lemma company_rows_nil (company_id : string) (st : store) :
  company_rows W company_id st = [] <-> ~ company_exists company_id st.
Proof.
  unfold company_rows, company_exists. split.
  - intros Hnil (r & Hin & Hid).
    assert (In r (List.filter (selected W [Eq "id" (VStr company_id)]) (companies st)))
      as Hr.
    { apply filter_In. split; [apply list_elem_of_In; exact Hin |].
      apply selected_id. exact Hid. }
    rewrite Hnil in Hr. destruct Hr.
  - intros Hno.
    destruct (List.filter _ _) as [| r l] eqn:Hf; [reflexivity |].
    exfalso. apply Hno. exists r.
    assert (In r (r :: l)) as Hr by (left; reflexivity).
    rewrite <- Hf in Hr. apply filter_In in Hr. destruct Hr as [Hin Hsel].
    split; [apply list_elem_of_In; exact Hin | apply selected_id; exact Hsel].
Qed.

Lemma check_company_rows (company_id : string) (st : store) :
  check_company W company_id st
  = match company_rows W company_id st with
    | [] => (inl (not_found company_id), st)
    | _ :: _ => (inr tt, st)
    end.
Proof.
  unfold check_company, bind, run_query, execute. simpl.
  fold (company_rows W company_id st).
  destruct (company_rows W company_id st); reflexivity.
Qed.

Lemma check_company_missing (company_id : string) (st : store) :
  ~ company_exists company_id st ->
  check_company W company_id st = (inl (not_found company_id), st).
Proof.
  intros H. rewrite check_company_rows.
  apply company_rows_nil in H. rewrite H. reflexivity.
Qed.

Lemma check_company_found (company_id : string) (st : store) :
  company_exists company_id st ->
  check_company W company_id st = (inr tt, st).
Proof.
  intros H. rewrite check_company_rows.
  destruct (company_rows W company_id st) eqn:Hr; [| reflexivity].
  apply company_rows_nil in Hr. contradiction.
Qed.

Lemma request_json_raises (req : request) (st : store) (msg : string) :
  json req = inl msg ->
  request_json req st = (inl (PyException msg), st).
Proof.
  intros H. unfold request_json, bind, lift_exn, read_json. rewrite H. reflexivity.
Qed.

Lemma request_json_empty (req : request) (st : store) (data : value) :
  json req = inr data -> truthy data = false ->
  request_json req st = (inl (ValidationError "No data provided"), st).
Proof.
  intros Hj H. unfold request_json, bind, lift_exn, read_json, raise_if.
  rewrite Hj. unfold ret at 1. rewrite H. reflexivity.
Qed.

Lemma request_json_given (req : request) (st : store) (data : value) :
  json req = inr data -> truthy data = true ->
  request_json req st = (inr data, st).
Proof.
  intros Hj H. unfold request_json, bind, lift_exn, read_json, raise_if.
  rewrite Hj. unfold ret at 1. rewrite H. reflexivity.
Qed.

Lemma truthy_dict (d : gmap string value) : d <> ∅ -> truthy (VDict d) = true.
Proof.
  intros H. simpl. rewrite bool_decide_eq_false_2 by exact H. reflexivity.
Qed.

(** What [Model( **data)] can raise on a mapping. *)
Lemma model_dict_cases (fields : list Models.field) (d : gmap string value) :
  (exists values, Models.model_dict W fields d = inr values)
  \/ (exists errors, errors <> []
        /\ Models.model_dict W fields d = inl (PydanticValidationError errors)).
Proof.
  unfold Models.model_dict.
  destruct (Models.validate_model W fields d ∅ []) as [values [| e errors]].
  - left. eauto.
  - right. exists (e :: errors). split; [discriminate | reflexivity].
Qed.

End Views.

(** ** Deleting a company *)

Section Delete.
Context (W : World).

Lemma after_delete_companies (company_id : string) (st : store) :
  companies (after_delete W company_id st)
  = List.filter (fun r => negb (selected W [Eq "id" (VStr company_id)] r))
      (companies st).
Proof. reflexivity. Qed.

Lemma after_delete_gone (company_id : string) (st : store) :
  ~ company_exists company_id (after_delete W company_id st).
Proof.
  intros (r & Hin & Hid). rewrite after_delete_companies in Hin.
  apply list_elem_of_In, filter_In in Hin. destruct Hin as [_ Hsel].
  apply (selected_id W) in Hid. rewrite Hid in Hsel. discriminate.
Qed.

Lemma delete_company_missing (company_id : string) (req : request) (st : store) :
  ~ company_exists company_id st ->
  delete_company W company_id req st = (inl (not_found company_id), st).
Proof.
  intros H. unfold delete_company.
  rewrite (try_except_inl _ _ st st (not_found company_id)); [reflexivity |].
  apply bind_inl. apply check_company_missing. exact H.
Qed.

Lemma delete_company_found (company_id : string) (req : request) (st : store) :
  company_exists company_id st ->
  delete_company W company_id req st
  = (inr (deleted company_id), after_delete W company_id st).
Proof.
  intros H. unfold delete_company.
  apply try_except_inr.
  rewrite (bind_inr _ _ st st tt) by (apply check_company_found; exact H).
  unfold bind, run_delete, after_delete, delete_rows. simpl.
  fold (company_rows W company_id st).
  destruct (company_rows W company_id st) eqn:Hr; [| reflexivity].
  apply company_rows_nil in Hr. contradiction.
Qed.

End Delete.

Lemma route_delete_company_admitted (W : World) (company_id : string)
    (req : request) (st : store) :
  admitted_as_admin W req ->
  exists sub name,
    route_delete_company W company_id req st
    = delete_company W company_id (set_user req sub name) st.
Proof.
  intros (t & payload & sub & name & Ht & Hd & Hsub & Hname & Hadm).
  exists sub, name. unfold route_delete_company.
  rewrite (token_required_verified W _ req t payload sub name st Ht Hd Hsub Hname).
  unfold admin_required.
  change (is_admin W (set_user req sub name))
    with (in_str_list sub (admin_user_ids W)).
  rewrite Hadm. reflexivity.
Qed.

(** C8.  On [DELETE /api/companies/<id>], for a request the gate admits:
    deleting an existing company answers 200 and leaves a store without
    it; the same request on that store raises [ResourceNotFoundError],
    answered 404.  A delete aimed at an absent company always raises
    [ResourceNotFoundError] and leaves the store as it was. *)
Theorem delete_company_twice (W : World) (company_id : string) (req : request)
    (st : store) :
  admitted_as_admin W req ->
  company_exists company_id st ->
  let st' := after_delete W company_id st in
  dispatch W (route_delete_company W company_id req) st = (deleted company_id, st')
  /\ status (deleted company_id) = 200
  /\ dispatch W (route_delete_company W company_id req) st'
     = (error_response W "Not Found" (not_found company_id) 404, st')
  /\ (forall st0, ~ company_exists company_id st0 ->
        delete_company W company_id req st0 = (inl (not_found company_id), st0)).
Proof.
  intros Hadm Hex st'.
  pose proof (after_delete_gone W company_id st) as Hgone. fold st' in Hgone.
  split; [| split; [| split]].
  - destruct (route_delete_company_admitted W company_id req st Hadm)
      as (sub & name & Hroute).
    unfold dispatch. rewrite Hroute.
    rewrite (delete_company_found W company_id _ st Hex). reflexivity.
  - reflexivity.
  - destruct (route_delete_company_admitted W company_id req st' Hadm)
      as (sub & name & Hroute).
    unfold dispatch. rewrite Hroute.
    rewrite (delete_company_missing W company_id _ st' Hgone). reflexivity.
  - intros st0. apply delete_company_missing.
Qed.

Lemma delete_company_twice_witness :
  let W := Sample.world (Some "admin-user-id") in
  let req := Sample.with_header "Bearer admin-token" in
  let st' := after_delete W "c1" Sample.two_companies in
  dispatch W (route_delete_company W "c1" req) Sample.two_companies
  = (deleted "c1", st')
  /\ dispatch W (route_delete_company W "c1" req) st'
     = (error_response W "Not Found" (not_found "c1") 404, st')
  /\ companies st' = [Sample.company "c2" "Brick and Co" false]
  /\ projects st' = [].
Proof.
  intros W req st'.
  assert (admitted_as_admin W req) as Hadm.
  { exists "admin-token", (Sample.token_payload "admin-user-id" "admin"),
      (VStr "admin-user-id"), (VStr "admin").
    repeat split; discriminate. }
  assert (company_exists "c1" Sample.two_companies) as Hex.
  { exists (Sample.company "c1" "Acme Builders" true).
    split; [apply list_elem_of_here | reflexivity]. }
  destruct (delete_company_twice W "c1" req Sample.two_companies Hadm Hex)
    as (H1 & _ & H2 & _).
  split; [exact H1 |]. split; [exact H2 |].
  split; vm_compute; reflexivity.
Defined.

(** ** Creating a child of a company *)

Section ChildPost.
Context (W : World).

(** The part every mutating view starts with: the body, then the
    model built from it. *)
Lemma body_unread {A} (schema : list Models.field) (req : request) (st : store)
    (k : gmap string value -> M A) (msg : string) :
  json req = inl msg ->
  (let* data := request_json req in
   let* model := lift_exn (Models.model_of_json W schema data) in
   k model) st
  = (inl (PyException msg), st).
Proof.
  intros H. apply bind_inl. apply request_json_raises. exact H.
Qed.

Lemma body_empty {A} (schema : list Models.field) (req : request) (st : store)
    (k : gmap string value -> M A) (data : value) :
  json req = inr data -> truthy data = false ->
  (let* data := request_json req in
   let* model := lift_exn (Models.model_of_json W schema data) in
   k model) st
  = (inl (ValidationError "No data provided"), st).
Proof.
  intros Hj H. apply bind_inl. apply (request_json_empty req st data Hj H).
Qed.

Lemma body_not_a_mapping {A} (schema : list Models.field) (req : request)
    (st : store) (k : gmap string value -> M A) (data : value) :
  json req = inr data -> truthy data = true -> (forall d, data <> VDict d) ->
  (let* data := request_json req in
   let* model := lift_exn (Models.model_of_json W schema data) in
   k model) st
  = (inl (PyException (kwargs_type_error W data)), st).
Proof.
  intros Hj H Hd.
  rewrite (bind_inr _ _ st st data) by (apply request_json_given; assumption).
  apply bind_inl. destruct data; try reflexivity. destruct (Hd d eq_refl).
Qed.

Lemma body_invalid {A} (schema : list Models.field) (req : request) (st : store)
    (k : gmap string value -> M A)
    (d : gmap string value) (errors : list (string * string)) :
  json req = inr (VDict d) -> d <> ∅ ->
  Models.model_dict W schema d = inl (PydanticValidationError errors) ->
  (let* data := request_json req in
   let* model := lift_exn (Models.model_of_json W schema data) in
   k model) st
  = (inl (PydanticValidationError errors), st).
Proof.
  intros Hj Hd Hm.
  rewrite (bind_inr _ _ st st (VDict d)).
  - apply bind_inl. simpl. rewrite Hm. reflexivity.
  - apply request_json_given; [exact Hj | apply truthy_dict; exact Hd].
Qed.

(** The three child views go on with the existence check. *)
Lemma child_prefix_missing {A} (schema : list Models.field) (company_id : string)
    (req : request) (st : store) (k : gmap string value -> M A)
    (d values : gmap string value) :
  ~ company_exists company_id st ->
  json req = inr (VDict d) -> d <> ∅ ->
  Models.model_dict W schema d = inr values ->
  (let* data := request_json req in
   let* model := lift_exn (Models.model_of_json W schema data) in
   check_company W company_id;; k model) st
  = (inl (not_found company_id), st).
Proof.
  intros Hno Hj Hd Hm.
  rewrite (bind_inr _ _ st st (VDict d)).
  - rewrite (bind_inr _ _ st st values) by (simpl; rewrite Hm; reflexivity).
    apply bind_inl. apply check_company_missing. exact Hno.
  - apply request_json_given; [exact Hj | apply truthy_dict; exact Hd].
Qed.

(** The two steps every posting view starts with: either they stop the
    view and the store is as it was, or the body is a mapping that
    validates and the view goes on with the validated values. *)
Lemma posted {A} (schema : list Models.field) (req : request) (st : store)
    (k : gmap string value -> M A) :
  let m := (let* data := request_json req in
            let* model := lift_exn (Models.model_of_json W schema data) in
            k model) in
  snd (m st) = st
  \/ exists d values,
       json req = inr (VDict d) /\ d <> ∅
       /\ Models.model_dict W schema d = inr values
       /\ m st = k values st.
Proof.
  intros m. subst m.
  destruct (json req) as [msg | data] eqn:Hj.
  { left. rewrite (body_unread schema req st k msg Hj). reflexivity. }
  destruct (truthy data) eqn:Ht.
  2:{ left. rewrite (body_empty schema req st k data Hj Ht). reflexivity. }
  assert ((exists d, data = VDict d) \/ (forall d, data <> VDict d)) as [[d ->] | Hd].
  { destruct data; try (right; discriminate). left. eauto. }
  2:{ left. rewrite (body_not_a_mapping schema req st k data Hj Ht Hd). reflexivity. }
  assert (d <> ∅) as Hne.
  { intros ->. simpl in Ht. rewrite bool_decide_eq_true_2 in Ht by reflexivity.
    discriminate. }
  destruct (model_dict_cases W schema d) as [[values Hm] | (errors & _ & Hm)].
  2:{ left. rewrite (body_invalid schema req st k d errors Hj Hne Hm). reflexivity. }
  right. exists d, values. split; [reflexivity |]. split; [exact Hne |].
  split; [exact Hm |].
  rewrite (bind_inr _ _ st st (VDict d))
    by (apply request_json_given; [exact Hj | exact Ht]).
  rewrite (bind_inr _ _ st st values) by (simpl; rewrite Hm; reflexivity).
  reflexivity.
Qed.

Ltac child_post :=
  intros company_id req st Hno; split; [| split; [| split; [| split]]];
  [ intros msg Hj;
    erewrite try_except_inl by (apply body_unread; exact Hj);
    reflexivity
  | intros data Hj Hempty;
    erewrite try_except_inl by (eapply body_empty; [exact Hj | exact Hempty]);
    reflexivity
  | intros data Hj Hgiven Hd;
    erewrite try_except_inl
      by (eapply body_not_a_mapping; [exact Hj | exact Hgiven | exact Hd]);
    reflexivity
  | intros d errors Hj Hd Hm;
    erewrite try_except_inl
      by (eapply body_invalid; [exact Hj | exact Hd | exact Hm]);
    reflexivity
  | intros d values Hj Hd Hm;
    erewrite try_except_inl
      by (eapply child_prefix_missing; [exact Hno | exact Hj | exact Hd | exact Hm]);
    reflexivity ].

Lemma add_company_service_order :
  validates_before_lookup W (add_company_service W) (Models.ServiceCreate W)
    "Failed to add service: ".
Proof. unfold validates_before_lookup, add_company_service. child_post. Qed.

Lemma add_company_project_order :
  validates_before_lookup W (add_company_project W) (Models.ProjectCreate W)
    "Failed to add project: ".
Proof. unfold validates_before_lookup, add_company_project. child_post. Qed.

Lemma add_company_employee_order :
  validates_before_lookup W (add_company_employee W) (Models.EmployeeCreate W)
    "Failed to add employee: ".
Proof. unfold validates_before_lookup, add_company_employee. child_post. Qed.

(** The five cases of [validates_before_lookup] are all there is. *)
Lemma ordered_refuses (view : string -> request -> M response)
    (schema : list Models.field) (prefix : string) :
  validates_before_lookup W view schema prefix ->
  refuses_under_absent_company W view.
Proof.
  intros Hv company_id req st Hno.
  destruct (Hv company_id req st Hno) as (Hraise & Hempty & Hother & Hbad & Hgood).
  destruct (json req) as [msg | data] eqn:Hj.
  { eexists. split; [apply (Hraise msg eq_refl) |]. split; [reflexivity |].
    right. right. reflexivity. }
  destruct (truthy data) eqn:Ht.
  2:{ eexists. split; [apply (Hempty data eq_refl Ht) |]. split; [reflexivity |].
      left. reflexivity. }
  assert ((exists d, data = VDict d) \/ (forall d, data <> VDict d)) as [[d ->] | Hd].
  { destruct data; try (right; discriminate). left. eauto. }
  2:{ eexists. split; [apply (Hother data eq_refl Ht Hd) |]. split; [reflexivity |].
      right. right. reflexivity. }
  assert (d <> ∅) as Hne.
  { intros ->. simpl in Ht. rewrite bool_decide_eq_true_2 in Ht by reflexivity.
    discriminate. }
  destruct (model_dict_cases W schema d) as [[values Hm] | (errors & _ & Hm)].
  - eexists. split; [apply (Hgood d values eq_refl Hne Hm) |]. split; [reflexivity |].
    right. left. reflexivity.
  - eexists. split; [apply (Hbad d errors eq_refl Hne Hm) |]. split; [reflexivity |].
    left. reflexivity.
Qed.

End ChildPost.

(** C1, as the code has it.  Under a company id that is not in the
    store, each of the three child POST views reads and validates the
    body before it looks the company up.  A body [request.json] cannot
    deliver, and a body that is neither empty nor a JSON object, end in
    [DatabaseConnectionError] (503); an empty body and an object the
    schema refuses raise [ValidationError] (400); only an object that
    passes validation raises [ResourceNotFoundError] (404).  There is
    no other outcome, and the store is left as it was. *)
Theorem child_post_validates_first (W : World) :
  validates_before_lookup W (add_company_service W) (Models.ServiceCreate W)
    "Failed to add service: "
  /\ validates_before_lookup W (add_company_project W) (Models.ProjectCreate W)
       "Failed to add project: "
  /\ validates_before_lookup W (add_company_employee W) (Models.EmployeeCreate W)
       "Failed to add employee: "
  /\ refuses_under_absent_company W (add_company_service W)
  /\ refuses_under_absent_company W (add_company_project W)
  /\ refuses_under_absent_company W (add_company_employee W)
  /\ (forall company_id,
        status (handle_custom_exception W (not_found company_id)) = 404)
  /\ (forall errors,
        status (handle_custom_exception W (invalid_data errors)) = 400)
  /\ status (handle_custom_exception W (ValidationError "No data provided")) = 400
  /\ (forall msg,
        status (handle_custom_exception W (DatabaseConnectionError msg)) = 503).
Proof.
  split; [apply add_company_service_order |].
  split; [apply add_company_project_order |].
  split; [apply add_company_employee_order |].
  split; [exact (ordered_refuses W _ _ _ (add_company_service_order W)) |].
  split; [exact (ordered_refuses W _ _ _ (add_company_project_order W)) |].
  split; [exact (ordered_refuses W _ _ _ (add_company_employee_order W)) |].
  repeat split.
Qed.

Lemma absent_company (W : World) (company_id : string) (st : store) :
  company_rows W company_id st = [] -> ~ company_exists company_id st.
Proof. apply company_rows_nil. Qed.

Lemma child_post_validates_first_witness :
  let W := Sample.world None in
  let good := Sample.post (VDict {[ "service_name" := VStr "Roof repair" ]}) in
  let bad := Sample.post (VDict {[ "description" := VStr "no name" ]}) in
  let odd := Sample.post (VList [VInt 1]) in
  add_company_service W "zz" good Sample.two_companies
  = (inl (not_found "zz"), Sample.two_companies)
  /\ add_company_service W "zz" bad Sample.two_companies
     = (inl (invalid_data [("service_name", "field required")]), Sample.two_companies)
  /\ add_company_service W "zz" odd Sample.two_companies
     = (inl (DatabaseConnectionError
               "Failed to add service: argument after ** must be a mapping"),
        Sample.two_companies).
Proof.
  intros W good bad odd.
  destruct (child_post_validates_first W) as (Hservice & _).
  destruct (Hservice "zz" good Sample.two_companies
              (absent_company W "zz" Sample.two_companies eq_refl))
    as (_ & _ & _ & _ & Hgood).
  destruct (Hservice "zz" bad Sample.two_companies
              (absent_company W "zz" Sample.two_companies eq_refl))
    as (_ & _ & _ & Hbad & _).
  destruct (Hservice "zz" odd Sample.two_companies
              (absent_company W "zz" Sample.two_companies eq_refl))
    as (_ & _ & Hodd & _ & _).
  split; [| split].
  - eapply Hgood; [reflexivity | discriminate | vm_compute; reflexivity].
  - eapply Hbad; [reflexivity | discriminate | vm_compute; reflexivity].
  - apply (Hodd (VList [VInt 1])); [reflexivity | reflexivity | discriminate].
Defined.

(** C1, as the specification words it, fails: a body without the required
    [service_name], posted under a company id that is not in the store,
    raises [ValidationError] and is answered 400, not 404. *)
Lemma add_company_service_malformed_under_missing_parent :
  let W := Sample.world None in
  let req := Sample.post (VDict {[ "description" := VStr "no name" ]}) in
  company_rows W "zz" Sample.two_companies = []
  /\ add_company_service W "zz" req Sample.two_companies
     = (inl (ValidationError "Invalid data: service_name: field required"),
        Sample.two_companies)
  /\ status (fst (dispatch W (add_company_service W "zz" req) Sample.two_companies))
     = 400.
Proof.
  intros W req. split; [reflexivity |]. split; vm_compute; reflexivity.
Qed.

(** ** Validation errors *)

Section Offences.
Context (W : World).

Lemma validate_field_standalone (f : Models.field) (values values' : gmap string value)
    (v : value) :
  standalone f ->
  Models.validate_field W f values v = Models.validate_field W f values' v.
Proof.
  intros Hf. unfold Models.validate_field.
  destruct v; try (destruct (Models.f_validators f _); [apply Hf | reflexivity]).
  destruct (Models.f_allow_none f); [apply Hf | reflexivity].
Qed.

Lemma field_check_standalone (f : Models.field) (values values' d : gmap string value) :
  standalone f -> field_check W values f d = field_check W values' f d.
Proof.
  intros Hf. unfold field_check.
  destruct (d !! Models.f_name f); [| reflexivity].
  apply validate_field_standalone. exact Hf.
Qed.

(** [validate_model] collects exactly the offences, whatever the class
    validators of a schema that does not need them are given. *)
Lemma validate_model_errors (fields : list Models.field) (d ctx : gmap string value) :
  Forall standalone fields ->
  forall values errors,
    snd (Models.validate_model W fields d values errors)
    = errors ++ offences_given W ctx fields d.
Proof.
  induction 1 as [| f fields Hf _ IH]; intros values errors.
  - simpl. rewrite app_nil_r. reflexivity.
  - simpl. unfold offences_given. simpl. unfold field_check at 1.
    fold (offences_given W ctx fields d).
    destruct (d !! Models.f_name f) as [v |].
    + rewrite (validate_field_standalone f values ctx v Hf).
      destruct (Models.validate_field W f ctx v) as [v' | m].
      * apply IH.
      * rewrite IH. rewrite <- app_assoc. reflexivity.
    + destruct (Models.f_required f).
      * rewrite IH. rewrite <- app_assoc. reflexivity.
      * apply IH.
Qed.

(** ... and keeps the values of the fields that pass. *)
Lemma validate_model_values (fields : list Models.field) (d : gmap string value) :
  Forall standalone fields ->
  forall values errors,
    fst (Models.validate_model W fields d values errors)
    = foldl (keep_passing W d) values fields.
Proof.
  induction 1 as [| f fields Hf _ IH]; intros values errors; [reflexivity |].
  simpl. unfold keep_passing at 2, field_check.
  destruct (d !! Models.f_name f) as [v |].
  - rewrite (validate_field_standalone f values ∅ v Hf).
    destruct (Models.validate_field W f ∅ v); apply IH.
  - destruct (Models.f_required f); apply IH.
Qed.

Lemma validate_model_app (pre post : list Models.field) (d : gmap string value) :
  forall values errors,
    Models.validate_model W (pre ++ post) d values errors
    = Models.validate_model W post d
        (fst (Models.validate_model W pre d values errors))
        (snd (Models.validate_model W pre d values errors)).
Proof.
  induction pre as [| f pre IH]; intros values errors; [reflexivity |].
  simpl. destruct (d !! Models.f_name f) as [v |].
  - destruct (Models.validate_field W f values v); apply IH.
  - destruct (Models.f_required f); apply IH.
Qed.

Lemma keep_passing_frame (fields : list Models.field) (d : gmap string value)
    (k : string) :
  k ∉ field_names fields ->
  forall values, foldl (keep_passing W d) values fields !! k = values !! k.
Proof.
  induction fields as [| f fields IH]; intros Hk values; [reflexivity |].
  unfold field_names in Hk. simpl in Hk. apply not_elem_of_cons in Hk as [Hne Hk].
  simpl. rewrite (IH Hk). unfold keep_passing.
  destruct (field_check W ∅ f d); [| reflexivity].
  apply lookup_insert_ne. congruence.
Qed.

Lemma CompanyCreate_standalone : Forall standalone (Models.CompanyCreate W).
Proof.
  unfold Models.CompanyCreate, Models.CompanyBase.
  repeat constructor; intros values values' v; reflexivity.
Qed.

Lemma offences_given_standalone (fields : list Models.field)
    (d ctx ctx' : gmap string value) :
  Forall standalone fields ->
  offences_given W ctx fields d = offences_given W ctx' fields d.
Proof.
  intros Hs. unfold offences_given.
  induction Hs as [| f fields Hf _ IH]; [reflexivity |].
  simpl. rewrite (field_check_standalone f ctx ctx' d Hf).
  destruct (field_check W ctx' f d); [exact IH | f_equal; exact IH].
Qed.

Lemma offences_standalone (fields : list Models.field) (d ctx : gmap string value) :
  Forall standalone fields -> offences W fields d = offences_given W ctx fields d.
Proof. intros Hs. apply offences_given_standalone. exact Hs. Qed.

Lemma model_dict_errors (fields : list Models.field) (d : gmap string value) :
  snd (Models.validate_model W fields d ∅ []) = offences W fields d ->
  offences W fields d <> [] ->
  Models.model_dict W fields d = inl (PydanticValidationError (offences W fields d)).
Proof.
  intros Herr Hne. unfold Models.model_dict.
  destruct (Models.validate_model W fields d ∅ []) as [values errors].
  simpl in Herr. subst errors.
  destruct (offences W fields d); [contradiction | reflexivity].
Qed.

Lemma model_dict_offences (fields : list Models.field) (d : gmap string value) :
  Forall standalone fields -> offences W fields d <> [] ->
  Models.model_dict W fields d = inl (PydanticValidationError (offences W fields d)).
Proof.
  intros Hs. apply model_dict_errors.
  rewrite (validate_model_errors fields d (passing W fields d) Hs ∅ []).
  rewrite (offences_standalone fields d (passing W fields d) Hs). reflexivity.
Qed.

Lemma offences_complete (fields : list Models.field) (d : gmap string value)
    (f : Models.field) (m : string) :
  f ∈ fields -> field_check W (passing W fields d) f d = Invalid m ->
  (Models.f_name f, m) ∈ offences W fields d.
Proof.
  intros Hin Hc. unfold offences, offences_given. apply list_elem_of_omap.
  exists f. rewrite Hc. auto.
Qed.

Lemma offences_sound (fields : list Models.field) (d : gmap string value)
    (name m : string) :
  (name, m) ∈ offences W fields d ->
  exists f, f ∈ fields /\ Models.f_name f = name
            /\ field_check W (passing W fields d) f d = Invalid m.
Proof.
  unfold offences, offences_given. intros H. apply list_elem_of_omap in H.
  destruct H as (f & Hin & Hf). exists f.
  destruct (field_check W (passing W fields d) f d) as [v | m']; [discriminate |].
  injection Hf as <- <-. auto.
Qed.

(** The end date of a project is judged against its start date and
    nothing else. *)
Lemma validate_end_date_reads (values values' : gmap string value) (v : value) :
  values !! "start_date" = values' !! "start_date" ->
  Models.validate_end_date values v = Models.validate_end_date values' v.
Proof. intros H. unfold Models.validate_end_date. rewrite H. reflexivity. Qed.

(** A schema in which one class validator looks at one other field,
    declared before it. *)
Lemma validate_model_one_reader (seg1 seg3 : list Models.field)
    (ed : Models.field) (k : string) (d : gmap string value) :
  Forall standalone seg1 -> Forall standalone seg3 ->
  (forall values values' v,
     values !! k = values' !! k ->
     Models.apply_post ed values v = Models.apply_post ed values' v) ->
  k ∉ field_names (ed :: seg3) ->
  snd (Models.validate_model W (seg1 ++ ed :: seg3) d ∅ [])
  = offences W (seg1 ++ ed :: seg3) d.
Proof.
  intros H1 H3 Hreads Hk.
  set (ctx := passing W (seg1 ++ ed :: seg3) d).
  assert (fst (Models.validate_model W seg1 d ∅ []) !! k = ctx !! k) as Hctx.
  { rewrite (validate_model_values seg1 d H1). unfold ctx, passing.
    rewrite foldl_app. symmetry. apply keep_passing_frame. exact Hk. }
  unfold offences. fold ctx. unfold offences_given. rewrite omap_app.
  fold (offences_given W ctx seg1 d).
  rewrite validate_model_app.
  rewrite (validate_model_errors seg1 d ctx H1 ∅ []). rewrite app_nil_l.
  generalize dependent (fst (Models.validate_model W seg1 d ∅ [])).
  intros v1 Hctx.
  assert (forall v, Models.validate_field W ed v1 v = Models.validate_field W ed ctx v)
    as Hed.
  { intros v. unfold Models.validate_field.
    destruct v; try (destruct (Models.f_validators ed _);
                     [apply Hreads; exact Hctx | reflexivity]).
    destruct (Models.f_allow_none ed); [apply Hreads; exact Hctx | reflexivity]. }
  cbn [Models.validate_model omap list_omap]. unfold field_check at 1.
  fold (offences_given W ctx seg3 d).
  destruct (d !! Models.f_name ed) as [v |].
  - rewrite Hed. destruct (Models.validate_field W ed ctx v) as [v' | m].
    + rewrite (validate_model_errors seg3 d ctx H3). reflexivity.
    + rewrite (validate_model_errors seg3 d ctx H3). rewrite <- app_assoc.
      reflexivity.
  - destruct (Models.f_required ed).
    + rewrite (validate_model_errors seg3 d ctx H3). rewrite <- app_assoc.
      reflexivity.
    + rewrite (validate_model_errors seg3 d ctx H3). reflexivity.
Qed.

(** The project schema: three fields judged alone, the end date, three
    more fields judged alone. *)
Lemma ProjectCreate_errors (d : gmap string value) :
  snd (Models.validate_model W (Models.ProjectCreate W) d ∅ [])
  = offences W (Models.ProjectCreate W) d.
Proof.
  apply (validate_model_one_reader
           [ Models.required "project_name" (Models.t_constr W 1 255);
             Models.required "location" (Models.t_str W);
             Models.optional "start_date" (Models.t_date W) ]
           [ Models.with_validator
               (Models.defaulted "status" (Models.t_str W) (VStr "planned"))
               Models.validate_status;
             Models.optional "description" (Models.t_str W);
             Models.optional "beneficiary_info" (Models.t_str W) ]
           (Models.with_validator (Models.optional "end_date" (Models.t_date W))
              Models.validate_end_date)
           "start_date" d).
  - repeat constructor; intros values values' v; reflexivity.
  - repeat constructor; intros values values' v; reflexivity.
  - intros values values' v H. apply validate_end_date_reads. exact H.
  - unfold field_names. simpl. intros Hin.
    repeat (apply elem_of_cons in Hin; destruct Hin as [Hin | Hin];
            [discriminate |]).
    apply elem_of_nil in Hin. exact Hin.
Qed.

End Offences.

Section Joined.
Context (W : World).

Lemma CompanyUpdate_standalone : Forall standalone (Models.CompanyUpdate W).
Proof.
  unfold Models.CompanyUpdate.
  repeat constructor; intros values values' v; reflexivity.
Qed.

Lemma ServiceCreate_standalone : Forall standalone (Models.ServiceCreate W).
Proof.
  unfold Models.ServiceCreate, Models.ServiceBase.
  repeat constructor; intros values values' v; reflexivity.
Qed.

Lemma EmployeeCreate_standalone : Forall standalone (Models.EmployeeCreate W).
Proof.
  unfold Models.EmployeeCreate, Models.EmployeeBase.
  repeat constructor; intros values values' v; reflexivity.
Qed.

Lemma standalone_enumerates (schema : list Models.field) :
  Forall standalone schema -> enumerates_offences W schema.
Proof.
  intros Hs d Hne. apply model_dict_offences; assumption.
Qed.

Lemma ProjectCreate_enumerates : enumerates_offences W (Models.ProjectCreate W).
Proof.
  intros d Hne. apply model_dict_errors; [apply ProjectCreate_errors | exact Hne].
Qed.

Lemma body_empty_mapping {A} (schema : list Models.field) (req : request)
    (st : store) (k : gmap string value -> M A) :
  json req = inr (VDict ∅) ->
  (let* data := request_json req in
   let* model := lift_exn (Models.model_of_json W schema data) in
   k model) st
  = (inl (ValidationError "No data provided"), st).
Proof.
  intros Hj. apply (body_empty W schema req st k (VDict ∅) Hj).
  simpl. rewrite bool_decide_eq_true_2 by reflexivity. reflexivity.
Qed.

Ltac joins :=
  intros req st; split;
  [ intros d errors Hj Hd Hm;
    match goal with
    | |- ?view ?r ?s = _ /\ _ =>
        cut (view r s = (inl (ValidationError (joined_text errors)), s))
    end;
    [ intros Hraise; split;
      [exact Hraise | unfold dispatch; rewrite Hraise; reflexivity]
    | erewrite try_except_inl
        by (eapply body_invalid; [exact Hj | exact Hd | exact Hm]);
      reflexivity ]
  | intros Hj;
    match goal with
    | |- ?view ?r ?s = _ /\ _ =>
        cut (view r s = (inl (ValidationError "No data provided"), s))
    end;
    [ intros Hraise; split;
      [exact Hraise | unfold dispatch; rewrite Hraise; reflexivity]
    | erewrite try_except_inl by (apply body_empty_mapping; exact Hj);
      reflexivity ] ].

Lemma create_company_joins :
  joins_errors W (create_company W) (Models.CompanyCreate W).
Proof. unfold joins_errors, create_company. joins. Qed.

Lemma update_company_joins (company_id : string) :
  joins_errors W (update_company W company_id) (Models.CompanyUpdate W).
Proof. unfold joins_errors, update_company. joins. Qed.

Lemma add_company_service_joins (company_id : string) :
  joins_errors W (add_company_service W company_id) (Models.ServiceCreate W).
Proof. unfold joins_errors, add_company_service. joins. Qed.

Lemma add_company_project_joins (company_id : string) :
  joins_errors W (add_company_project W company_id) (Models.ProjectCreate W).
Proof. unfold joins_errors, add_company_project. joins. Qed.

Lemma add_company_employee_joins (company_id : string) :
  joins_errors W (add_company_employee W company_id) (Models.EmployeeCreate W).
Proof. unfold joins_errors, add_company_employee. joins. Qed.

End Joined.

(** C2, as the code has it.  When fields of a payload, a JSON object
    that is not empty, fail validation, each of the five mutating views
    raises a [ValidationError] whose content is one string: [Invalid
    data: ] followed by one [field: message] entry per error pydantic
    reports, joined by [; ]; the response carries that string as its
    [message] and nothing else about the errors.  The errors pydantic
    reports are exactly the offending fields, in schema order, for each
    of the five schemas; the end date of a project is judged against
    its start date when that one passes.  The empty object is refused
    before it is validated, with [No data provided], which names no
    field. *)
Theorem validation_errors_are_joined_text (W : World) :
  joins_errors W (create_company W) (Models.CompanyCreate W)
  /\ (forall company_id,
        joins_errors W (update_company W company_id) (Models.CompanyUpdate W))
  /\ (forall company_id,
        joins_errors W (add_company_service W company_id) (Models.ServiceCreate W))
  /\ (forall company_id,
        joins_errors W (add_company_project W company_id) (Models.ProjectCreate W))
  /\ (forall company_id,
        joins_errors W (add_company_employee W company_id) (Models.EmployeeCreate W))
  /\ enumerates_offences W (Models.CompanyCreate W)
  /\ enumerates_offences W (Models.CompanyUpdate W)
  /\ enumerates_offences W (Models.ServiceCreate W)
  /\ enumerates_offences W (Models.ProjectCreate W)
  /\ enumerates_offences W (Models.EmployeeCreate W)
  /\ (forall schema d f m,
        f ∈ schema -> field_check W (passing W schema d) f d = Invalid m ->
        (Models.f_name f, m) ∈ offences W schema d)
  /\ (forall schema d name m,
        (name, m) ∈ offences W schema d ->
        exists f, f ∈ schema /\ Models.f_name f = name
                  /\ field_check W (passing W schema d) f d = Invalid m).
Proof.
  split; [apply create_company_joins |].
  split; [apply update_company_joins |].
  split; [apply add_company_service_joins |].
  split; [apply add_company_project_joins |].
  split; [apply add_company_employee_joins |].
  split; [apply standalone_enumerates, CompanyCreate_standalone |].
  split; [apply standalone_enumerates, CompanyUpdate_standalone |].
  split; [apply standalone_enumerates, ServiceCreate_standalone |].
  split; [apply ProjectCreate_enumerates |].
  split; [apply standalone_enumerates, EmployeeCreate_standalone |].
  split.
  - intros schema d f m. apply offences_complete.
  - intros schema d name m. apply offences_sound.
Qed.

Lemma validation_errors_are_joined_text_witness :
  let W := Sample.world None in
  let d : gmap string value :=
    {[ "project_name" := VStr ""; "location" := VStr "Hill";
       "start_date" := VStr "2024-05-01"; "end_date" := VStr "2024-04-01" ]} in
  add_company_project W "c1" (Sample.post (VDict d)) Sample.two_companies
  = (inl (ValidationError
            "Invalid data: project_name: ensure this value has at least 1 characters; end_date: End date must be after start date"),
     Sample.two_companies).
Proof.
  intros W d.
  destruct (validation_errors_are_joined_text W)
    as (_ & _ & _ & Hjoin & _ & _ & _ & _ & Henum & _).
  assert (offences W (Models.ProjectCreate W) d
          = [("project_name", "ensure this value has at least 1 characters");
             ("end_date", "End date must be after start date")]) as Hoff
    by (vm_compute; reflexivity).
  destruct (Hjoin "c1" (Sample.post (VDict d)) Sample.two_companies) as [Hbad _].
  destruct (Hbad d (offences W (Models.ProjectCreate W) d)) as [Hraise _].
  - reflexivity.
  - discriminate.
  - apply Henum. rewrite Hoff. discriminate.
  - rewrite Hoff in Hraise. exact Hraise.
Defined.

(** C2, as the specification words it, fails: with four required fields
    missing, what the [ValidationError] carries and what the response
    shows as [message] is one string, not a list of pairs. *)
Lemma create_company_error_is_one_string :
  let W := Sample.world None in
  let req := Sample.post (VDict {[ "website" := VStr "example.org" ]}) in
  let text := "Invalid data: company_name: field required; company_address: field required; company_email: field required; company_phone: field required" in
  length (offences W (Models.CompanyCreate W) {[ "website" := VStr "example.org" ]})
  = 4%nat
  /\ create_company W req Sample.empty_store
     = (inl (ValidationError text), Sample.empty_store)
  /\ dispatch W (create_company W req) Sample.empty_store
     = ({| body := VDict {[ "error" := VStr "Validation Error";
                            "message" := VStr text ]};
           status := 400 |}, Sample.empty_store).
Proof.
  intros W req text. split; [| split]; vm_compute; reflexivity.
Qed.

(** ** Updating a company *)

Section Update.
Context (W : World).

Lemma CompanyUpdate_partial : Forall (partial_field W) (Models.CompanyUpdate W).
Proof.
  unfold Models.CompanyUpdate. repeat constructor.
Qed.

(** In a partial schema a validated value other than [None] comes from
    a payload entry other than [None]. *)
Lemma validate_model_given (fields : list Models.field) (d : gmap string value) :
  Forall (partial_field W) fields ->
  forall values errors values' errors',
    Models.validate_model W fields d values errors = (values', errors') ->
    forall k x, values' !! k = Some x -> x <> VNone ->
      (exists v, d !! k = Some v /\ v <> VNone) \/ values !! k = Some x.
Proof.
  induction 1 as [| f fields [Hdef Hnone] _ IH];
    intros values errors values' errors' Hv k x Hk Hx.
  - simpl in Hv. injection Hv as <- <-. right. exact Hk.
  - simpl in Hv. destruct (d !! Models.f_name f) as [v |] eqn:Hd.
    + destruct (Models.validate_field W f values v) as [v' | m] eqn:Hf.
      * destruct (IH _ _ _ _ Hv k x Hk Hx) as [Hgiven | Hin]; [left; exact Hgiven |].
        destruct (decide (Models.f_name f = k)) as [<- | Hne].
        -- rewrite lookup_insert_eq in Hin. injection Hin as ->.
           left. exists v. split; [exact Hd |].
           intros ->. rewrite Hnone in Hf. congruence.
        -- rewrite lookup_insert_ne in Hin by exact Hne. right. exact Hin.
      * exact (IH _ _ _ _ Hv k x Hk Hx).
    + destruct (Models.f_required f).
      * exact (IH _ _ _ _ Hv k x Hk Hx).
      * destruct (IH _ _ _ _ Hv k x Hk Hx) as [Hgiven | Hin]; [left; exact Hgiven |].
        destruct (decide (Models.f_name f = k)) as [<- | Hne].
        -- rewrite lookup_insert_eq, Hdef in Hin. congruence.
        -- rewrite lookup_insert_ne in Hin by exact Hne. right. exact Hin.
Qed.

Lemma is_not_none_true (v : value) : is_not_none v = true <-> v <> VNone.
Proof. destruct v; simpl; split; congruence. Qed.

(** What [update_company] sends to the store: the time stamp, and the
    validated values other than [None]. *)
Lemma update_db_data_lookup (values : gmap string value) (k : string) (x : value) :
  update_db_data W values !! k = Some x
  <-> (k = "updated_at" /\ x = VStr (utcnow_isoformat W))
      \/ (k <> "updated_at" /\ values !! k = Some x /\ x <> VNone).
Proof.
  unfold update_db_data, drop_none.
  destruct (decide ("updated_at" = k)) as [<- | Hne].
  - rewrite lookup_insert_eq. split.
    + intros [= <-]. left. auto.
    + intros [[_ ->] | [Hk _]]; [reflexivity | contradiction].
  - rewrite lookup_insert_ne by exact Hne.
    rewrite map_lookup_filter_Some. simpl. rewrite is_not_none_true. split.
    + intros [Hv Hx]. right. auto.
    + intros [[Hk _] | (_ & Hv & Hx)]; [congruence | auto].
Qed.

Lemma update_db_data_not_none (values : gmap string value) (k : string) :
  update_db_data W values !! k <> Some VNone.
Proof.
  intros H. apply update_db_data_lookup in H.
  destruct H as [[_ H] | (_ & _ & H)]; congruence.
Qed.

Lemma update_db_data_stamp (values : gmap string value) :
  update_db_data W values !! "updated_at" = Some (VStr (utcnow_isoformat W)).
Proof. apply update_db_data_lookup. left. auto. Qed.

(** A column is written only if the payload gives it a value other than
    [None]. *)
Lemma update_db_data_given (d values : gmap string value) (k : string) :
  Models.model_dict W (Models.CompanyUpdate W) d = inr values ->
  k <> "updated_at" ->
  is_Some (update_db_data W values !! k) ->
  exists v, d !! k = Some v /\ v <> VNone.
Proof.
  unfold Models.model_dict. intros Hm Hk [x Hx].
  destruct (Models.validate_model W (Models.CompanyUpdate W) d ∅ [])
    as [values' errors] eqn:Hv.
  destruct errors; [| discriminate]. injection Hm as ->.
  apply update_db_data_lookup in Hx.
  destruct Hx as [[Hx _] | (_ & Hval & Hnn)]; [contradiction |].
  destruct (validate_model_given _ d CompanyUpdate_partial _ _ _ _ Hv k x Hval Hnn)
    as [Hgiven | Hin]; [exact Hgiven |].
  rewrite lookup_empty in Hin. discriminate.
Qed.

(** *** The effect on the store *)

Lemma except_clauses_store {A} (prefix : string) (e : exn) (st : store) :
  snd (@except_clauses W A prefix e st) = st.
Proof.
  unfold except_clauses, except_exception.
  destruct e; simpl; reflexivity.
Qed.

Lemma try_except_store {A} (m : M A) (h : exn -> M A) (st : store) :
  (forall e st', snd (h e st') = st') ->
  snd (try_except m h st) = snd (m st).
Proof.
  intros Hh. unfold try_except. destruct (m st) as [[e | a] st']; [apply Hh | reflexivity].
Qed.

(** The store after [update_company]: untouched, or patched with the
    columns of [update_db_data] for the validated payload. *)
Lemma update_company_store (company_id : string) (req : request) (st : store) :
  snd (update_company W company_id req st) = st
  \/ exists d values,
       json req = inr (VDict d)
       /\ Models.model_dict W (Models.CompanyUpdate W) d = inr values
       /\ snd (update_company W company_id req st)
          = snd (update_rows W os_construction (update_db_data W values)
                   (update_filter company_id) st).
Proof.
  unfold update_company.
  rewrite try_except_store by (intros e st'; apply except_clauses_store).
  match goal with
  | |- context [bind (request_json req) (fun data => bind _ ?k)] =>
      destruct (posted W (Models.CompanyUpdate W) req st k)
        as [Hst | (d & values & Hj & _ & Hm & Hst)]
  end.
  { left. exact Hst. }
  cbv zeta in Hst. rewrite Hst.
  destruct (company_rows W company_id st) as [| r l] eqn:Hr.
  { left. rewrite (bind_inl _ _ st st (not_found company_id)); [reflexivity |].
    rewrite check_company_rows, Hr. reflexivity. }
  right. exists d, values. split; [exact Hj |]. split; [exact Hm |].
  rewrite (bind_inr _ _ st st tt) by (rewrite check_company_rows, Hr; reflexivity).
  unfold bind, run_update.
  destruct (update_rows W os_construction (update_db_data W values)
              [Eq "id" (VStr company_id)] st) as [res st2] eqn:Hu.
  unfold update_filter. rewrite Hu. simpl.
  unfold first_row. destruct (data res); reflexivity.
Qed.

Lemma patch_frame (fs : list condition) (changes r : gmap string value) (k : string) :
  changes !! k = None -> patch W fs changes r !! k = r !! k.
Proof.
  intros H. unfold patch. destruct (selected W fs r); [| reflexivity].
  apply lookup_union_r. exact H.
Qed.

Lemma patch_lookup (fs : list condition) (changes r : gmap string value)
    (k : string) (x : value) :
  patch W fs changes r !! k = Some x ->
  changes !! k = Some x \/ r !! k = Some x.
Proof.
  unfold patch. destruct (selected W fs r); [| auto].
  intros H. apply lookup_union_Some_raw in H. destruct H as [H | [_ H]]; auto.
Qed.

Lemma update_rows_store (changes : gmap string value) (fs : list condition)
    (st : store) :
  let st' := snd (update_rows W os_construction changes fs st) in
  companies st' = List.map (patch W fs changes) (companies st)
  /\ services st' = services st
  /\ projects st' = projects st
  /\ employees st' = employees st.
Proof. repeat split. Qed.

End Update.

Section UpdateRows.
Context (W : World).

Lemma lookup_map {X Y} (g : X -> Y) (l : list X) (i : nat) :
  List.map g l !! i = g <$> (l !! i).
Proof.
  revert i. induction l as [| x l IH]; intros [| i]; simpl; auto.
Qed.

(** A row before and the row at the same place after [update_company]:
    the same row, or that row patched with the validated payload. *)
Lemma update_company_row (company_id : string) (req : request) (st : store)
    (i : nat) (r r' : gmap string value) :
  companies st !! i = Some r ->
  companies (snd (update_company W company_id req st)) !! i = Some r' ->
  r' = r
  \/ exists d values,
       json req = inr (VDict d)
       /\ Models.model_dict W (Models.CompanyUpdate W) d = inr values
       /\ r' = patch W (update_filter company_id) (update_db_data W values) r.
Proof.
  intros Hr Hr'.
  destruct (update_company_store W company_id req st)
    as [Hst | (d & values & Hj & Hm & Hst)]; rewrite Hst in Hr'.
  - left. congruence.
  - right. exists d, values. split; [exact Hj |]. split; [exact Hm |].
    destruct (update_rows_store W (update_db_data W values)
                (update_filter company_id) st) as (Hc & _).
    rewrite Hc, lookup_map, Hr in Hr'. simpl in Hr'. congruence.
Qed.

Lemma update_company_other_tables (company_id : string) (req : request) (st : store) :
  let st' := snd (update_company W company_id req st) in
  services st' = services st /\ projects st' = projects st
  /\ employees st' = employees st
  /\ length (companies st') = length (companies st).
Proof.
  intros st'. subst st'.
  destruct (update_company_store W company_id req st)
    as [Hst | (d & values & _ & _ & Hst)]; rewrite Hst.
  - auto.
  - destruct (update_rows_store W (update_db_data W values)
                (update_filter company_id) st) as (Hc & Hs & Hp & He).
    rewrite Hc, Hs, Hp, He, length_map. auto.
Qed.

(** The update of an existing company with a payload that validates. *)
Lemma update_company_found (company_id : string) (req : request) (st : store)
    (d values : gmap string value) :
  json req = inr (VDict d) -> d <> ∅ ->
  Models.model_dict W (Models.CompanyUpdate W) d = inr values ->
  company_exists company_id st ->
  exists r,
    r ∈ companies st /\ r !! "id" = Some (VStr company_id)
    /\ update_company W company_id req st
       = (inr {| body := jsonify (update_db_data W values ∪ r); status := 200 |},
          snd (update_rows W os_construction (update_db_data W values)
                 (update_filter company_id) st)).
Proof.
  intros Hj Hd Hm Hex.
  destruct (company_rows W company_id st) as [| r l] eqn:Hr.
  { apply company_rows_nil in Hr. contradiction. }
  exists r.
  assert (In r (company_rows W company_id st)) as Hin by (rewrite Hr; left; reflexivity).
  apply filter_In in Hin. destruct Hin as [Hin Hsel].
  split; [apply list_elem_of_In; exact Hin |].
  split; [apply selected_id in Hsel; exact Hsel |].
  unfold update_company. apply try_except_inr.
  rewrite (bind_inr _ _ st st (VDict d)).
  2:{ apply request_json_given; [exact Hj | apply truthy_dict; exact Hd]. }
  rewrite (bind_inr _ _ st st values) by (simpl; rewrite Hm; reflexivity).
  rewrite (bind_inr _ _ st st tt) by (rewrite check_company_rows, Hr; reflexivity).
  unfold bind, run_update, update_rows, update_filter. simpl.
  fold (company_rows W company_id st). rewrite Hr. reflexivity.
Qed.

End UpdateRows.

(** C5.  When the payload of [PUT /api/companies/<id>] sets exactly one
    field [k], the columns sent to the store are at most [k] and
    [updated_at]; in every stored company every other column is what it
    was, no company is added or removed, and the other tables are
    untouched. *)
Theorem update_company_one_field (W : World) (company_id : string) (req : request)
    (st : store) (k : string) (v : value) :
  json req = inr (VDict {[ k := v ]}) ->
  let st' := snd (update_company W company_id req st) in
  (forall values f,
     Models.model_dict W (Models.CompanyUpdate W) {[ k := v ]} = inr values ->
     is_Some (update_db_data W values !! f) -> f = k \/ f = "updated_at")
  /\ (forall i r r' f,
        companies st !! i = Some r -> companies st' !! i = Some r' ->
        f <> k -> f <> "updated_at" -> r' !! f = r !! f)
  /\ length (companies st') = length (companies st)
  /\ services st' = services st
  /\ projects st' = projects st
  /\ employees st' = employees st.
Proof.
  intros Hj st'.
  assert (forall values f,
            Models.model_dict W (Models.CompanyUpdate W) {[ k := v ]} = inr values ->
            is_Some (update_db_data W values !! f) -> f = k \/ f = "updated_at")
    as Hcols.
  { intros values f Hm Hf.
    destruct (decide (f = "updated_at")) as [-> | Hne]; [right; reflexivity |].
    destruct (update_db_data_given W _ values f Hm Hne Hf) as (x & Hx & _).
    apply lookup_singleton_Some in Hx. destruct Hx as [<- _]. left. reflexivity. }
  split; [exact Hcols |]. split.
  - intros i r r' f Hr Hr' Hk Hu.
    destruct (update_company_row W company_id req st i r r' Hr Hr')
      as [-> | (d & values & Hd & Hm & ->)]; [reflexivity |].
    rewrite Hj in Hd. injection Hd as <-.
    apply patch_frame.
    destruct (update_db_data W values !! f) as [x |] eqn:Hx; [| reflexivity].
    destruct (Hcols values f Hm (mk_is_Some _ _ Hx)); contradiction.
  - destruct (update_company_other_tables W company_id req st)
      as (Hs & Hp & He & Hl).
    auto.
Qed.

Lemma update_company_one_field_witness :
  let W := Sample.world None in
  let req := Sample.post (VDict {[ "website" := VStr "acme.example" ]}) in
  let st' := snd (update_company W "c1" req Sample.two_companies) in
  (forall i r r' f,
     companies Sample.two_companies !! i = Some r -> companies st' !! i = Some r' ->
     f <> "website" -> f <> "updated_at" -> r' !! f = r !! f)
  /\ companies st'
     = [ <["website" := VStr "acme.example"]>
           (<["updated_at" := VStr "2024-05-01T12:00:00"]>
              (Sample.company "c1" "Acme Builders" true));
         Sample.company "c2" "Brick and Co" false ].
Proof.
  intros W req st'. split.
  - apply (update_company_one_field W "c1" req Sample.two_companies
             "website" (VStr "acme.example") eq_refl).
  - vm_compute. reflexivity.
Defined.

(** C10.  In [update_company] a field whose validated value is [None],
    because the payload leaves it out or gives [null] for it, is not
    among the columns sent to the store, and no column is sent as
    [None]: a stored value that is not [None] is never [None]
    afterwards.  [updated_at] is always among the columns, and an
    existing company receives it with status 200 whatever else the
    validated payload holds. *)
Theorem update_company_never_clears (W : World) (company_id : string)
    (req : request) (st : store) (d values : gmap string value) :
  json req = inr (VDict d) ->
  Models.model_dict W (Models.CompanyUpdate W) d = inr values ->
  let db_data := update_db_data W values in
  let st' := snd (update_company W company_id req st) in
  (forall f, db_data !! f <> Some VNone)
  /\ (forall f, f <> "updated_at" -> values !! f = Some VNone ->
        db_data !! f = None)
  /\ (forall f, f <> "updated_at" -> d !! f = None \/ d !! f = Some VNone ->
        db_data !! f = None)
  /\ db_data !! "updated_at" = Some (VStr (utcnow_isoformat W))
  /\ (forall i r r' f,
        companies st !! i = Some r -> companies st' !! i = Some r' ->
        r' !! f = Some VNone -> r !! f = Some VNone)
  /\ (d <> ∅ -> company_exists company_id st ->
      status (fst (dispatch W (update_company W company_id req) st)) = 200
      /\ forall i r,
           companies st !! i = Some r -> r !! "id" = Some (VStr company_id) ->
           exists r', companies st' !! i = Some r'
                      /\ r' !! "updated_at" = Some (VStr (utcnow_isoformat W))).
Proof.
  intros Hj Hm db_data st'.
  split; [intros f; apply update_db_data_not_none |].
  split.
  { intros f Hf Hv.
    destruct (db_data !! f) as [x |] eqn:Hx; [| reflexivity].
    apply update_db_data_lookup in Hx.
    destruct Hx as [[Hx _] | (_ & Hval & Hnn)]; congruence. }
  split.
  { intros f Hf Hd.
    destruct (db_data !! f) as [x |] eqn:Hx; [| reflexivity].
    destruct (update_db_data_given W d values f Hm Hf (mk_is_Some _ _ Hx))
      as (v & Hv & Hnn).
    destruct Hd as [Hd | Hd]; rewrite Hd in Hv; congruence. }
  split; [apply update_db_data_stamp |].
  split.
  { intros i r r' f Hr Hr' Hnull.
    destruct (update_company_row W company_id req st i r r' Hr Hr')
      as [-> | (d' & values' & _ & _ & ->)]; [exact Hnull |].
    apply patch_lookup in Hnull. destruct Hnull as [Hnull | Hnull]; [| exact Hnull].
    apply update_db_data_not_none in Hnull. destruct Hnull. }
  intros Hd Hex.
  destruct (update_company_found W company_id req st d values Hj Hd Hm Hex)
    as (r0 & _ & _ & Hup).
  split.
  - unfold dispatch. rewrite Hup. reflexivity.
  - intros i r Hr Hid.
    assert (st' = snd (update_rows W os_construction (update_db_data W values)
                         (update_filter company_id) st)) as ->
      by (subst st'; rewrite Hup; reflexivity).
    destruct (update_rows_store W (update_db_data W values)
                (update_filter company_id) st) as (Hc & _).
    cbv zeta in Hc. rewrite Hc, lookup_map, Hr. simpl.
    eexists. split; [reflexivity |].
    unfold patch, update_filter.
    apply (selected_id W) in Hid. rewrite Hid.
    apply lookup_union_Some_l. apply update_db_data_stamp.
Qed.

Lemma update_company_never_clears_witness :
  let W := Sample.world None in
  let d : gmap string value := {[ "website" := VNone ]} in
  let req := Sample.post (VDict d) in
  let st' := snd (update_company W "c1" req Sample.two_companies) in
  update_db_data W (<["website" := VNone]> ∅) !! "website" = None
  /\ status (fst (dispatch W (update_company W "c1" req) Sample.two_companies)) = 200
  /\ companies st'
     = [ <["updated_at" := VStr "2024-05-01T12:00:00"]>
           (Sample.company "c1" "Acme Builders" true);
         Sample.company "c2" "Brick and Co" false ].
Proof.
  intros W d req st'.
  assert (exists values, Models.model_dict W (Models.CompanyUpdate W) d = inr values)
    as [values Hm] by (eexists; vm_compute; reflexivity).
  destruct (update_company_never_clears W "c1" req Sample.two_companies d values
              eq_refl Hm) as (_ & _ & Hnull & _ & _ & Hwritten).
  split; [| split].
  - vm_compute. reflexivity.
  - apply Hwritten; [discriminate |].
    exists (Sample.company "c1" "Acme Builders" true).
    split; [apply list_elem_of_here | reflexivity].
  - vm_compute. reflexivity.
Defined.

(** ** The total of a filtered list *)

Section Totals.
Context (W : World).

Lemma filter_all (l : list (gmap string value)) :
  List.filter (selected W []) l = l.
Proof.
  induction l as [| r l IH]; [reflexivity |]. simpl. rewrite IH. reflexivity.
Qed.

(** [get_companies] reports the size of the table, whatever the
    filters. *)
Lemma get_companies_total (req : request) (st : store) (r : response) :
  get_companies W req st = (inr r, st) ->
  total_of r = Some (VInt (Z.of_nat (length (companies st)))).
Proof.
  unfold get_companies, try_except, bind, lift_exn.
  destruct (get_pagination_params W req) as [e | [page per_page]] eqn:Hp.
  - simpl. unfold except_exception. destruct (is_OSConstructionError e); discriminate.
  - apply get_pagination_params_range in Hp.
    unfold ret at 1. unfold get_total_count, bind, run_query, ret. simpl.
    rewrite filter_all. unfold format_paginated_response.
    rewrite pages_value by lia. simpl.
    intros [= <-]. vm_compute. reflexivity.
Qed.

(** [get_company_projects] reports the size of the filtered set. *)
Lemma get_company_projects_total (company_id : string) (req : request)
    (st : store) (r : response) (q : query) :
  get_company_projects W company_id req st = (inr r, st) ->
  projects_query company_id req = inr q ->
  total_of r
  = Some (VInt (Z.of_nat (length (List.filter (selected W (q_filters q))
                                     (projects st))))).
Proof.
  unfold get_company_projects, try_except, bind, lift_exn. intros H Hq.
  destruct (get_pagination_params W req) as [e | [page per_page]] eqn:Hp.
  - simpl in H. unfold except_exception in H.
    destruct (is_OSConstructionError e); discriminate.
  - apply get_pagination_params_range in Hp.
    unfold ret at 1 in H. rewrite check_company_rows in H.
    destruct (company_rows W company_id st).
    + simpl in H. discriminate.
    + rewrite Hq in H. unfold ret at 1 in H.
      assert (q_table q = os_construction_projects /\ q_range q = None) as [Ht Hr].
      { unfold projects_query in Hq.
        destruct (args req !! "status") as [s |]; [| injection Hq as <-; auto].
        destruct (truthy (VStr s)); [| injection Hq as <-; auto].
        destruct (in_str_list (VStr s) Models.valid_statuses);
          [injection Hq as <-; auto | discriminate]. }
      unfold run_query, execute in H. simpl in H.
      rewrite Ht, Hr in H. simpl in H. rewrite length_map in H.
      unfold format_paginated_response in H.
      rewrite pages_value in H by lia. simpl in H.
      injection H as <-. vm_compute. reflexivity.
Qed.

End Totals.

(** C3 at a failing input.  The store holds two companies, one of them
    verified.  [GET /api/companies?is_verified=true] selects one row and
    returns it, and reports [total = 2], the size of the table. *)
Theorem get_companies_total_ignores_filter :
  let W := Sample.world None in
  let req := Sample.get {[ "is_verified" := "true" ]} in
  filtered_companies W req Sample.two_companies
  = [Sample.company "c1" "Acme Builders" true]
  /\ dispatch W (get_companies W req) Sample.two_companies
     = ({| body := VDict
             {[ "data" := VList [VDict (Sample.company "c1" "Acme Builders" true)];
                "pagination" := VDict {[ "page" := VInt 1;
                                         "per_page" := VInt 10;
                                         "total" := VInt 2;
                                         "pages" := VInt 1 ]} ]};
           status := 200 |}, Sample.two_companies).
Proof.
  intros W req. split; vm_compute; reflexivity.
Qed.

(** * Further properties *)

(** ** Reading the bearer token *)

Lemma split_go_cons (sep : ascii) (cur s : string) :
  exists x l, split_go sep cur s = x :: l.
Proof.
  revert cur. induction s as [| c s IH]; intros cur; simpl.
  - eauto.
  - destruct (Ascii.eqb c sep); [eauto | apply IH].
Qed.

Lemma append_empty (a : string) : a +:+ "" = a.
Proof.
  induction a as [| x a IH]; [reflexivity |].
  change (String x (a +:+ "") = String x a). rewrite IH. reflexivity.
Qed.

Lemma rev_app_append (a b t : string) :
  String.rev_app a b +:+ t = String.rev_app a (b +:+ t).
Proof.
  revert b. induction a as [| x a IH]; intros b; [reflexivity |].
  change (String.rev_app a (String x b) +:+ t
          = String.rev_app a (String x (b +:+ t))).
  apply IH.
Qed.

Lemma rev_cons_append (c : ascii) (cur s : string) :
  String.rev (String c cur) +:+ s = String.rev cur +:+ String c s.
Proof.
  unfold String.rev. rewrite !rev_app_append. reflexivity.
Qed.

(** A piece without the separator is cut off whole. *)
Lemma split_go_piece (sep : ascii) (t : string) :
  has_char sep t = false ->
  forall cur,
    split_go sep cur t = [String.rev cur +:+ t]
    /\ forall rest,
         split_go sep cur (t +:+ String sep rest)
         = (String.rev cur +:+ t) :: split_go sep "" rest.
Proof.
  induction t as [| c t IH]; intros Hno cur.
  - simpl. rewrite Ascii.eqb_refl.
    rewrite append_empty. auto.
  - simpl in Hno. apply orb_false_iff in Hno. destruct Hno as [Hc Ht].
    simpl. rewrite Hc. rewrite <- rev_cons_append.
    destruct (IH Ht (String c cur)) as [H1 H2]. auto.
Qed.

Lemma startswith_append (p s : string) :
  startswith p s = true -> exists t, s = p +:+ t.
Proof.
  revert s. induction p as [| a p IH]; intros s H; simpl in *.
  - exists s. reflexivity.
  - destruct s as [| b s]; [discriminate |].
    destruct (Ascii.eqb_spec a b) as [<- | _]; [| discriminate].
    destruct (IH s H) as [t ->]. exists t. reflexivity.
Qed.

Lemma startswith_prefix (p t : string) : startswith p (p +:+ t) = true.
Proof.
  induction p as [| a p IH]; simpl; [reflexivity |].
  rewrite Ascii.eqb_refl. exact IH.
Qed.

Lemma split_bearer (t : string) :
  split " " ("Bearer " +:+ t) = "Bearer" :: split_go " " "" t.
Proof. reflexivity. Qed.

Lemma bearer_token_total (req : request) :
  exists token, bearer_token req = inr token.
Proof.
  unfold bearer_token.
  destruct (headers req !! "Authorization") as [h |]; [| eauto].
  destruct (startswith "Bearer " h) eqn:Hs; [| eauto].
  apply startswith_append in Hs. destruct Hs as [t ->].
  rewrite split_bearer.
  destruct (split_go_cons " " "" t) as (x & l & ->). simpl. eauto.
Qed.

Lemma bearer_token_exact (req : request) (t : string) :
  headers req !! "Authorization" = Some ("Bearer " +:+ t) ->
  has_char " " t = false ->
  bearer_token req = inr (Some t).
Proof.
  intros Hh Hno. unfold bearer_token.
  rewrite Hh, startswith_prefix, split_bearer.
  destruct (split_go_piece " " t Hno "") as [-> _]. reflexivity.
Qed.

(** X1.  [token_required] reads the token as the text between the first
    and the second space of an [Authorization] header that starts with
    [Bearer ]: what follows a second space is dropped, a header with
    another prefix gives no token, and the indexing [split(' ')[1]]
    never raises. *)
Theorem bearer_token_reads_second_piece (req : request) :
  (exists token, bearer_token req = inr token)
  /\ (forall t,
        headers req !! "Authorization" = Some ("Bearer " +:+ t) ->
        has_char " " t = false ->
        bearer_token req = inr (Some t))
  /\ (forall t rest,
        headers req !! "Authorization" = Some ("Bearer " +:+ t +:+ String " " rest) ->
        has_char " " t = false ->
        bearer_token req = inr (Some t))
  /\ (forall h,
        headers req !! "Authorization" = Some h ->
        startswith "Bearer " h = false ->
        bearer_token req = inr None).
Proof.
  split; [apply bearer_token_total |].
  split; [intros t; apply bearer_token_exact |].
  unfold bearer_token. split.
  - intros t rest Hh Hno. rewrite Hh, startswith_prefix, split_bearer.
    destruct (split_go_piece " " t Hno "") as [_ ->]. reflexivity.
  - intros h Hh Hs. rewrite Hh, Hs. reflexivity.
Qed.

Lemma bearer_token_reads_second_piece_witness :
  bearer_token (Sample.with_header "Bearer abc.def") = inr (Some "abc.def")
  /\ bearer_token (Sample.with_header "Bearer abc def") = inr (Some "abc")
  /\ bearer_token (Sample.with_header "bearer abc") = inr None.
Proof.
  split; [| split].
  - apply (bearer_token_reads_second_piece (Sample.with_header "Bearer abc.def"));
      reflexivity.
  - apply (bearer_token_reads_second_piece (Sample.with_header "Bearer abc def"))
      with (rest := "def"); reflexivity.
  - apply (bearer_token_reads_second_piece (Sample.with_header "bearer abc"))
      with (h := "bearer abc"); reflexivity.
Defined.

(** ** What [token_required] lets through *)

(** X2.  [token_required] runs the view only for a request whose bearer
    token verifies and whose payload names a subject and a user, and
    hands both to the view.  Every other request is answered 401 (no
    token, expired token, invalid token) or ends in the [KeyError] of a
    payload without [sub] or [username]; the view is not run and the
    store is left as it was. *)
Theorem token_required_outcomes (W : World) (f : request -> M response)
    (req : request) (st : store) :
  (exists t payload sub name,
     with_token req t /\ jwt_decode W t = Decoded payload
     /\ payload !! "sub" = Some sub /\ payload !! "username" = Some name
     /\ token_required W f req st = f (set_user req sub name) st)
  \/ (without_token req /\ token_required W f req st = (inr token_missing, st))
  \/ (exists t, with_token req t /\ jwt_decode W t = ExpiredSignatureError
        /\ token_required W f req st
           = (inr (authentication_failed "Token expired. Please log in again."), st))
  \/ (exists t, with_token req t /\ jwt_decode W t = InvalidTokenError
        /\ token_required W f req st
           = (inr (authentication_failed "Invalid token. Please log in again."), st))
  \/ (exists t payload key,
        with_token req t /\ jwt_decode W t = Decoded payload
        /\ payload !! key = None /\ (key = "sub" \/ key = "username")
        /\ token_required W f req st = (inl (key_error key), st)).
Proof.
  destruct (bearer_token_total req) as [token Hb].
  destruct (no_token token) eqn:Hn.
  { right. left. assert (without_token req) as Hw by (exists token; auto).
    split; [exact Hw | apply token_required_missing; exact Hw]. }
  destruct token as [t |]; [| discriminate].
  assert (with_token req t) as Ht.
  { split; [exact Hb |]. intros ->. discriminate. }
  destruct (jwt_decode W t) as [payload | |] eqn:Hd.
  - destruct (payload !! "sub") as [sub |] eqn:Hsub.
    + destruct (payload !! "username") as [name |] eqn:Hname.
      * left. exists t, payload, sub, name.
        repeat (split; [assumption |]).
        apply (token_required_verified W f req t payload sub name st); assumption.
      * do 4 right. exists t, payload, "username".
        repeat (split; [auto |]).
        destruct Ht as [Hb' Hne]. unfold token_required, bind, lift_exn.
        rewrite Hb'. unfold ret at 1. rewrite (no_token_some t Hne).
        unfold decode_token. change (default "" (Some t)) with t. rewrite Hd.
        unfold getitem. rewrite Hsub, Hname. reflexivity.
    + do 4 right. exists t, payload, "sub".
      repeat (split; [auto |]).
      destruct Ht as [Hb' Hne]. unfold token_required, bind, lift_exn.
      rewrite Hb'. unfold ret at 1. rewrite (no_token_some t Hne).
      unfold decode_token. change (default "" (Some t)) with t. rewrite Hd.
      unfold getitem. rewrite Hsub. reflexivity.
  - right. right. left. exists t. repeat (split; [assumption |]).
    apply (token_required_expired W f req t st); assumption.
  - do 3 right. left. exists t. repeat (split; [assumption |]).
    apply (token_required_invalid W f req t st); assumption.
Qed.

(** X3.  A token that verifies but whose payload lacks [sub] or
    [username] is not an authentication failure for [token_required]:
    the [KeyError] escapes, the view is not run, and the client gets the
    fixed 500 answer of [handle_generic_exception], without the text of
    the exception. *)
Theorem token_without_subject_is_500 (W : World) (f : request -> M response)
    (req : request) (st : store) (t : string) (payload : gmap string value) :
  with_token req t -> jwt_decode W t = Decoded payload ->
  payload !! "sub" = None \/ payload !! "username" = None ->
  dispatch W (token_required W f req) st = (internal_server_error, st).
Proof.
  intros [Hb Hne] Hd Hmissing.
  assert (exists key, token_required W f req st = (inl (key_error key), st))
    as [key Hk].
  { unfold token_required, bind, lift_exn.
    rewrite Hb. unfold ret at 1. rewrite (no_token_some t Hne).
    unfold decode_token. change (default "" (Some t)) with t. rewrite Hd.
    unfold getitem.
    destruct (payload !! "sub") as [sub |] eqn:Hsub.
    - destruct Hmissing as [H | H]; [discriminate |].
      rewrite H. exists "username". reflexivity.
    - exists "sub". reflexivity. }
  unfold dispatch. rewrite Hk. reflexivity.
Qed.

Lemma token_without_subject_is_500_witness :
  let W := with_decoder (Sample.world None)
             (fun _ => Decoded {[ "username" := VStr "bob" ]}) in
  dispatch W (route_update_company W "c1" (Sample.with_header "Bearer anything"))
    Sample.two_companies
  = (internal_server_error, Sample.two_companies).
Proof.
  intros W.
  apply (token_without_subject_is_500 W (update_company W "c1")
           (Sample.with_header "Bearer anything")
           Sample.two_companies "anything" {[ "username" := VStr "bob" ]}).
  - split; [reflexivity | discriminate].
  - reflexivity.
  - left. reflexivity.
Defined.

(** ** Logging in *)

Section LoginSteps.
Context (J : Issuer).

Lemma login_unread (req : request) (st : store) (msg : string) :
  json req = inl msg ->
  login J req st = (inl (AuthenticationError "Authentication failed"), st).
Proof.
  intros H. unfold login, try_except, bind, lift_exn, read_json. rewrite H.
  reflexivity.
Qed.

Lemma login_empty (req : request) (st : store) (data : value) :
  json req = inr data -> truthy data = false ->
  login J req st = (inl (ValidationError "No data provided"), st).
Proof.
  intros Hj H. unfold login, try_except, bind, lift_exn, read_json, raise_if.
  rewrite Hj. unfold ret at 1. rewrite H. reflexivity.
Qed.

Lemma login_not_a_dict (req : request) (st : store) (data : value) :
  json req = inr data -> truthy data = true -> (forall d, data <> VDict d) ->
  login J req st = (inl (AuthenticationError "Authentication failed"), st).
Proof.
  intros Hj H Hd. unfold login, try_except, bind, lift_exn, read_json, raise_if.
  rewrite Hj. unfold ret at 1. rewrite H.
  destruct data as [| | | | | | | d]; try reflexivity.
  destruct (Hd d eq_refl).
Qed.

Lemma login_dict (req : request) (st : store) (d : gmap string value) :
  json req = inr (VDict d) -> d <> ∅ ->
  let username := default VNone (d !! "username") in
  let password := default VNone (d !! "password") in
  login J req st
  = if negb (truthy username) || negb (truthy password)
    then (inl (ValidationError "Username and password are required"), st)
    else if eq_str username "admin" && eq_str password "password"
    then (inr {| body := jsonify
                   {[ "token" := VStr (generate_token J (VStr "admin-user-id")
                                         username 24);
                      "expires_in" := VInt JWT_ACCESS_TOKEN_EXPIRES;
                      "user" := VDict {[ "id" := VStr "admin-user-id";
                                         "username" := username ]} ]};
                 status := 200 |}, st)
    else (inl (AuthenticationError "Invalid credentials"), st).
Proof.
  intros Hj Hd username password.
  unfold login, try_except, bind, lift_exn, read_json, raise_if. rewrite Hj.
  unfold ret at 1. rewrite (truthy_dict d Hd). simpl negb. cbv iota.
  unfold ret at 1. unfold dict_get, lift_exn. unfold ret at 1. unfold ret at 1.
  fold username. fold password.
  destruct (negb (truthy username) || negb (truthy password)); [reflexivity |].
  unfold ret at 1.
  destruct (eq_str username "admin" && eq_str password "password"); reflexivity.
Qed.

End LoginSteps.

(** Every result of [login], with the store as it was. *)
Lemma login_results (J : Issuer) (req : request) (st : store) :
  exists r, login J req st = (r, st)
            /\ (r = inl (ValidationError "No data provided")
                \/ r = inl (AuthenticationError "Authentication failed")
                \/ r = inl (ValidationError "Username and password are required")
                \/ r = inl (AuthenticationError "Invalid credentials")
                \/ exists b, r = inr {| body := b; status := 200 |}).
Proof.
  destruct (json req) as [msg | data] eqn:Hj.
  { eexists. split; [apply (login_unread J req st msg Hj) | auto]. }
  destruct (truthy data) eqn:Ht.
  2:{ eexists. split; [apply (login_empty J req st data Hj Ht) | auto]. }
  assert ((exists d, data = VDict d) \/ (forall d, data <> VDict d)) as [[d ->] | Hnd].
  { destruct data; try (right; discriminate). left. eauto. }
  2:{ eexists. split; [apply (login_not_a_dict J req st data Hj Ht Hnd) | auto]. }
  assert (d <> ∅) as Hd.
  { intros ->. simpl in Ht. rewrite bool_decide_eq_true_2 in Ht by reflexivity.
    discriminate. }
  pose proof (login_dict J req st d Hj Hd) as Hl. cbv zeta in Hl.
  rewrite Hl.
  destruct (negb _ || negb _); [eexists; split; [reflexivity | auto] |].
  destruct (eq_str _ _ && eq_str _ _); eexists; (split; [reflexivity |]).
  - do 4 right. eexists. reflexivity.
  - auto.
Qed.

(** X4.  [login] never reaches the store and has four outcomes: an
    empty body, or one without a usable [username] and [password], is a
    [ValidationError] (400); the pair [admin] / [password] is answered
    200 with a token for the subject [admin-user-id] and [expires_in =
    86400]; any other pair is [AuthenticationError("Invalid
    credentials")] (401); and a body that [request.json] cannot
    deliver, or that is not an object, so that [data.get] raises, is
    [AuthenticationError("Authentication failed")] (401).  No request
    to [login] is answered with a 5xx status. *)
Theorem login_outcomes (W : World) (J : Issuer) (req : request) (st : store) :
  snd (login J req st) = st
  /\ (forall msg,
        json req = inl msg ->
        login J req st = (inl (AuthenticationError "Authentication failed"), st))
  /\ (forall data,
        json req = inr data -> truthy data = false ->
        login J req st = (inl (ValidationError "No data provided"), st))
  /\ (forall data,
        json req = inr data -> truthy data = true -> (forall d, data <> VDict d) ->
        login J req st = (inl (AuthenticationError "Authentication failed"), st))
  /\ (forall d,
        json req = inr (VDict d) -> d <> ∅ ->
        let username := default VNone (d !! "username") in
        let password := default VNone (d !! "password") in
        (truthy username = false \/ truthy password = false ->
         login J req st
         = (inl (ValidationError "Username and password are required"), st))
        /\ (username = VStr "admin" -> password = VStr "password" ->
            login J req st
            = (inr {| body := jsonify
                        {[ "token" := VStr (generate_token J (VStr "admin-user-id")
                                              (VStr "admin") 24);
                           "expires_in" := VInt 86400;
                           "user" := VDict {[ "id" := VStr "admin-user-id";
                                              "username" := VStr "admin" ]} ]};
                      status := 200 |}, st))
        /\ (truthy username = true -> truthy password = true ->
            ~ (username = VStr "admin" /\ password = VStr "password") ->
            login J req st = (inl (AuthenticationError "Invalid credentials"), st)))
  /\ (let code := status (fst (dispatch W (login J req) st)) in
      code = 200 \/ code = 400 \/ code = 401).
Proof.
  assert (forall d, json req = inr (VDict d) -> d <> ∅ ->
          let username := default VNone (d !! "username") in
          let password := default VNone (d !! "password") in
          (truthy username = false \/ truthy password = false ->
           login J req st
           = (inl (ValidationError "Username and password are required"), st))
          /\ (username = VStr "admin" -> password = VStr "password" ->
              login J req st
              = (inr {| body := jsonify
                          {[ "token" := VStr (generate_token J (VStr "admin-user-id")
                                                (VStr "admin") 24);
                             "expires_in" := VInt 86400;
                             "user" := VDict {[ "id" := VStr "admin-user-id";
                                                "username" := VStr "admin" ]} ]};
                        status := 200 |}, st))
          /\ (truthy username = true -> truthy password = true ->
              ~ (username = VStr "admin" /\ password = VStr "password") ->
              login J req st = (inl (AuthenticationError "Invalid credentials"), st)))
    as Hdict.
  { intros d Hj Hd username password.
    pose proof (login_dict J req st d Hj Hd) as Hl. cbv zeta in Hl.
    fold username in Hl. fold password in Hl.
    split; [| split].
    - intros [Hu | Hp]; rewrite Hl.
      + rewrite Hu. reflexivity.
      + rewrite Hp. rewrite orb_true_r. reflexivity.
    - intros Hu Hp. rewrite Hl, Hu, Hp. reflexivity.
    - intros Hu Hp Hnot. rewrite Hl, Hu, Hp. simpl.
      destruct (eq_str username "admin") eqn:Eu; [| reflexivity].
      destruct (eq_str password "password") eqn:Ep; [| reflexivity].
      apply eq_str_true in Eu. apply eq_str_true in Ep. tauto. }
  destruct (login_results J req st) as (r & Hr & Hcases).
  split; [rewrite Hr; reflexivity |].
  split; [apply login_unread |].
  split; [apply login_empty |].
  split; [apply login_not_a_dict |].
  split; [exact Hdict |].
  unfold dispatch. rewrite Hr.
  destruct Hcases as [-> | [-> | [-> | [-> | [b ->]]]]]; simpl; auto.
Qed.

Lemma login_outcomes_witness :
  let W := Sample.world None in
  let good := Sample.post (VDict {[ "username" := VStr "admin";
                                    "password" := VStr "password" ]}) in
  let bad := Sample.post (VDict {[ "username" := VStr "admin";
                                   "password" := VStr "guess" ]}) in
  login sample_issuer good Sample.empty_store
  = (inr {| body := jsonify
              {[ "token" := VStr "admin-token";
                 "expires_in" := VInt 86400;
                 "user" := VDict {[ "id" := VStr "admin-user-id";
                                    "username" := VStr "admin" ]} ]};
            status := 200 |}, Sample.empty_store)
  /\ login sample_issuer bad Sample.empty_store
     = (inl (AuthenticationError "Invalid credentials"), Sample.empty_store)
  /\ login sample_issuer (Sample.post (VList [VInt 1])) Sample.empty_store
     = (inl (AuthenticationError "Authentication failed"), Sample.empty_store).
Proof.
  intros W good bad.
  destruct (login_outcomes W sample_issuer good Sample.empty_store)
    as (_ & _ & _ & _ & Hgood & _).
  destruct (login_outcomes W sample_issuer bad Sample.empty_store)
    as (_ & _ & _ & _ & Hbad & _).
  destruct (login_outcomes W sample_issuer (Sample.post (VList [VInt 1]))
              Sample.empty_store) as (_ & _ & _ & Hlist & _).
  split; [| split].
  - apply (Hgood _ eq_refl); [discriminate | reflexivity | reflexivity].
  - apply (Hbad _ eq_refl); [discriminate | reflexivity | reflexivity |].
    intros [_ H]. discriminate H.
  - apply (Hlist (VList [VInt 1])); [reflexivity | reflexivity | discriminate].
Defined.

(** X5.  The token [login] issues, sent back as [Bearer <token>] and
    verified by the decoder, passes [token_required] as the subject
    [admin-user-id].  On the admin-only route it is let through exactly
    when [admin-user-id] is listed in [ADMIN_USER_IDS]; when the
    variable is unset the user who has just logged in as [admin] is
    answered 403. *)
Theorem login_token_at_the_gate (W : World) (J : Issuer) (company_id : string)
    (req : request) (st : store) (payload : gmap string value) :
  let token := generate_token J (VStr "admin-user-id") (VStr "admin") 24 in
  let admin := set_user req (VStr "admin-user-id") (VStr "admin") in
  headers req !! "Authorization" = Some ("Bearer " +:+ token) ->
  has_char " " token = false -> token <> "" ->
  jwt_decode W token = Decoded payload ->
  payload !! "sub" = Some (VStr "admin-user-id") ->
  payload !! "username" = Some (VStr "admin") ->
  (forall f, token_required W f req st = f admin st)
  /\ ("admin-user-id" ∈ admin_user_ids W ->
      route_delete_company W company_id req st
      = delete_company W company_id admin st)
  /\ ("admin-user-id" ∉ admin_user_ids W ->
      dispatch W (route_delete_company W company_id req) st = (forbidden, st))
  /\ (ADMIN_USER_IDS W = None ->
      dispatch W (route_delete_company W company_id req) st = (forbidden, st)).
Proof.
  intros token admin Hh Hno Hne Hd Hsub Hname.
  assert (with_token req token) as Ht.
  { split; [| exact Hne].
    apply bearer_token_exact; assumption. }
  assert (forall f, token_required W f req st = f admin st) as Hpass.
  { intros f. apply (token_required_verified W f req token payload); assumption. }
  assert ("admin-user-id" ∉ admin_user_ids W ->
          dispatch W (route_delete_company W company_id req) st = (forbidden, st))
    as Hforbidden.
  { intros Hnot. unfold dispatch, route_delete_company. rewrite Hpass.
    rewrite admin_required_rejects; [reflexivity |].
    intros (s & Hs & Hin). injection Hs as <-. exact (Hnot Hin). }
  split; [exact Hpass |]. split; [| split].
  - intros Hin. unfold route_delete_company. rewrite Hpass.
    rewrite admin_required_admits; [reflexivity |].
    exists "admin-user-id". auto.
  - exact Hforbidden.
  - intros Hunset. apply Hforbidden.
    rewrite (admin_user_ids_unset W (or_introl Hunset)).
    intros Hin. apply list_elem_of_singleton in Hin. discriminate.
Qed.

Lemma login_token_at_the_gate_witness :
  let req := Sample.with_header "Bearer admin-token" in
  dispatch (Sample.world None)
    (route_delete_company (Sample.world None) "c1" req) Sample.two_companies
  = (forbidden, Sample.two_companies)
  /\ route_delete_company (Sample.world (Some "root,admin-user-id")) "c1" req
       Sample.two_companies
     = delete_company (Sample.world (Some "root,admin-user-id")) "c1"
         (set_user req (VStr "admin-user-id") (VStr "admin")) Sample.two_companies.
Proof.
  intros req. split.
  - apply (login_token_at_the_gate (Sample.world None) sample_issuer "c1" req
             Sample.two_companies (Sample.token_payload "admin-user-id" "admin"));
      try reflexivity.
    discriminate.
  - apply (login_token_at_the_gate (Sample.world (Some "root,admin-user-id"))
             sample_issuer "c1" req
             Sample.two_companies (Sample.token_payload "admin-user-id" "admin"));
      try reflexivity.
    + discriminate.
    + apply list_elem_of_In. right. left. reflexivity.
Defined.

(** ** What a view does to the store *)

Section Effects.
Context (W : World).

Lemma read_only_ret {A} (a : A) : read_only (ret a).
Proof. intros st. reflexivity. Qed.

Lemma read_only_raise {A} (e : exn) : read_only (@raise A e).
Proof. intros st. reflexivity. Qed.

Lemma read_only_lift_exn {A} (r : exn + A) : read_only (lift_exn r).
Proof. intros st. destruct r; reflexivity. Qed.

Lemma read_only_raise_if (c : bool) (e : exn) : read_only (raise_if c e).
Proof. intros st. destruct c; reflexivity. Qed.

Lemma read_only_run_query (q : query) : read_only (run_query W q).
Proof. intros st. reflexivity. Qed.

Lemma read_only_bind {A B} (m : M A) (k : A -> M B) :
  read_only m -> (forall a, read_only (k a)) -> read_only (bind m k).
Proof.
  intros Hm Hk st. unfold bind. specialize (Hm st).
  destruct (m st) as [[e | a] st']; simpl in Hm; subst st'; [reflexivity | apply Hk].
Qed.

Lemma read_only_try_except {A} (m : M A) (h : exn -> M A) :
  read_only m -> (forall e, read_only (h e)) -> read_only (try_except m h).
Proof.
  intros Hm Hh st. unfold try_except. specialize (Hm st).
  destruct (m st) as [[e | a] st']; simpl in Hm; subst st'; [apply Hh | reflexivity].
Qed.

Lemma read_only_except_exception {A} (prefix : string) (e : exn) :
  read_only (@except_exception W A prefix e).
Proof.
  intros st. unfold except_exception. destruct (is_OSConstructionError e); reflexivity.
Qed.

Lemma read_only_except_clauses {A} (prefix : string) (e : exn) :
  read_only (@except_clauses W A prefix e).
Proof. intros st. apply except_clauses_store. Qed.

Lemma read_only_request_json (req : request) : read_only (request_json req).
Proof.
  unfold request_json.
  apply read_only_bind; [apply read_only_lift_exn |]. intros data.
  apply read_only_bind;
    [apply read_only_raise_if | intros; apply read_only_ret].
Qed.

Lemma read_only_check_company (company_id : string) :
  read_only (check_company W company_id).
Proof.
  unfold check_company. apply read_only_bind;
    [apply read_only_run_query | intros; apply read_only_raise_if].
Qed.

Lemma read_only_get_total_count (t : table) : read_only (get_total_count W t).
Proof.
  unfold get_total_count. apply read_only_bind;
    [apply read_only_run_query | intros; apply read_only_ret].
Qed.

Lemma read_only_writes (m : M response) :
  read_only m -> writes_only_on_success m.
Proof.
  intros Hm st x st' H. left. specialize (Hm st). rewrite H in Hm. exact Hm.
Qed.

Lemma writes_bind {A} (m : M A) (k : A -> M response) :
  read_only m -> (forall a, writes_only_on_success (k a)) ->
  writes_only_on_success (bind m k).
Proof.
  intros Hm Hk st x st' H. unfold bind in H. specialize (Hm st).
  destruct (m st) as [[e0 | a] st0]; simpl in Hm; subst st0.
  - injection H as _ <-. left. reflexivity.
  - exact (Hk a st x st' H).
Qed.

Lemma writes_try_except (m : M response) (h : exn -> M response) :
  writes_only_on_success m -> (forall e, read_only (h e)) ->
  writes_only_on_success (try_except m h).
Proof.
  intros Hm Hh st x st' H. unfold try_except in H.
  destruct (m st) as [[e0 | a] st0] eqn:Hst.
  - destruct (Hm st _ st0 Hst) as [-> | (r & Hr & _)]; [| discriminate].
    left. pose proof (Hh e0 st) as Hro. rewrite H in Hro. exact Hro.
  - injection H as <- <-. exact (Hm st _ st0 Hst).
Qed.

(** An insert always returns the row it stored, so the view answers
    201. *)
Lemma writes_insert (t : table) (r : gmap string value) (msg : string) :
  writes_only_on_success
    (let* response := run_insert W t r in first_row response msg 201).
Proof.
  intros st x st' H. unfold bind, run_insert, insert_row, first_row in H.
  simpl in H. injection H as <- _. right. eexists. split; [reflexivity | auto].
Qed.

Lemma set_rows_same (t : table) (st : store) : set_rows t (rows t st) st = st.
Proof. destruct st, t; reflexivity. Qed.

Lemma filter_none {X} (p : X -> bool) (l : list X) :
  List.filter p l = [] -> List.filter (fun x => negb (p x)) l = l.
Proof.
  induction l as [| x l IH]; simpl; [reflexivity |].
  destruct (p x); [discriminate |]. intros H. simpl. rewrite (IH H). reflexivity.
Qed.

Lemma patch_none (fs : list condition) (changes : gmap string value)
    (l : list (gmap string value)) :
  List.filter (selected W fs) l = [] -> List.map (patch W fs changes) l = l.
Proof.
  induction l as [| r l IH]; simpl; [reflexivity |]. unfold patch at 1.
  destruct (selected W fs r); [discriminate |]. intros H. rewrite (IH H). reflexivity.
Qed.

Lemma filter_true {X} (l : list X) : List.filter (fun _ => true) l = l.
Proof.
  induction l as [| x l IH]; simpl; [reflexivity | rewrite IH; reflexivity].
Qed.

Lemma references_nothing (r : gmap string value) : references [] r = false.
Proof. unfold references. destruct (r !! "company_id"); reflexivity. Qed.

Lemma cascade_nothing (st : store) : cascade [] st = st.
Proof.
  assert (forall l : list (gmap string value),
            List.filter (fun r => negb (references [] r)) l = l) as Hkeep.
  { intros l. induction l as [| r l IH]; simpl; [reflexivity |].
    rewrite references_nothing. simpl. rewrite IH. reflexivity. }
  unfold cascade. rewrite !Hkeep. destruct st. reflexivity.
Qed.

(** An update that selects no row changes nothing, so the error that
    follows it finds the store as it was. *)
Lemma writes_update (t : table) (changes : gmap string value)
    (fs : list condition) (msg : string) :
  writes_only_on_success
    (let* response := run_update W t changes fs in first_row response msg 200).
Proof.
  intros st x st' H. unfold bind, run_update, update_rows, first_row in H.
  simpl in H.
  destruct (List.filter (selected W fs) (rows t st)) eqn:Hf; simpl in H.
  - injection H as _ <-. left.
    rewrite (patch_none fs changes _ Hf). apply set_rows_same.
  - injection H as <- _. right. eexists. split; [reflexivity | auto].
Qed.

Lemma delete_rows_nothing (t : table) (fs : list condition) (st : store) :
  List.filter (selected W fs) (rows t st) = [] ->
  delete_rows W t fs st = ({| data := []; count := 0 |}, st).
Proof.
  intros Hf. unfold delete_rows. cbv zeta.
  rewrite Hf, (filter_none _ _ Hf), set_rows_same.
  destruct t; rewrite ?cascade_nothing; reflexivity.
Qed.

Lemma delete_rows_data (t : table) (fs : list condition) (st : store) :
  data (fst (delete_rows W t fs st)) = List.filter (selected W fs) (rows t st).
Proof. reflexivity. Qed.

(** The same for a delete. *)
Lemma writes_delete (company_id : string) (msg : string) (ok : response) :
  status ok = 200 ->
  writes_only_on_success
    (let* response := run_delete W os_construction [Eq "id" (VStr company_id)] in
     match data response with
     | [] => raise (DatabaseConnectionError msg)
     | _ :: _ => ret ok
     end).
Proof.
  intros Hok st x st' H. unfold bind, run_delete in H.
  destruct (List.filter (selected W [Eq "id" (VStr company_id)])
              (rows os_construction st)) eqn:Hf.
  - rewrite (delete_rows_nothing _ _ _ Hf) in H. injection H as _ <-.
    left. reflexivity.
  - pose proof (delete_rows_data os_construction [Eq "id" (VStr company_id)] st)
      as Hd.
    destruct (delete_rows W os_construction [Eq "id" (VStr company_id)] st)
      as [res st2].
    cbn [fst] in Hd. rewrite Hd, Hf in H. injection H as <- _.
    right. exists ok. auto.
Qed.

End Effects.

Section Routes.
Context (W : World).

Lemma read_only_token_required (f : request -> M response) (req : request) :
  (forall r, read_only (f r)) -> read_only (token_required W f req).
Proof.
  intros Hf. unfold token_required.
  apply read_only_bind; [apply read_only_lift_exn |]. intros token.
  destruct (no_token token); [apply read_only_ret |].
  destruct (decode_token W (default "" token)) as [e | payload].
  - destruct e; try apply read_only_raise. apply read_only_ret.
  - apply read_only_bind; [apply read_only_lift_exn |]. intros sub.
    apply read_only_bind; [apply read_only_lift_exn |]. intros name. apply Hf.
Qed.

Lemma writes_token_required (f : request -> M response) (req : request) :
  (forall r, writes_only_on_success (f r)) ->
  writes_only_on_success (token_required W f req).
Proof.
  intros Hf. unfold token_required.
  apply writes_bind; [apply read_only_lift_exn |]. intros token.
  destruct (no_token token); [apply read_only_writes, read_only_ret |].
  destruct (decode_token W (default "" token)) as [e | payload].
  - apply read_only_writes.
    destruct e; try apply read_only_raise. apply read_only_ret.
  - apply writes_bind; [apply read_only_lift_exn |]. intros sub.
    apply writes_bind; [apply read_only_lift_exn |]. intros name. apply Hf.
Qed.

Lemma writes_admin_required (f : request -> M response) (req : request) :
  (forall r, writes_only_on_success (f r)) ->
  writes_only_on_success (admin_required W f req).
Proof.
  intros Hf. unfold admin_required.
  destruct (negb (is_admin W req)); [apply read_only_writes, read_only_ret | apply Hf].
Qed.

Lemma writes_create_company (req : request) :
  writes_only_on_success (create_company W req).
Proof.
  unfold create_company.
  apply writes_try_except; [| intros; apply read_only_except_clauses].
  apply writes_bind; [apply read_only_request_json |]. intros data.
  apply writes_bind; [apply read_only_lift_exn |]. intros values.
  apply writes_insert.
Qed.

Lemma writes_update_company (company_id : string) (req : request) :
  writes_only_on_success (update_company W company_id req).
Proof.
  unfold update_company.
  apply writes_try_except; [| intros; apply read_only_except_clauses].
  apply writes_bind; [apply read_only_request_json |]. intros data.
  apply writes_bind; [apply read_only_lift_exn |]. intros values.
  apply writes_bind; [apply read_only_check_company |]. intros _.
  apply writes_update.
Qed.

Lemma writes_delete_company (company_id : string) (req : request) :
  writes_only_on_success (delete_company W company_id req).
Proof.
  unfold delete_company.
  apply writes_try_except; [| intros; apply read_only_except_exception].
  apply writes_bind; [apply read_only_check_company |]. intros _.
  apply writes_delete. reflexivity.
Qed.

Lemma writes_add_company_service (company_id : string) (req : request) :
  writes_only_on_success (add_company_service W company_id req).
Proof.
  unfold add_company_service.
  apply writes_try_except; [| intros; apply read_only_except_clauses].
  apply writes_bind; [apply read_only_request_json |]. intros data.
  apply writes_bind; [apply read_only_lift_exn |]. intros values.
  apply writes_bind; [apply read_only_check_company |]. intros _.
  apply writes_insert.
Qed.

Lemma writes_add_company_project (company_id : string) (req : request) :
  writes_only_on_success (add_company_project W company_id req).
Proof.
  unfold add_company_project.
  apply writes_try_except; [| intros; apply read_only_except_clauses].
  apply writes_bind; [apply read_only_request_json |]. intros data.
  apply writes_bind; [apply read_only_lift_exn |]. intros values.
  apply writes_bind; [apply read_only_check_company |]. intros _.
  apply writes_bind; [apply read_only_lift_exn |]. intros d1.
  apply writes_bind; [apply read_only_lift_exn |]. intros d2.
  apply writes_insert.
Qed.

Lemma writes_add_company_employee (company_id : string) (req : request) :
  writes_only_on_success (add_company_employee W company_id req).
Proof.
  unfold add_company_employee.
  apply writes_try_except; [| intros; apply read_only_except_clauses].
  apply writes_bind; [apply read_only_request_json |]. intros data.
  apply writes_bind; [apply read_only_lift_exn |]. intros values.
  apply writes_bind; [apply read_only_check_company |]. intros _.
  apply writes_bind; [apply read_only_lift_exn |]. intros d1.
  apply writes_insert.
Qed.

(** Every exception is answered with a status that is neither 200 nor
    201. *)
Lemma exception_status (e : exn) :
  let code := status (if is_OSConstructionError e then handle_custom_exception W e
                      else handle_generic_exception e) in
  code <> 200 /\ code <> 201.
Proof. destruct e; simpl; split; discriminate. Qed.

Lemma dispatch_writes (view : M response) (st st' : store) (r : response) :
  writes_only_on_success view ->
  dispatch W view st = (r, st') ->
  status r <> 200 -> status r <> 201 -> st' = st.
Proof.
  intros Hv Hd H200 H201. unfold dispatch in Hd.
  destruct (view st) as [[e | r0] st0] eqn:Hst.
  - injection Hd as <- <-.
    destruct (Hv st _ st0 Hst) as [-> | (r1 & Hr & _)];
      [reflexivity | discriminate].
  - injection Hd as <- <-.
    destruct (Hv st _ st0 Hst) as [-> | (r1 & Hr & Hcode)]; [reflexivity |].
    injection Hr as <-. destruct Hcode; contradiction.
Qed.

End Routes.

(** X6.  A request to one of the six mutating routes that is not
    answered 200 or 201 (a 400, 401, 403, 404, 500 or 503, whether
    raised by the view or returned by a decorator) leaves the store
    exactly as it was. *)
Theorem unsuccessful_request_changes_nothing (W : World) (company_id : string)
    (route : request -> M response) (req : request) (st st' : store)
    (r : response) :
  route ∈ mutating_routes W company_id ->
  dispatch W (route req) st = (r, st') ->
  status r <> 200 -> status r <> 201 ->
  st' = st.
Proof.
  intros Hin. apply dispatch_writes.
  unfold mutating_routes in Hin.
  repeat (apply elem_of_cons in Hin; destruct Hin as [-> | Hin]).
  - apply writes_token_required. intros r0. apply writes_create_company.
  - apply writes_token_required. intros r0. apply writes_update_company.
  - apply writes_token_required. intros r0.
    apply writes_admin_required. intros r1. apply writes_delete_company.
  - apply writes_token_required. intros r0. apply writes_add_company_service.
  - apply writes_token_required. intros r0. apply writes_add_company_project.
  - apply writes_token_required. intros r0. apply writes_add_company_employee.
  - apply elem_of_nil in Hin. destruct Hin.
Qed.

Lemma unsuccessful_request_changes_nothing_witness :
  let W := Sample.world (Some "admin-user-id") in
  let req :=
    {| headers := {[ "Authorization" := "Bearer user-token" ]}; args := ∅;
       json := inr (VDict {[ "description" := VStr "no name" ]});
       user_id := None; username := None |} in
  status (fst (dispatch W (route_add_company_service W "c1" req)
                 Sample.two_companies)) = 400
  /\ snd (dispatch W (route_add_company_service W "c1" req) Sample.two_companies)
     = Sample.two_companies.
Proof.
  intros W req. split; [vm_compute; reflexivity |].
  apply (unsuccessful_request_changes_nothing W "c1"
           (route_add_company_service W "c1") req Sample.two_companies _
           (fst (dispatch W (route_add_company_service W "c1" req)
                   Sample.two_companies))).
  - unfold mutating_routes. do 3 apply list_elem_of_further. apply list_elem_of_here.
  - apply surjective_pairing.
  - vm_compute. discriminate.
  - vm_compute. discriminate.
Defined.

(** X7.  The five GET views and [login] never change the store,
    whatever the request and whatever they answer. *)
Theorem reading_views_are_read_only (W : World) (J : Issuer) (company_id : string)
    (req : request) :
  read_only (get_companies W req)
  /\ read_only (get_company W company_id req)
  /\ read_only (get_company_services W company_id req)
  /\ read_only (get_company_projects W company_id req)
  /\ read_only (get_company_employees W company_id req)
  /\ read_only (login J req).
Proof.
  repeat split.
  - unfold get_companies.
    apply read_only_try_except; [| intros; apply read_only_except_exception].
    apply read_only_bind; [apply read_only_lift_exn |]. intros [page per_page].
    apply read_only_bind; [apply read_only_get_total_count |]. intros total.
    apply read_only_bind; [apply read_only_run_query |]. intros response.
    apply read_only_bind; [apply read_only_lift_exn |]. intros result.
    apply read_only_ret.
  - unfold get_company.
    apply read_only_try_except; [| intros; apply read_only_except_exception].
    apply read_only_bind; [apply read_only_run_query |]. intros response.
    destruct (data response); [apply read_only_raise | apply read_only_ret].
  - unfold get_company_services.
    apply read_only_try_except; [| intros; apply read_only_except_exception].
    apply read_only_bind; [apply read_only_lift_exn |]. intros [page per_page].
    apply read_only_bind; [apply read_only_check_company |]. intros _.
    apply read_only_bind; [apply read_only_get_total_count |]. intros total.
    apply read_only_bind; [apply read_only_run_query |]. intros response.
    apply read_only_bind; [apply read_only_lift_exn |]. intros result.
    apply read_only_ret.
  - unfold get_company_projects.
    apply read_only_try_except; [| intros; apply read_only_except_exception].
    apply read_only_bind; [apply read_only_lift_exn |]. intros [page per_page].
    apply read_only_bind; [apply read_only_check_company |]. intros _.
    apply read_only_bind; [apply read_only_lift_exn |]. intros query.
    apply read_only_bind; [apply read_only_run_query |]. intros total_response.
    apply read_only_bind; [apply read_only_run_query |]. intros response.
    apply read_only_bind; [apply read_only_lift_exn |]. intros result.
    apply read_only_ret.
  - unfold get_company_employees.
    apply read_only_try_except; [| intros; apply read_only_except_exception].
    apply read_only_bind; [apply read_only_lift_exn |]. intros [page per_page].
    apply read_only_bind; [apply read_only_check_company |]. intros _.
    apply read_only_bind; [apply read_only_run_query |]. intros count_response.
    apply read_only_bind; [apply read_only_run_query |]. intros response.
    apply read_only_bind; [apply read_only_lift_exn |]. intros result.
    apply read_only_ret.
  - intros st. destruct (login_results J req st) as (r & -> & _). reflexivity.
Qed.

(** ** Creating and reading a company *)

Section Create.
Context (W : World).

Lemma validate_model_length (fields : list Models.field) (d : gmap string value) :
  forall values errors,
    (length errors <= length (snd (Models.validate_model W fields d values errors)))%nat.
Proof.
  induction fields as [| f fields IH]; intros values errors; simpl; [lia |].
  destruct (d !! Models.f_name f) as [v |].
  - destruct (Models.validate_field W f values v); [apply IH |].
    etransitivity; [| apply IH]. rewrite length_app. simpl. lia.
  - destruct (Models.f_required f); [| apply IH].
    etransitivity; [| apply IH]. rewrite length_app. simpl. lia.
Qed.

(** When validation adds no error, the validated values are those it
    started from and one for each field of the schema. *)
Lemma validate_model_dom (fields : list Models.field) (d : gmap string value) :
  forall values errors values' errors',
    Models.validate_model W fields d values errors = (values', errors') ->
    length errors' = length errors ->
    forall k, is_Some (values' !! k)
              <-> is_Some (values !! k) \/ k ∈ field_names fields.
Proof.
  induction fields as [| f fields IH]; intros values errors values' errors' Hv Hlen k.
  - simpl in Hv. injection Hv as <- <-. unfold field_names. simpl.
    rewrite elem_of_nil. tauto.
  - simpl in Hv. unfold field_names. simpl. rewrite elem_of_cons.
    fold (field_names fields).
    assert (forall e vs, Models.validate_model W fields d vs (errors ++ [e])
                         = (values', errors') -> False) as Hgrow.
    { intros e vs H.
      pose proof (validate_model_length fields d vs (errors ++ [e])) as Hl.
      rewrite H in Hl. simpl in Hl. rewrite length_app in Hl. simpl in Hl. lia. }
    assert (forall x, Models.validate_model W fields d
                        (<[Models.f_name f := x]> values) errors
                      = (values', errors') ->
            is_Some (values' !! k)
            <-> is_Some (values !! k)
                \/ (k = Models.f_name f \/ k ∈ field_names fields)) as Hset.
    { intros x H. rewrite (IH _ _ _ _ H Hlen k).
      rewrite lookup_insert_is_Some.
      destruct (decide (Models.f_name f = k)) as [<- | Hne]; [tauto |].
      intuition congruence. }
    destruct (d !! Models.f_name f) as [v |].
    + destruct (Models.validate_field W f values v) as [v' | m].
      * exact (Hset v' Hv).
      * destruct (Hgrow _ _ Hv).
    + destruct (Models.f_required f).
      * destruct (Hgrow _ _ Hv).
      * exact (Hset _ Hv).
Qed.

(** A model that validates holds exactly the fields of its schema. *)
Lemma model_dict_dom (fields : list Models.field) (d values : gmap string value) :
  Models.model_dict W fields d = inr values ->
  forall k, is_Some (values !! k) <-> k ∈ field_names fields.
Proof.
  unfold Models.model_dict. intros Hm k.
  destruct (Models.validate_model W fields d ∅ []) as [values' errors] eqn:Hv.
  destruct errors; [| discriminate]. injection Hm as ->.
  rewrite (validate_model_dom fields d _ _ _ _ Hv eq_refl k).
  rewrite lookup_empty. split; [intros [[x Hx] | H]; [discriminate | exact H] | auto].
Qed.

Lemma stamp_lookup (values : gmap string value) (k : string) :
  stamp W values !! k
  = if decide (k = "updated_at") then Some (VStr (utcnow_isoformat W))
    else if decide (k = "created_at") then Some (VStr (utcnow_isoformat W))
    else values !! k.
Proof.
  unfold stamp. cbv zeta.
  destruct (decide (k = "updated_at")) as [-> | Hu]; [apply lookup_insert_eq |].
  rewrite lookup_insert_ne by congruence.
  destruct (decide (k = "created_at")) as [-> | Hc]; [apply lookup_insert_eq |].
  rewrite lookup_insert_ne by congruence. reflexivity.
Qed.

Lemma with_id_lookup (t : table) (st : store) (r : gmap string value) (k : string) :
  r !! "id" = None ->
  with_id W t st r !! k
  = if decide (k = "id") then Some (VStr (uuid_generate W (rows t st)))
    else r !! k.
Proof.
  intros Hid. unfold with_id. rewrite Hid.
  destruct (decide (k = "id")) as [-> | Hne]; [apply lookup_insert_eq |].
  rewrite lookup_insert_ne by congruence. reflexivity.
Qed.

Lemma create_company_created (req : request) (st : store)
    (d values : gmap string value) :
  json req = inr (VDict d) -> d <> ∅ ->
  Models.model_dict W (Models.CompanyCreate W) d = inr values ->
  create_company W req st
  = (inr {| body := jsonify (created_company W st values); status := 201 |},
     set_rows os_construction (companies st ++ [created_company W st values]) st).
Proof.
  intros Hj Hd Hm. unfold create_company. apply try_except_inr.
  rewrite (bind_inr _ _ st st (VDict d)).
  2:{ apply request_json_given; [exact Hj | apply truthy_dict; exact Hd]. }
  rewrite (bind_inr _ _ st st values) by (simpl; rewrite Hm; reflexivity).
  reflexivity.
Qed.

Lemma CompanyCreate_names :
  field_names (Models.CompanyCreate W)
  = ["company_name"; "company_address"; "company_email"; "company_phone";
     "website"; "description"; "founded_year"; "is_verified"].
Proof. reflexivity. Qed.

Lemma no_id_in_model (fields : list Models.field) (d values : gmap string value)
    (k : string) :
  Models.model_dict W fields d = inr values ->
  k ∉ field_names fields -> values !! k = None.
Proof.
  intros Hm Hk. destruct (values !! k) as [x |] eqn:Hx; [| reflexivity].
  destruct Hk. apply (model_dict_dom fields d values Hm k). eauto.
Qed.

Lemma get_company_rows (company_id : string) (req : request) (st : store) :
  get_company W company_id req st
  = match company_rows W company_id st with
    | [] => (inl (not_found company_id), st)
    | r :: _ => (inr {| body := jsonify r; status := 200 |}, st)
    end.
Proof.
  unfold get_company, try_except, bind, run_query, execute. simpl.
  fold (company_rows W company_id st).
  assert (forall l : list (gmap string value), List.map (project "*") l = l) as Hid.
  { intros l. induction l as [| r l IH]; simpl; [reflexivity |]. rewrite IH.
    reflexivity. }
  rewrite Hid. destruct (company_rows W company_id st); reflexivity.
Qed.

End Create.

(** X8.  [create_company] with a payload that validates answers 201
    with the row it appends to [os_construction]: the eight fields of
    [CompanyCreate] as validated, [created_at] and [updated_at] both set
    to the current time, and an [id] given by the store.  Nothing else
    is stored: a key of the payload that is not a field of the schema,
    such as a client-chosen [id] or [created_at], is dropped.  The other
    tables are untouched. *)
Theorem create_company_stores_schema_columns (W : World) (req : request)
    (st : store) (d values : gmap string value) :
  json req = inr (VDict d) -> d <> ∅ ->
  Models.model_dict W (Models.CompanyCreate W) d = inr values ->
  let row := created_company W st values in
  let st' := snd (create_company W req st) in
  fst (create_company W req st) = inr {| body := jsonify row; status := 201 |}
  /\ companies st' = companies st ++ [row]
  /\ services st' = services st /\ projects st' = projects st
  /\ employees st' = employees st
  /\ row !! "id" = Some (VStr (uuid_generate W (companies st)))
  /\ row !! "created_at" = Some (VStr (utcnow_isoformat W))
  /\ row !! "updated_at" = Some (VStr (utcnow_isoformat W))
  /\ (forall k, k ∈ field_names (Models.CompanyCreate W) ->
        is_Some (values !! k) /\ row !! k = values !! k)
  /\ (forall k, is_Some (row !! k) ->
        k ∈ field_names (Models.CompanyCreate W)
        \/ k = "id" \/ k = "created_at" \/ k = "updated_at").
Proof.
  intros Hj Hd Hm row st'.
  assert (forall k, row !! k
                    = if decide (k = "id")
                      then Some (VStr (uuid_generate W (companies st)))
                      else stamp W values !! k) as Hrow.
  { intros k. apply (with_id_lookup W os_construction st).
    rewrite stamp_lookup. simpl.
    apply (no_id_in_model W _ d values "id" Hm).
    rewrite CompanyCreate_names. intros Hin.
    repeat (apply elem_of_cons in Hin; destruct Hin as [Hin | Hin];
            [discriminate |]).
    apply elem_of_nil in Hin. exact Hin. }
  subst st'. rewrite (create_company_created W req st d values Hj Hd Hm).
  fold row. split; [reflexivity |]. split; [reflexivity |].
  split; [reflexivity |]. split; [reflexivity |]. split; [reflexivity |].
  split; [rewrite Hrow; reflexivity |].
  split; [rewrite Hrow, stamp_lookup; reflexivity |].
  split; [rewrite Hrow, stamp_lookup; reflexivity |].
  split.
  - intros k Hk. split; [apply (model_dict_dom W _ d values Hm k); exact Hk |].
    rewrite Hrow, stamp_lookup. rewrite CompanyCreate_names in Hk.
    repeat (apply elem_of_cons in Hk; destruct Hk as [-> | Hk]; [reflexivity |]).
    apply elem_of_nil in Hk. destruct Hk.
  - intros k Hk. rewrite Hrow, stamp_lookup in Hk.
    destruct (decide (k = "id")); [auto |].
    destruct (decide (k = "updated_at")); [auto |].
    destruct (decide (k = "created_at")); [auto |].
    left. apply (model_dict_dom W _ d values Hm k). exact Hk.
Qed.

Lemma create_company_stores_schema_columns_witness :
  let W := Sample.world None in
  let row := created_company W Sample.two_companies Cases.stone_validated in
  fst (create_company W (Sample.post (VDict Cases.stone)) Sample.two_companies)
  = inr {| body := jsonify row; status := 201 |}
  /\ row !! "id" = Some (VStr "id-2")
  /\ row !! "created_at" = Some (VStr "2024-05-01T12:00:00")
  /\ row !! "is_verified" = Some (VBool false).
Proof.
  intros W row.
  assert (Models.model_dict W (Models.CompanyCreate W) Cases.stone
          = inr Cases.stone_validated) as Hm by (vm_compute; reflexivity).
  destruct (create_company_stores_schema_columns W (Sample.post (VDict Cases.stone))
              Sample.two_companies Cases.stone Cases.stone_validated
              eq_refl ltac:(discriminate) Hm)
    as (Hfst & _ & _ & _ & _ & Hid & Hcreated & _ & Hfields & _).
  split; [exact Hfst |]. split; [exact Hid |]. split; [exact Hcreated |].
  destruct (Hfields "is_verified") as [_ Hv].
  - unfold field_names. simpl. do 7 apply list_elem_of_further. apply list_elem_of_here.
  - fold row in Hv. rewrite Hv. reflexivity.
Defined.

Section RoundTrip.
Context (W : World).

Lemma company_rows_app (company_id : string) (st : store) (r : gmap string value) :
  company_rows W company_id (set_rows os_construction (companies st ++ [r]) st)
  = company_rows W company_id st
    ++ (if selected W [Eq "id" (VStr company_id)] r then [r] else []).
Proof.
  unfold company_rows. simpl companies.
  rewrite List.filter_app. simpl. reflexivity.
Qed.

End RoundTrip.

(** X9.  Create, then get: when the id the store gives to the new row
    is not the id of a company already stored, [get_company] with that
    id on the store left by [create_company] answers 200 with the very
    row [create_company] answered. *)
Theorem create_then_get_company (W : World) (req req' : request) (st : store)
    (d values : gmap string value) :
  json req = inr (VDict d) -> d <> ∅ ->
  Models.model_dict W (Models.CompanyCreate W) d = inr values ->
  ~ company_exists (uuid_generate W (companies st)) st ->
  let new_id := uuid_generate W (companies st) in
  let st' := snd (create_company W req st) in
  exists row,
    create_company W req st = (inr {| body := jsonify row; status := 201 |}, st')
    /\ get_company W new_id req' st'
       = (inr {| body := jsonify row; status := 200 |}, st').
Proof.
  intros Hj Hd Hm Hfresh new_id st'. exists (created_company W st values).
  subst st'. rewrite (create_company_created W req st d values Hj Hd Hm).
  split; [reflexivity |]. cbn [snd].
  rewrite get_company_rows, company_rows_app.
  apply (company_rows_nil W) in Hfresh. fold new_id in Hfresh. rewrite Hfresh.
  assert (selected W [Eq "id" (VStr new_id)] (created_company W st values) = true)
    as ->; [| reflexivity].
  apply selected_id. unfold created_company.
  rewrite (with_id_lookup W os_construction st).
  - reflexivity.
  - rewrite stamp_lookup. simpl.
    apply (no_id_in_model W _ d values "id" Hm).
    rewrite CompanyCreate_names. intros Hin.
    repeat (apply elem_of_cons in Hin; destruct Hin as [Hin | Hin];
            [discriminate |]).
    apply elem_of_nil in Hin. exact Hin.
Qed.

Lemma create_then_get_company_witness :
  let W := Sample.world None in
  let st' := snd (create_company W (Sample.post (VDict Cases.stone))
                    Sample.two_companies) in
  exists row,
    create_company W (Sample.post (VDict Cases.stone)) Sample.two_companies
    = (inr {| body := jsonify row; status := 201 |}, st')
    /\ get_company W "id-2" (Sample.get ∅) st'
       = (inr {| body := jsonify row; status := 200 |}, st').
Proof.
  intros W st'.
  assert (Models.model_dict W (Models.CompanyCreate W) Cases.stone
          = inr Cases.stone_validated) as Hm by (vm_compute; reflexivity).
  apply (create_then_get_company W (Sample.post (VDict Cases.stone)) (Sample.get ∅)
           Sample.two_companies Cases.stone Cases.stone_validated
           eq_refl ltac:(discriminate) Hm).
  apply (absent_company W). reflexivity.
Defined.

(** X10.  [get_company] answers 200 with a stored row whose [id] is the
    one asked for, the first such row, and raises
    [ResourceNotFoundError] (404) exactly when the store has none. *)
Theorem get_company_found_or_404 (W : World) (company_id : string)
    (req : request) (st : store) :
  (company_exists company_id st ->
   exists r rest,
     company_rows W company_id st = r :: rest
     /\ r ∈ companies st /\ r !! "id" = Some (VStr company_id)
     /\ get_company W company_id req st
        = (inr {| body := jsonify r; status := 200 |}, st))
  /\ (~ company_exists company_id st ->
      get_company W company_id req st = (inl (not_found company_id), st)
      /\ dispatch W (get_company W company_id req) st
         = (error_response W "Not Found" (not_found company_id) 404, st)).
Proof.
  split.
  - intros Hex. destruct (company_rows W company_id st) as [| r rest] eqn:Hr.
    { apply company_rows_nil in Hr. contradiction. }
    exists r, rest. split; [reflexivity |].
    assert (In r (company_rows W company_id st)) as Hin
      by (rewrite Hr; left; reflexivity).
    apply filter_In in Hin. destruct Hin as [Hin Hsel].
    split; [apply list_elem_of_In; exact Hin |].
    split; [apply selected_id in Hsel; exact Hsel |].
    rewrite get_company_rows, Hr. reflexivity.
  - intros Hno. apply (company_rows_nil W) in Hno.
    assert (get_company W company_id req st = (inl (not_found company_id), st)) as Hg
      by (rewrite get_company_rows, Hno; reflexivity).
    split; [exact Hg |]. unfold dispatch. rewrite Hg. reflexivity.
Qed.

Lemma get_company_found_or_404_witness :
  let W := Sample.world None in
  get_company W "c2" (Sample.get ∅) Sample.two_companies
  = (inr {| body := jsonify (Sample.company "c2" "Brick and Co" false);
            status := 200 |}, Sample.two_companies)
  /\ get_company W "zz" (Sample.get ∅) Sample.two_companies
     = (inl (not_found "zz"), Sample.two_companies).
Proof.
  intros W.
  destruct (get_company_found_or_404 W "c2" (Sample.get ∅) Sample.two_companies)
    as [Hfound _].
  destruct (get_company_found_or_404 W "zz" (Sample.get ∅) Sample.two_companies)
    as [_ Hmissing].
  split.
  - destruct Hfound as (r & rest & Hrows & _ & _ & Hget).
    + exists (Sample.company "c2" "Brick and Co" false).
      split; [apply list_elem_of_further, list_elem_of_here | reflexivity].
    + assert (company_rows W "c2" Sample.two_companies
              = [Sample.company "c2" "Brick and Co" false]) as Hc
        by (vm_compute; reflexivity).
      rewrite Hc in Hrows. injection Hrows as <- _. exact Hget.
  - apply Hmissing. apply (absent_company W). reflexivity.
Defined.

(** ** More on updating a company *)

Section UpdateMore.
Context (W : World).

Lemma CompanyUpdate_names :
  field_names (Models.CompanyUpdate W)
  = ["company_name"; "company_address"; "company_email"; "company_phone";
     "website"; "description"; "founded_year"; "is_verified"].
Proof. reflexivity. Qed.

(** The columns [update_company] sends are fields of [CompanyUpdate],
    or [updated_at]. *)
Lemma update_db_data_columns (d values : gmap string value) (k : string) :
  Models.model_dict W (Models.CompanyUpdate W) d = inr values ->
  k ∉ field_names (Models.CompanyUpdate W) -> k <> "updated_at" ->
  update_db_data W values !! k = None.
Proof.
  intros Hm Hk Hu.
  destruct (update_db_data W values !! k) as [x |] eqn:Hx; [| reflexivity].
  apply update_db_data_lookup in Hx.
  destruct Hx as [[Hx _] | (_ & Hv & _)]; [contradiction |].
  rewrite (no_id_in_model W _ d values k Hm Hk) in Hv. discriminate.
Qed.

Lemma not_a_company_field (k : string) :
  k = "id" \/ k = "created_at" ->
  (k ∉ field_names (Models.CompanyUpdate W)) /\ k <> "updated_at".
Proof.
  rewrite CompanyUpdate_names. intros [-> | ->]; split; try discriminate;
    intros Hin;
    repeat (apply elem_of_cons in Hin; destruct Hin as [Hin | Hin];
            [discriminate |]);
    apply elem_of_nil in Hin; exact Hin.
Qed.

Lemma patch_other (company_id : string) (changes r : gmap string value) :
  r !! "id" <> Some (VStr company_id) ->
  patch W (update_filter company_id) changes r = r.
Proof.
  intros Hid. unfold patch, update_filter.
  destruct (selected W [Eq "id" (VStr company_id)] r) eqn:Hs; [| reflexivity].
  apply selected_id in Hs. contradiction.
Qed.

Lemma patch_twice (company_id : string) (changes r : gmap string value) :
  changes !! "id" = None ->
  patch W (update_filter company_id) changes
    (patch W (update_filter company_id) changes r)
  = patch W (update_filter company_id) changes r.
Proof.
  intros Hid. unfold patch.
  destruct (selected W (update_filter company_id) r) eqn:Hs.
  - assert (selected W (update_filter company_id) (changes ∪ r) = true) as Hs'.
    { unfold update_filter in *. apply selected_id. apply selected_id in Hs.
      rewrite lookup_union_r by exact Hid. exact Hs. }
    rewrite Hs'. rewrite map_union_assoc, map_union_idemp. reflexivity.
  - rewrite Hs. reflexivity.
Qed.

Lemma update_rows_twice (company_id : string) (changes : gmap string value)
    (st : store) :
  changes !! "id" = None ->
  let st1 := snd (update_rows W os_construction changes
                    (update_filter company_id) st) in
  snd (update_rows W os_construction changes (update_filter company_id) st1) = st1.
Proof.
  intros Hid st1. subst st1. unfold update_rows. simpl.
  rewrite List.map_map.
  rewrite (List.map_ext _ _ (fun r => patch_twice company_id changes r Hid)).
  reflexivity.
Qed.

End UpdateMore.

(** X11.  [update_company] cannot change who a company is: whatever the
    payload, in every stored row [id] and [created_at] stay what they
    were, as does every column that is not a field of [CompanyUpdate]
    or [updated_at]; and a row whose [id] is not the one in the URL is
    left exactly as it was. *)
Theorem update_company_keeps_identity (W : World) (company_id : string)
    (req : request) (st : store) (i : nat) (r r' : gmap string value) :
  companies st !! i = Some r ->
  companies (snd (update_company W company_id req st)) !! i = Some r' ->
  r' !! "id" = r !! "id"
  /\ r' !! "created_at" = r !! "created_at"
  /\ (forall f, f ∉ field_names (Models.CompanyUpdate W) -> f <> "updated_at" ->
        r' !! f = r !! f)
  /\ (r !! "id" <> Some (VStr company_id) -> r' = r).
Proof.
  intros Hr Hr'.
  assert (forall f, f ∉ field_names (Models.CompanyUpdate W) -> f <> "updated_at" ->
                    r' !! f = r !! f) as Hframe.
  { intros f Hf Hu.
    destruct (update_company_row W company_id req st i r r' Hr Hr')
      as [-> | (d & values & _ & Hm & ->)]; [reflexivity |].
    apply patch_frame. apply (update_db_data_columns W d values f Hm Hf Hu). }
  split; [apply Hframe; apply (not_a_company_field W); auto |].
  split; [apply Hframe; apply (not_a_company_field W); auto |].
  split; [exact Hframe |].
  intros Hid.
  destruct (update_company_row W company_id req st i r r' Hr Hr')
    as [-> | (d & values & _ & _ & ->)]; [reflexivity |].
  apply patch_other. exact Hid.
Qed.

Lemma update_company_keeps_identity_witness :
  let W := Sample.world None in
  let req := Sample.post (VDict Cases.rename) in
  let st' := snd (update_company W "c1" req Sample.two_companies) in
  companies st' = [Cases.renamed; Sample.company "c2" "Brick and Co" false]
  /\ Cases.renamed !! "id" = Some (VStr "c1")
  /\ Cases.renamed !! "created_at" = Some (VStr "2024-01-01T00:00:00").
Proof.
  intros W req st'.
  assert (companies st' = [Cases.renamed; Sample.company "c2" "Brick and Co" false])
    as Hc by (vm_compute; reflexivity).
  split; [exact Hc |].
  destruct (update_company_keeps_identity W "c1" req Sample.two_companies 0%nat
              (Sample.company "c1" "Acme Builders" true) Cases.renamed eq_refl)
    as (Hid & Hcreated & _ & _).
  { fold st'. rewrite Hc. reflexivity. }
  split; [rewrite Hid; reflexivity | rewrite Hcreated; reflexivity].
Defined.

(** X12.  [update_company] is idempotent: under one clock, the same
    request applied to the store it has just produced leaves that store
    unchanged. *)
Theorem update_company_idempotent (W : World) (company_id : string)
    (req : request) (st : store) :
  let st1 := snd (update_company W company_id req st) in
  snd (update_company W company_id req st1) = st1.
Proof.
  intros st1.
  destruct (update_company_store W company_id req st)
    as [Hst | (d & values & Hj & Hm & Hst)]; fold st1 in Hst.
  - rewrite Hst. exact Hst.
  - destruct (update_company_store W company_id req st1)
      as [H1 | (d' & values' & Hj' & Hm' & H1)]; [exact H1 |].
    rewrite Hj in Hj'. injection Hj' as <-.
    rewrite Hm in Hm'. injection Hm' as <-.
    rewrite H1, Hst. apply update_rows_twice.
    apply (update_db_data_columns W d values "id" Hm);
      apply (not_a_company_field W); auto.
Qed.

(** ** More on deleting a company *)

Section DeleteMore.
Context (W : World).

Lemma references_company (company_id : string) (gone : list (gmap string value))
    (r : gmap string value) :
  gone <> [] ->
  (forall g, In g gone -> g !! "id" = Some (VStr company_id)) ->
  references gone r = child_of company_id r.
Proof.
  intros Hne Hall. unfold references, child_of.
  destruct (r !! "company_id") as [v |]; [| reflexivity].
  destruct gone as [| g gone]; [contradiction |]. clear Hne.
  induction gone as [| g' gone IH].
  - simpl. rewrite (Hall g (or_introl eq_refl)). apply orb_false_r.
  - assert (forall x, In x (g :: gone) -> x !! "id" = Some (VStr company_id)) as Hall'.
    { intros x [-> | Hin]; apply Hall; [left | right; right]; auto. }
    specialize (IH Hall'). simpl in *.
    rewrite (Hall g (or_introl eq_refl)) in *.
    rewrite (Hall g' (or_intror (or_introl eq_refl))).
    destruct (eq_scalar v (VStr company_id)); [reflexivity | exact IH].
Qed.

Lemma company_rows_ids (company_id : string) (st : store) (g : gmap string value) :
  In g (company_rows W company_id st) -> g !! "id" = Some (VStr company_id).
Proof.
  intros Hin. apply filter_In in Hin. destruct Hin as [_ Hs].
  apply selected_id in Hs. exact Hs.
Qed.

Lemma after_delete_children (company_id : string) (st : store) :
  company_exists company_id st ->
  let keep := List.filter (fun r => negb (child_of company_id r)) in
  services (after_delete W company_id st) = keep (services st)
  /\ projects (after_delete W company_id st) = keep (projects st)
  /\ employees (after_delete W company_id st) = keep (employees st).
Proof.
  intros Hex keep.
  assert (company_rows W company_id st <> []) as Hne.
  { intros Hnil. apply company_rows_nil in Hnil. contradiction. }
  assert (forall l : list (gmap string value),
            List.filter (fun r => negb (references (company_rows W company_id st) r)) l
            = keep l) as Hkeep.
  { intros l. subst keep. apply List.filter_ext. intros r.
    rewrite (references_company company_id _ r Hne (company_rows_ids company_id st)).
    reflexivity. }
  unfold after_delete, delete_rows. simpl.
  fold (company_rows W company_id st). rewrite !Hkeep. auto.
Qed.

Lemma child_of_true (company_id : string) (r : gmap string value) :
  child_of company_id r = true <-> r !! "company_id" = Some (VStr company_id).
Proof.
  unfold child_of. destruct (r !! "company_id") as [v |].
  - rewrite eq_scalar_str. split; congruence.
  - split; discriminate.
Qed.

End DeleteMore.

(** X13.  A successful [delete_company] removes the rows of
    [os_construction] whose [id] is the one in the URL and, through the
    cascade of the schema, the services, projects and employees whose
    [company_id] is that id.  Every other row of the four tables is
    kept, in its order. *)
Theorem delete_company_takes_children (W : World) (company_id : string)
    (req : request) (st : store) :
  company_exists company_id st ->
  let st' := snd (delete_company W company_id req st) in
  let others := List.filter (fun r => negb (child_of company_id r)) in
  fst (delete_company W company_id req st) = inr (deleted company_id)
  /\ companies st'
     = List.filter (fun r => negb (selected W [Eq "id" (VStr company_id)] r))
         (companies st)
  /\ services st' = others (services st)
  /\ projects st' = others (projects st)
  /\ employees st' = others (employees st)
  /\ (forall r, r ∈ companies st' <->
                r ∈ companies st /\ r !! "id" <> Some (VStr company_id))
  /\ (forall r, r ∈ services st' ++ projects st' ++ employees st' ->
                r !! "company_id" <> Some (VStr company_id)).
Proof.
  intros Hex st' others. subst st'.
  rewrite (delete_company_found W company_id req st Hex). cbn [fst snd].
  destruct (after_delete_children W company_id st Hex) as (Hs & Hp & He).
  fold others in Hs, Hp, He.
  split; [reflexivity |]. split; [apply after_delete_companies |].
  split; [exact Hs |]. split; [exact Hp |]. split; [exact He |].
  split.
  - intros r. rewrite after_delete_companies.
    rewrite !list_elem_of_In, filter_In, negb_true_iff.
    rewrite <- (selected_id W company_id r).
    destruct (selected W [Eq "id" (VStr company_id)] r);
      intuition congruence.
  - intros r Hin. rewrite Hs, Hp, He in Hin.
    assert (r ∈ others (services st ++ projects st ++ employees st)) as Hin'.
    { subst others. cbv beta. rewrite !List.filter_app. exact Hin. }
    subst others. apply list_elem_of_In, filter_In in Hin'.
    destruct Hin' as [_ Hc]. apply negb_true_iff in Hc.
    intros Hchild. apply child_of_true in Hchild. congruence.
Qed.

Lemma delete_company_takes_children_witness :
  let W := Sample.world None in
  let st' := snd (delete_company W "c1" (Sample.get ∅) Sample.two_companies) in
  companies st' = [Sample.company "c2" "Brick and Co" false]
  /\ projects st' = []
  /\ projects Sample.two_companies <> [].
Proof.
  intros W st'.
  assert (company_exists "c1" Sample.two_companies) as Hex.
  { exists (Sample.company "c1" "Acme Builders" true).
    split; [apply list_elem_of_here | reflexivity]. }
  destruct (delete_company_takes_children W "c1" (Sample.get ∅)
              Sample.two_companies Hex) as (_ & Hc & _ & Hp & _).
  fold st' in Hc, Hp. split; [| split].
  - rewrite Hc. reflexivity.
  - rewrite Hp. reflexivity.
  - discriminate.
Defined.

(** ** Storing a child of a company *)

Section ChildStored.
Context (W : World).

Lemma ServiceCreate_names :
  field_names (Models.ServiceCreate W)
  = ["service_name"; "description"; "is_free"; "eligibility_criteria"].
Proof. reflexivity. Qed.

Lemma ProjectCreate_names :
  field_names (Models.ProjectCreate W)
  = ["project_name"; "location"; "start_date"; "end_date"; "status";
     "description"; "beneficiary_info"].
Proof. reflexivity. Qed.

Lemma add_company_service_created (company_id : string) (req : request)
    (st : store) (d values : gmap string value) :
  json req = inr (VDict d) -> d <> ∅ ->
  Models.model_dict W (Models.ServiceCreate W) d = inr values ->
  company_exists company_id st ->
  let row := created_child W os_construction_services company_id st values in
  add_company_service W company_id req st
  = (inr {| body := jsonify row; status := 201 |},
     set_rows os_construction_services (services st ++ [row]) st).
Proof.
  intros Hj Hd Hm Hex row. unfold add_company_service. apply try_except_inr.
  rewrite (bind_inr _ _ st st (VDict d)).
  2:{ apply request_json_given; [exact Hj | apply truthy_dict; exact Hd]. }
  rewrite (bind_inr _ _ st st values) by (simpl; rewrite Hm; reflexivity).
  rewrite (bind_inr _ _ st st tt) by (apply check_company_found; exact Hex).
  reflexivity.
Qed.

Lemma created_child_lookup (t : table) (company_id : string) (st : store)
    (values : gmap string value) (k : string) :
  values !! "id" = None ->
  created_child W t company_id st values !! k
  = if decide (k = "id") then Some (VStr (uuid_generate W (rows t st)))
    else if decide (k = "updated_at") then Some (VStr (utcnow_isoformat W))
    else if decide (k = "created_at") then Some (VStr (utcnow_isoformat W))
    else if decide (k = "company_id") then Some (VStr company_id)
    else values !! k.
Proof.
  intros Hid. unfold created_child.
  rewrite with_id_lookup.
  2:{ rewrite stamp_lookup. simpl. rewrite lookup_insert_ne by discriminate.
      exact Hid. }
  destruct (decide (k = "id")); [reflexivity |].
  rewrite stamp_lookup.
  destruct (decide (k = "updated_at")); [reflexivity |].
  destruct (decide (k = "created_at")); [reflexivity |].
  destruct (decide (k = "company_id")) as [-> | Hne]; [apply lookup_insert_eq |].
  apply lookup_insert_ne. congruence.
Qed.

End ChildStored.

(** X14.  [add_company_service] under an existing company, with a
    payload that validates, answers 201 with the row it appends to
    [os_construction_services].  The row references the company of the
    URL whatever the payload says under [company_id], carries the
    current time as [created_at] and [updated_at] and an [id] given by
    the store, and holds the four fields of [ServiceCreate] as
    validated.  The companies are untouched. *)
Theorem add_company_service_stores_under_url_company (W : World)
    (company_id : string) (req : request) (st : store)
    (d values : gmap string value) :
  json req = inr (VDict d) -> d <> ∅ ->
  Models.model_dict W (Models.ServiceCreate W) d = inr values ->
  company_exists company_id st ->
  let row := created_child W os_construction_services company_id st values in
  let st' := snd (add_company_service W company_id req st) in
  fst (add_company_service W company_id req st)
  = inr {| body := jsonify row; status := 201 |}
  /\ services st' = services st ++ [row]
  /\ companies st' = companies st
  /\ projects st' = projects st /\ employees st' = employees st
  /\ row !! "company_id" = Some (VStr company_id)
  /\ row !! "id" = Some (VStr (uuid_generate W (services st)))
  /\ row !! "created_at" = Some (VStr (utcnow_isoformat W))
  /\ row !! "updated_at" = Some (VStr (utcnow_isoformat W))
  /\ (forall k, k ∈ field_names (Models.ServiceCreate W) ->
        is_Some (values !! k) /\ row !! k = values !! k).
Proof.
  intros Hj Hd Hm Hex row st'. subst st'.
  rewrite (add_company_service_created W company_id req st d values Hj Hd Hm Hex).
  fold row. cbn [fst snd].
  assert (values !! "id" = None) as Hid.
  { apply (no_id_in_model W _ d values "id" Hm).
    rewrite ServiceCreate_names. intros Hin.
    repeat (apply elem_of_cons in Hin; destruct Hin as [Hin | Hin];
            [discriminate |]).
    apply elem_of_nil in Hin. exact Hin. }
  pose proof (created_child_lookup W os_construction_services company_id st
                values) as Hrow.
  fold row in Hrow.
  split; [reflexivity |]. split; [reflexivity |]. split; [reflexivity |].
  split; [reflexivity |]. split; [reflexivity |].
  split; [rewrite Hrow by exact Hid; reflexivity |].
  split; [rewrite Hrow by exact Hid; reflexivity |].
  split; [rewrite Hrow by exact Hid; reflexivity |].
  split; [rewrite Hrow by exact Hid; reflexivity |].
  intros k Hk. split; [apply (model_dict_dom W _ d values Hm k); exact Hk |].
  rewrite Hrow by exact Hid. rewrite ServiceCreate_names in Hk.
  repeat (apply elem_of_cons in Hk; destruct Hk as [-> | Hk]; [reflexivity |]).
  apply elem_of_nil in Hk. destruct Hk.
Qed.

Lemma add_company_service_stores_under_url_company_witness :
  let W := Sample.world None in
  let row := created_child W os_construction_services "c1" Sample.two_companies
               Cases.roof_validated in
  let st' := snd (add_company_service W "c1" (Sample.post (VDict Cases.roof))
                    Sample.two_companies) in
  services st' = services Sample.two_companies ++ [row]
  /\ row !! "company_id" = Some (VStr "c1")
  /\ row !! "is_free" = Some (VBool true).
Proof.
  intros W row st'.
  assert (Models.model_dict W (Models.ServiceCreate W) Cases.roof
          = inr Cases.roof_validated) as Hm by (vm_compute; reflexivity).
  assert (company_exists "c1" Sample.two_companies) as Hex.
  { exists (Sample.company "c1" "Acme Builders" true).
    split; [apply list_elem_of_here | reflexivity]. }
  destruct (add_company_service_stores_under_url_company W "c1"
              (Sample.post (VDict Cases.roof)) Sample.two_companies
              Cases.roof Cases.roof_validated
              eq_refl ltac:(discriminate) Hm Hex)
    as (_ & Hs & _ & _ & _ & Hc & _ & _ & _ & Hfields).
  split; [exact Hs |]. split; [exact Hc |].
  destruct (Hfields "is_free") as [_ Hv].
  - unfold field_names. simpl. do 2 apply list_elem_of_further. apply list_elem_of_here.
  - fold row in Hv. rewrite Hv. reflexivity.
Defined.

(** ** Where validated values come from *)

Section Provenance.
Context (W : World).

(** Every validated value is one the walk started with, the default of
    a field the payload leaves out, or what a field made of the value
    the payload gives it. *)
Lemma validate_model_provenance (fields : list Models.field)
    (d : gmap string value) :
  forall values errors values' errors',
    Models.validate_model W fields d values errors = (values', errors') ->
    forall k x, values' !! k = Some x ->
      values !! k = Some x
      \/ exists f vals,
           f ∈ fields /\ Models.f_name f = k
           /\ ((d !! k = None /\ Models.f_required f = false /\ x = Models.f_default f)
               \/ exists v, d !! k = Some v
                            /\ Models.validate_field W f vals v = Valid x).
Proof.
  induction fields as [| f fields IH]; intros values errors values' errors' Hv k x Hk.
  - simpl in Hv. injection Hv as <- <-. left. exact Hk.
  - simpl in Hv.
    assert (forall vs es,
              Models.validate_model W fields d vs es = (values', errors') ->
              vs !! k = Some x
              \/ exists f0 vals,
                   f0 ∈ f :: fields /\ Models.f_name f0 = k
                   /\ ((d !! k = None /\ Models.f_required f0 = false /\ x = Models.f_default f0)
                       \/ exists v, d !! k = Some v
                                    /\ Models.validate_field W f0 vals v = Valid x))
      as Hrest.
    { intros vs es H. destruct (IH _ _ _ _ H k x Hk) as [Hin | (f0 & vals & Hin & Hrest)].
      - left. exact Hin.
      - right. exists f0, vals. split; [apply list_elem_of_further; exact Hin | exact Hrest]. }
    destruct (d !! Models.f_name f) as [v |] eqn:Hd.
    + destruct (Models.validate_field W f values v) as [v' | m] eqn:Hf.
      * destruct (Hrest _ _ Hv) as [Hin | Hfound]; [| right; exact Hfound].
        destruct (decide (Models.f_name f = k)) as [Heq | Hne].
        -- rewrite <- Heq, lookup_insert_eq in Hin. injection Hin as ->.
           right. exists f, values. split; [apply list_elem_of_here |].
           split; [exact Heq |]. right. exists v. rewrite <- Heq. auto.
        -- rewrite lookup_insert_ne in Hin by exact Hne. left. exact Hin.
      * destruct (Hrest _ _ Hv) as [Hin | Hfound]; [left | right]; assumption.
    + destruct (Models.f_required f) eqn:Hreq.
      * destruct (Hrest _ _ Hv) as [Hin | Hfound]; [left | right]; assumption.
      * destruct (Hrest _ _ Hv) as [Hin | Hfound]; [| right; exact Hfound].
        destruct (decide (Models.f_name f = k)) as [Heq | Hne].
        -- rewrite <- Heq, lookup_insert_eq in Hin. injection Hin as <-.
           right. exists f, values. split; [apply list_elem_of_here |].
           split; [exact Heq |]. left. rewrite <- Heq. auto.
        -- rewrite lookup_insert_ne in Hin by exact Hne. left. exact Hin.
Qed.

Lemma model_dict_provenance (fields : list Models.field)
    (d values : gmap string value) (k : string) (x : value) :
  Models.model_dict W fields d = inr values ->
  values !! k = Some x ->
  exists f vals,
    f ∈ fields /\ Models.f_name f = k
    /\ ((d !! k = None /\ Models.f_required f = false /\ x = Models.f_default f)
        \/ exists v, d !! k = Some v
                     /\ Models.validate_field W f vals v = Valid x).
Proof.
  unfold Models.model_dict. intros Hm Hk.
  destruct (Models.validate_model W fields d ∅ []) as [values' errors] eqn:Hv.
  destruct errors; [| discriminate]. injection Hm as ->.
  destruct (validate_model_provenance fields d _ _ _ _ Hv k x Hk) as [Hin | H];
    [| exact H].
  rewrite lookup_empty in Hin. discriminate.
Qed.

(** What the validators of the field types return. *)
Lemma t_constr_valid (lo hi : nat) (v x : value) :
  Models.t_constr W lo hi v = Valid x ->
  exists s, x = VStr s /\ (lo <= len s <= hi)%nat.
Proof.
  unfold Models.t_constr. destruct (str_validator W v) as [s | m]; [| discriminate].
  cbv zeta.
  destruct (Nat.ltb_spec (len s) lo); [discriminate |].
  destruct (Nat.ltb_spec hi (len s)); [discriminate |].
  intros [= <-]. exists s. split; [reflexivity | lia].
Qed.

Lemma t_int_valid (v x : value) :
  Models.t_int W v = Valid x -> exists n, x = VInt n.
Proof.
  unfold Models.t_int, Models.lift. destruct (int_validator W v); [| discriminate].
  intros [= <-]. eauto.
Qed.

Lemma t_str_valid (v x : value) :
  Models.t_str W v = Valid x -> exists s, x = VStr s.
Proof.
  unfold Models.t_str, Models.lift. destruct (str_validator W v); [| discriminate].
  intros [= <-]. eauto.
Qed.

Lemma t_date_valid (v x : value) :
  Models.t_date W v = Valid x -> exists d, x = VDate d.
Proof.
  unfold Models.t_date, Models.lift. destruct (date_validator W v); [| discriminate].
  intros [= <-]. eauto.
Qed.

(** A supplied value against a field: [None] stays [None] where it is
    allowed, anything else goes through the type and then the class
    validator. *)
Lemma validate_field_valid (f : Models.field) (vals : gmap string value)
    (v x : value) :
  Models.validate_field W f vals v = Valid x ->
  (v = VNone /\ Models.f_allow_none f = true
   /\ Models.apply_post f vals VNone = Valid x)
  \/ (v <> VNone
      /\ exists v', Models.f_validators f v = Valid v'
                    /\ Models.apply_post f vals v' = Valid x).
Proof.
  unfold Models.validate_field.
  destruct v; cbv beta iota;
    try (destruct (Models.f_validators f _) as [v' | msg] eqn:Hv; [| discriminate];
         intros H; right; split; [discriminate | eauto]).
  destruct (Models.f_allow_none f); [| discriminate]. intros H. left. auto.
Qed.

End Provenance.

(** ** What the store always holds *)

Section Inversion.
Context (W : World).

Lemma model_dict_inr (fields : list Models.field) (d values : gmap string value) :
  Models.model_dict W fields d = inr values ->
  Models.validate_model W fields d ∅ [] = (values, []).
Proof.
  unfold Models.model_dict.
  destruct (Models.validate_model W fields d ∅ []) as [values' errors].
  destruct errors; [| discriminate]. intros [= ->]. reflexivity.
Qed.

(** One step of a walk that ends without an error. *)
Lemma validate_model_cons (f : Models.field) (rest : list Models.field)
    (d values values' : gmap string value) (errors : list (string * string)) :
  Models.validate_model W (f :: rest) d values errors = (values', []) ->
  exists x,
    field_value f d values x
    /\ Models.validate_model W rest d (<[Models.f_name f := x]> values) errors
       = (values', []).
Proof.
  simpl. intros Hv.
  assert (forall e vs, Models.validate_model W rest d vs (errors ++ [e])
                       = (values', []) -> False) as Hgrow.
  { intros e vs H.
    pose proof (validate_model_length W rest d vs (errors ++ [e])) as Hl.
    rewrite H in Hl. simpl in Hl. rewrite length_app in Hl. simpl in Hl. lia. }
  destruct (d !! Models.f_name f) as [v |] eqn:Hd.
  - destruct (Models.validate_field W f values v) as [x | m] eqn:Hf;
      [| destruct (Hgrow _ _ Hv)].
    exists x. split; [| exact Hv]. right.
    destruct (validate_field_valid W f values v x Hf)
      as [(-> & Hnone & Hpost) | (Hne & v' & Hval & Hpost)].
    + left. auto.
    + right. exists v, v'. auto.
  - destruct (Models.f_required f) eqn:Hreq; [destruct (Hgrow _ _ Hv) |].
    exists (Models.f_default f). split; [| exact Hv]. left. auto.
Qed.

Lemma validate_model_nil (d values values' : gmap string value)
    (errors errors' : list (string * string)) :
  Models.validate_model W [] d values errors = (values', errors') ->
  values' = values.
Proof. simpl. intros [= <- _]. reflexivity. Qed.

End Inversion.

Section Fields.
Context (W : World).

Lemma field_value_required (name : string) (t : value -> checked value)
    (d vals : gmap string value) (x : value) :
  field_value (Models.required name t) d vals x -> exists v, t v = Valid x.
Proof.
  intros [(_ & Hreq & _) | [(_ & Hnone & _) | (v & v' & _ & _ & Hval & Hpost)]];
    [discriminate | discriminate |].
  injection Hpost as <-. eauto.
Qed.

Lemma field_value_optional (name : string) (t : value -> checked value)
    (d vals : gmap string value) (x : value) :
  field_value (Models.optional name t) d vals x ->
  x = VNone \/ exists v, t v = Valid x.
Proof.
  intros [(_ & _ & ->) | [(_ & _ & Hpost) | (v & v' & _ & _ & Hval & Hpost)]].
  - left. reflexivity.
  - injection Hpost as <-. left. reflexivity.
  - injection Hpost as <-. eauto.
Qed.

Lemma field_value_defaulted (name : string) (t : value -> checked value)
    (dflt : value) (d vals : gmap string value) (x : value) :
  field_value (Models.defaulted name t dflt) d vals x ->
  x = dflt \/ exists v, t v = Valid x.
Proof.
  intros [(_ & _ & ->) | [(_ & Hnone & _) | (v & v' & _ & _ & Hval & Hpost)]].
  - left. reflexivity.
  - discriminate.
  - injection Hpost as <-. eauto.
Qed.

Lemma field_value_with_validator (f : Models.field)
    (post : gmap string value -> value -> checked value)
    (d vals : gmap string value) (x : value) :
  field_value (Models.with_validator f post) d vals x ->
  (Models.f_required f = false /\ x = Models.f_default f)
  \/ (Models.f_allow_none f = true /\ post vals VNone = Valid x)
  \/ (exists v v', Models.f_validators f v = Valid v' /\ post vals v' = Valid x).
Proof.
  intros [(_ & Hreq & ->) | [(_ & Hnone & Hpost) | (v & v' & _ & _ & Hval & Hpost)]].
  - left. auto.
  - right. left. auto.
  - right. right. eauto.
Qed.

Lemma validate_founded_year_valid (vals : gmap string value) (v x : value) :
  Models.validate_founded_year W vals v = Valid x ->
  x = v /\ forall n, v = VInt n -> 1800 <= n <= current_year W.
Proof.
  unfold Models.validate_founded_year.
  destruct v; try (intros [= <-]; split; [reflexivity | discriminate]).
  destruct (Z.ltb_spec n 1800); [discriminate |].
  destruct (Z.ltb_spec (current_year W) n); [discriminate |].
  simpl. intros [= <-]. split; [reflexivity |]. intros n0 [= <-]. lia.
Qed.

Lemma CompanyCreate_constraints (d values : gmap string value) :
  Models.model_dict W (Models.CompanyCreate W) d = inr values ->
  company_constraints W values.
Proof.
  intros Hm. apply model_dict_inr in Hm.
  unfold Models.CompanyCreate, Models.CompanyBase in Hm. cbn [app] in Hm.
  apply validate_model_cons in Hm as (name & Hname & Hm).
  apply validate_model_cons in Hm as (address & _ & Hm).
  apply validate_model_cons in Hm as (email & _ & Hm).
  apply validate_model_cons in Hm as (phone & Hphone & Hm).
  apply validate_model_cons in Hm as (website & _ & Hm).
  apply validate_model_cons in Hm as (description & _ & Hm).
  apply validate_model_cons in Hm as (year & Hyear & Hm).
  apply validate_model_cons in Hm as (verified & Hverified & Hm).
  apply validate_model_nil in Hm. subst values.
  cbn [Models.f_name Models.required Models.optional Models.defaulted
       Models.with_validator].
  split; [| split; [| split]].
  - exists name. split; [reflexivity |].
    apply field_value_required in Hname as (v & Hv).
    exact (t_constr_valid W _ _ _ _ Hv).
  - exists phone. split; [reflexivity |].
    apply field_value_required in Hphone as (v & Hv).
    exact (t_constr_valid W _ _ _ _ Hv).
  - exists year. split; [reflexivity |].
    apply field_value_with_validator in Hyear
      as [(_ & ->) | [(_ & Hpost) | (v & v' & Hv & Hpost)]].
    + left. reflexivity.
    + apply validate_founded_year_valid in Hpost as (-> & _). left. reflexivity.
    + apply validate_founded_year_valid in Hpost as (-> & Hrange).
      apply t_int_valid in Hv as (n & ->). right. exists n. auto.
  - exists verified. split; [reflexivity |].
    apply field_value_defaulted in Hverified as [-> | (v & Hv)]; [exists false; reflexivity |].
    unfold Models.t_bool, Models.lift in Hv.
    destruct (bool_validator W v) as [b |]; [| discriminate].
    injection Hv as <-. exists b. reflexivity.
Qed.

End Fields.

Section Shapes.
Context (W : World).

Lemma checked_company {A} (company_id : string) (st : store) (k : M A) :
  snd ((check_company W company_id;; k) st) = st
  \/ (company_exists company_id st
      /\ (check_company W company_id;; k) st = k st).
Proof.
  destruct (company_rows W company_id st) as [| r l] eqn:Hr.
  - left. rewrite (bind_inl _ _ st st (not_found company_id)); [reflexivity |].
    rewrite check_company_rows, Hr. reflexivity.
  - right. split.
    + exists r. split.
      * apply list_elem_of_In. apply (filter_In (selected W [Eq "id" (VStr company_id)])).
        fold (company_rows W company_id st). rewrite Hr. left. reflexivity.
      * apply (company_rows_ids W company_id st). rewrite Hr. left. reflexivity.
    + apply (bind_inr _ (fun _ => k) st st tt).
      rewrite check_company_rows, Hr. reflexivity.
Qed.

Lemma stored (t : table) (r : gmap string value) (msg : string) (st : store) :
  snd ((let* response := run_insert W t r in first_row response msg 201) st)
  = set_rows t (rows t st ++ [with_id W t st r]) st.
Proof. reflexivity. Qed.

Lemma create_company_store (req : request) (st : store) :
  snd (create_company W req st) = st
  \/ exists d values,
       json req = inr (VDict d)
       /\ Models.model_dict W (Models.CompanyCreate W) d = inr values
       /\ snd (create_company W req st)
          = set_rows os_construction
              (companies st ++ [created_company W st values]) st.
Proof.
  unfold create_company.
  rewrite try_except_store by (intros e st'; apply except_clauses_store).
  match goal with
  | |- context [bind (request_json req) ?f] =>
      destruct (posted W (Models.CompanyCreate W) req st
                  (fun values => let* response := run_insert W os_construction
                                                    (stamp W values) in
                                 first_row response "Failed to create company" 201))
        as [Hst | (d & values & Hj & _ & Hm & Hst)]
  end.
  - left. exact Hst.
  - right. exists d, values. split; [exact Hj |]. split; [exact Hm |].
    cbv zeta in Hst. rewrite Hst. reflexivity.
Qed.

Lemma add_company_service_store (company_id : string) (req : request)
    (st : store) :
  snd (add_company_service W company_id req st) = st
  \/ exists d values,
       json req = inr (VDict d)
       /\ Models.model_dict W (Models.ServiceCreate W) d = inr values
       /\ company_exists company_id st
       /\ snd (add_company_service W company_id req st)
          = set_rows os_construction_services
              (services st
               ++ [created_child W os_construction_services company_id st values])
              st.
Proof.
  unfold add_company_service.
  rewrite try_except_store by (intros e st'; apply except_clauses_store).
  match goal with
  | |- context [bind (request_json req) (fun data => bind _ ?k)] =>
      destruct (posted W (Models.ServiceCreate W) req st k)
        as [Hst | (d & values & Hj & _ & Hm & Hst)]
  end.
  - left. exact Hst.
  - cbv zeta in Hst. rewrite Hst.
    match goal with
    | |- context [bind (check_company W company_id) (fun _ => ?k)] =>
        destruct (checked_company company_id st k) as [Hc | (Hex & Hc)]
    end.
    + left. exact Hc.
    + right. exists d, values. split; [exact Hj |]. split; [exact Hm |].
      split; [exact Hex |]. rewrite Hc. reflexivity.
Qed.

End Shapes.

Section Dates.
Context (W : World).

Lemma iso_column_lookup (key : string) (db : gmap string value) (k : string) :
  iso_column key db !! k
  = if decide (k = key) then iso_date <$> db !! k else db !! k.
Proof.
  unfold iso_column.
  destruct (decide (k = key)) as [-> | Hne].
  - destruct (db !! key) as [v |] eqn:Hv; [| rewrite Hv; reflexivity].
    destruct v; try (rewrite Hv; reflexivity).
    rewrite lookup_insert_eq. reflexivity.
  - destruct (db !! key) as [v |]; [| reflexivity].
    destruct v; try reflexivity. apply lookup_insert_ne. congruence.
Qed.

(** A date or [None] under [key] never makes [isoformat] fail. *)
Lemma isoformat_field_date (key : string) (db : gmap string value) :
  (forall v, db !! key = Some v -> date_or_none v) ->
  isoformat_field key db = inr (iso_column key db).
Proof.
  intros H. unfold isoformat_field, iso_column.
  destruct (db !! key) as [v |]; [| reflexivity].
  destruct (H v eq_refl) as [-> | [dt ->]]; reflexivity.
Qed.

Lemma t_bool_valid (v x : value) :
  Models.t_bool W v = Valid x -> exists b, x = VBool b.
Proof.
  unfold Models.t_bool, Models.lift. destruct (bool_validator W v); [| discriminate].
  intros [= <-]. eauto.
Qed.

Lemma optional_date (name : string) (d vals : gmap string value) (x : value) :
  field_value (Models.optional name (Models.t_date W)) d vals x ->
  date_or_none x.
Proof.
  intros H. apply field_value_optional in H as [-> | (v & Hv)].
  - left. reflexivity.
  - right. exact (t_date_valid W _ _ Hv).
Qed.

Lemma validate_end_date_valid (vals : gmap string value) (v x s : value) :
  Models.validate_end_date vals v = Valid x ->
  vals !! "start_date" = Some s -> date_or_none s ->
  x = v /\ Models.date_lt v s = false.
Proof.
  unfold Models.validate_end_date. intros H Hs Hd. rewrite Hs in H.
  destruct (truthy v && truthy s && Models.date_lt v s) eqn:Hb; [discriminate |].
  injection H as <-. split; [reflexivity |].
  destruct Hd as [-> | [ds ->]]; [destruct v; reflexivity |].
  destruct v; try reflexivity. exact Hb.
Qed.

(** What the values of a project that validates are. *)
Lemma ProjectCreate_values (d values : gmap string value) :
  Models.model_dict W (Models.ProjectCreate W) d = inr values ->
  holds "project_name" (within 1 255) values
  /\ holds "status" (status_ok) values
  /\ exists s e,
       date_or_none s /\ date_or_none e
       /\ values !! "start_date" = Some s /\ values !! "end_date" = Some e
       /\ Models.date_lt e s = false.
Proof.
  intros Hm. apply model_dict_inr in Hm.
  unfold Models.ProjectCreate, Models.ProjectBase in Hm.
  apply validate_model_cons in Hm as (name & Hname & Hm).
  apply validate_model_cons in Hm as (location & _ & Hm).
  apply validate_model_cons in Hm as (s & Hs & Hm).
  apply validate_model_cons in Hm as (e & He & Hm).
  apply validate_model_cons in Hm as (status & Hstatus & Hm).
  apply validate_model_cons in Hm as (description & _ & Hm).
  apply validate_model_cons in Hm as (info & _ & Hm).
  apply validate_model_nil in Hm. subst values.
  cbn [Models.f_name Models.required Models.optional Models.defaulted
       Models.with_validator] in *.
  apply optional_date in Hs.
  split; [| split].
  - exists name. split; [reflexivity |].
    apply field_value_required in Hname as (v & Hv).
    exact (t_constr_valid W _ _ _ _ Hv).
  - exists status. split; [reflexivity |].
    apply field_value_with_validator in Hstatus
      as [(_ & ->) | [(Hnone & _) | (v & v' & _ & Hpost)]];
      [reflexivity | discriminate |].
    unfold Models.validate_status in Hpost. unfold status_ok.
    destruct (in_str_list v' Models.valid_statuses) eqn:Hin; [| discriminate].
    injection Hpost as <-. exact Hin.
  - exists s, e.
    assert (date_or_none e /\ Models.date_lt e s = false) as [Hde Hlt].
    { apply field_value_with_validator in He
        as [(_ & ->) | [(_ & Hpost) | (v & v' & Hv & Hpost)]].
      - split; [left; reflexivity | reflexivity].
      - eapply validate_end_date_valid in Hpost as [-> Hlt];
          [| apply lookup_insert_eq | exact Hs].
        split; [left; reflexivity | exact Hlt].
      - eapply validate_end_date_valid in Hpost as [-> Hlt];
          [| apply lookup_insert_eq | exact Hs].
        split; [right; exact (t_date_valid W _ _ Hv) | exact Hlt]. }
    repeat split; auto.
Qed.

Lemma EmployeeCreate_values (d values : gmap string value) :
  Models.model_dict W (Models.EmployeeCreate W) d = inr values ->
  holds "full_name" (within 1 255) values
  /\ holds "position" (within 1 100) values
  /\ holds "join_date" date_or_none values.
Proof.
  intros Hm. apply model_dict_inr in Hm.
  unfold Models.EmployeeCreate, Models.EmployeeBase in Hm.
  apply validate_model_cons in Hm as (name & Hname & Hm).
  apply validate_model_cons in Hm as (position & Hposition & Hm).
  apply validate_model_cons in Hm as (email & _ & Hm).
  apply validate_model_cons in Hm as (phone & _ & Hm).
  apply validate_model_cons in Hm as (specialization & _ & Hm).
  apply validate_model_cons in Hm as (joined & Hjoined & Hm).
  apply validate_model_nil in Hm. subst values.
  cbn [Models.f_name Models.required Models.optional Models.defaulted
       Models.with_validator] in *.
  split; [| split].
  - exists name. split; [reflexivity |].
    apply field_value_required in Hname as (v & Hv).
    exact (t_constr_valid W _ _ _ _ Hv).
  - exists position. split; [reflexivity |].
    apply field_value_required in Hposition as (v & Hv).
    exact (t_constr_valid W _ _ _ _ Hv).
  - exists joined. split; [reflexivity |]. exact (optional_date _ _ _ _ Hjoined).
Qed.

Lemma ServiceCreate_values (d values : gmap string value) :
  Models.model_dict W (Models.ServiceCreate W) d = inr values ->
  holds "service_name" (within 1 255) values /\ holds "is_free" is_bool values.
Proof.
  intros Hm. apply model_dict_inr in Hm.
  unfold Models.ServiceCreate, Models.ServiceBase in Hm.
  apply validate_model_cons in Hm as (name & Hname & Hm).
  apply validate_model_cons in Hm as (description & _ & Hm).
  apply validate_model_cons in Hm as (free & Hfree & Hm).
  apply validate_model_cons in Hm as (criteria & _ & Hm).
  apply validate_model_nil in Hm. subst values.
  cbn [Models.f_name Models.required Models.optional Models.defaulted
       Models.with_validator] in *.
  split.
  - exists name. split; [reflexivity |].
    apply field_value_required in Hname as (v & Hv).
    exact (t_constr_valid W _ _ _ _ Hv).
  - exists free. split; [reflexivity |].
    apply field_value_defaulted in Hfree as [-> | (v & Hv)];
      [exists true; reflexivity | exact (t_bool_valid _ _ Hv)].
Qed.

End Dates.

Section Rows.
Context (W : World).

Lemma add_company_project_store (company_id : string) (req : request)
    (st : store) :
  snd (add_company_project W company_id req st) = st
  \/ exists d values,
       json req = inr (VDict d)
       /\ Models.model_dict W (Models.ProjectCreate W) d = inr values
       /\ company_exists company_id st
       /\ snd (add_company_project W company_id req st)
          = set_rows os_construction_projects
              (projects st ++ [created_project W company_id st values]) st.
Proof.
  unfold add_company_project.
  rewrite try_except_store by (intros e st'; apply except_clauses_store).
  match goal with
  | |- context [bind (request_json req) (fun data => bind _ ?k)] =>
      destruct (posted W (Models.ProjectCreate W) req st k)
        as [Hst | (d & values & Hj & _ & Hm & Hst)]
  end.
  - left. exact Hst.
  - cbv zeta in Hst. rewrite Hst.
    match goal with
    | |- context [bind (check_company W company_id) (fun _ => ?k)] =>
        destruct (checked_company W company_id st k) as [Hc | (Hex & Hc)]
    end.
    + left. exact Hc.
    + right. exists d, values. split; [exact Hj |]. split; [exact Hm |].
      split; [exact Hex |]. rewrite Hc.
      destruct (ProjectCreate_values W d values Hm)
        as (_ & _ & s & e & Hs & He & Hvs & Hve & _).
      rewrite (bind_inr _ _ st st
                 (iso_column "start_date" (<["company_id" := VStr company_id]> values))).
      2:{ unfold lift_exn. rewrite isoformat_field_date; [reflexivity |].
          intros v. rewrite lookup_insert_ne by discriminate. rewrite Hvs.
          intros [= <-]. exact Hs. }
      rewrite (bind_inr _ _ st st
                 (iso_column "end_date"
                    (iso_column "start_date"
                       (<["company_id" := VStr company_id]> values)))).
      2:{ unfold lift_exn. rewrite isoformat_field_date; [reflexivity |].
          intros v. rewrite iso_column_lookup.
          destruct (decide ("end_date" = "start_date")); [discriminate |].
          rewrite lookup_insert_ne by discriminate. rewrite Hve.
          intros [= <-]. exact He. }
      reflexivity.
Qed.

Lemma add_company_employee_store (company_id : string) (req : request)
    (st : store) :
  snd (add_company_employee W company_id req st) = st
  \/ exists d values,
       json req = inr (VDict d)
       /\ Models.model_dict W (Models.EmployeeCreate W) d = inr values
       /\ company_exists company_id st
       /\ snd (add_company_employee W company_id req st)
          = set_rows os_construction_employees
              (employees st ++ [created_employee W company_id st values]) st.
Proof.
  unfold add_company_employee.
  rewrite try_except_store by (intros e st'; apply except_clauses_store).
  match goal with
  | |- context [bind (request_json req) (fun data => bind _ ?k)] =>
      destruct (posted W (Models.EmployeeCreate W) req st k)
        as [Hst | (d & values & Hj & _ & Hm & Hst)]
  end.
  - left. exact Hst.
  - cbv zeta in Hst. rewrite Hst.
    match goal with
    | |- context [bind (check_company W company_id) (fun _ => ?k)] =>
        destruct (checked_company W company_id st k) as [Hc | (Hex & Hc)]
    end.
    + left. exact Hc.
    + right. exists d, values. split; [exact Hj |]. split; [exact Hm |].
      split; [exact Hex |]. rewrite Hc.
      destruct (EmployeeCreate_values W d values Hm)
        as (_ & _ & j & Hvj & Hj').
      rewrite (bind_inr _ _ st st
                 (iso_column "join_date" (<["company_id" := VStr company_id]> values))).
      2:{ unfold lift_exn. rewrite isoformat_field_date; [reflexivity |].
          intros v. rewrite lookup_insert_ne by discriminate. rewrite Hvj.
          intros [= <-]. exact Hj'. }
      reflexivity.
Qed.

Lemma delete_company_store (company_id : string) (req : request) (st : store) :
  snd (delete_company W company_id req st) = st
  \/ (company_exists company_id st
      /\ snd (delete_company W company_id req st) = after_delete W company_id st).
Proof.
  destruct (company_rows W company_id st) as [| r l] eqn:Hr.
  - left. rewrite delete_company_missing; [reflexivity |].
    apply (absent_company W). exact Hr.
  - assert (company_exists company_id st) as Hex.
    { exists r. split.
      - apply list_elem_of_In.
        apply (filter_In (selected W [Eq "id" (VStr company_id)])).
        fold (company_rows W company_id st). rewrite Hr. left. reflexivity.
      - apply (company_rows_ids W company_id st). rewrite Hr. left. reflexivity. }
    right. split; [exact Hex |]. rewrite delete_company_found by exact Hex.
    reflexivity.
Qed.

(** The store adds [id], [created_at] and [updated_at] at most. *)
Lemma stored_keeps (t : table) (st : store) (r : gmap string value) (k : string) :
  k <> "id" -> k <> "created_at" -> k <> "updated_at" ->
  with_id W t st (stamp W r) !! k = r !! k.
Proof.
  intros Hid Hc Hu.
  assert (stamp W r !! k = r !! k) as Hs.
  { rewrite stamp_lookup. destruct (decide (k = "updated_at")); [contradiction |].
    destruct (decide (k = "created_at")); [contradiction | reflexivity]. }
  unfold with_id. destruct (stamp W r !! "id"); [exact Hs |].
  rewrite lookup_insert_ne by congruence. exact Hs.
Qed.

Lemma Forall_filter_list {A} (P : A -> Prop) (f : A -> bool) (l : list A) :
  Forall P l -> Forall P (List.filter f l).
Proof.
  rewrite !List.Forall_forall. intros H x Hx. apply filter_In in Hx as [Hx _].
  auto.
Qed.

Lemma holds_union (k : string) (P : value -> Prop) (c r : gmap string value) :
  (forall v, c !! k = Some v -> P v) -> holds k P r -> holds k P (c ∪ r).
Proof.
  intros Hc (v & Hv & HP). destruct (c !! k) as [w |] eqn:Hw.
  - exists w. split; [apply lookup_union_Some_l; exact Hw | auto].
  - exists v. split; [rewrite lookup_union_r by exact Hw; exact Hv | exact HP].
Qed.

Lemma created_company_constraints (st : store) (d values : gmap string value) :
  Models.model_dict W (Models.CompanyCreate W) d = inr values ->
  company_constraints W (created_company W st values).
Proof.
  intros Hm.
  destruct (CompanyCreate_constraints W d values Hm)
    as ((n & Hn & Hn') & (p & Hp & Hp') & (y & Hy & Hy') & (b & Hb & Hb')).
  unfold created_company.
  split; [| split; [| split]].
  - exists n. rewrite stored_keeps by discriminate. auto.
  - exists p. rewrite stored_keeps by discriminate. auto.
  - exists y. rewrite stored_keeps by discriminate. auto.
  - exists b. rewrite stored_keeps by discriminate. auto.
Qed.

Lemma created_service_constraints (company_id : string) (st : store)
    (d values : gmap string value) :
  Models.model_dict W (Models.ServiceCreate W) d = inr values ->
  service_constraints
    (created_child W os_construction_services company_id st values).
Proof.
  intros Hm.
  destruct (ServiceCreate_values W d values Hm) as ((n & Hn & Hn') & (b & Hb & Hb')).
  unfold created_child. split.
  - exists n. rewrite stored_keeps by discriminate.
    rewrite lookup_insert_ne by discriminate. auto.
  - exists b. rewrite stored_keeps by discriminate.
    rewrite lookup_insert_ne by discriminate. auto.
Qed.

Lemma created_project_lookup (company_id : string) (st : store)
    (values : gmap string value) (k : string) :
  k <> "id" -> k <> "created_at" -> k <> "updated_at" -> k <> "company_id" ->
  created_project W company_id st values !! k
  = if decide (k = "start_date") then iso_date <$> values !! k
    else if decide (k = "end_date") then iso_date <$> values !! k
    else values !! k.
Proof.
  intros Hid Hc Hu Hcid. unfold created_project.
  rewrite stored_keeps by assumption. rewrite !iso_column_lookup.
  destruct (decide (k = "end_date")) as [-> | He].
  - destruct (decide ("end_date" = "start_date")); [discriminate |].
    rewrite lookup_insert_ne by discriminate. reflexivity.
  - destruct (decide (k = "start_date")).
    + rewrite lookup_insert_ne by congruence. reflexivity.
    + apply lookup_insert_ne. congruence.
Qed.

Lemma created_project_constraints (company_id : string) (st : store)
    (d values : gmap string value) :
  Models.model_dict W (Models.ProjectCreate W) d = inr values ->
  project_constraints (created_project W company_id st values).
Proof.
  intros Hm.
  destruct (ProjectCreate_values W d values Hm)
    as ((n & Hn & Hn') & (x & Hx & Hx') & s & e & Hs & He & Hvs & Hve & Hlt).
  split; [| split].
  - exists n. rewrite created_project_lookup by discriminate. auto.
  - exists x. rewrite created_project_lookup by discriminate. auto.
  - exists s, e. split; [exact Hs |]. split; [exact He |].
    rewrite !created_project_lookup by discriminate. rewrite Hvs, Hve. auto.
Qed.

Lemma created_employee_constraints (company_id : string) (st : store)
    (d values : gmap string value) :
  Models.model_dict W (Models.EmployeeCreate W) d = inr values ->
  employee_constraints (created_employee W company_id st values).
Proof.
  intros Hm.
  destruct (EmployeeCreate_values W d values Hm)
    as ((n & Hn & Hn') & (p & Hp & Hp') & (j & Hj & Hj')).
  unfold created_employee.
  split; [| split].
  - exists n. rewrite stored_keeps by discriminate. rewrite iso_column_lookup.
    rewrite lookup_insert_ne by discriminate. auto.
  - exists p. rewrite stored_keeps by discriminate. rewrite iso_column_lookup.
    rewrite lookup_insert_ne by discriminate. auto.
  - exists (iso_date j). rewrite stored_keeps by discriminate.
    rewrite iso_column_lookup. rewrite lookup_insert_ne by discriminate.
    rewrite Hj. split; [reflexivity |]. exists j. auto.
Qed.

End Rows.

Section Preserved.
Context (W : World).

Lemma preserved_token_required (P : store -> Prop) (f : request -> M response) :
  preserved P f -> preserved P (token_required W f).
Proof.
  intros Hf req st HP. unfold token_required, bind, lift_exn, ret, raise.
  destruct (bearer_token req) as [e | token]; [exact HP |].
  destruct (no_token token); [exact HP |].
  destruct (decode_token W (default "" token)) as [e | payload].
  - destruct e; exact HP.
  - destruct (getitem payload "sub") as [e | sub]; [exact HP |].
    destruct (getitem payload "username") as [e | name]; [exact HP |].
    apply Hf. exact HP.
Qed.

Lemma preserved_admin_required (P : store -> Prop) (f : request -> M response) :
  preserved P f -> preserved P (admin_required W f).
Proof.
  intros Hf req st HP. unfold admin_required.
  destruct (negb (is_admin W req)); [exact HP | apply Hf; exact HP].
Qed.

(** The columns [update_company] sends are within the constraints of
    the schema. *)
Lemma CompanyUpdate_changes (d values : gmap string value) :
  Models.model_dict W (Models.CompanyUpdate W) d = inr values ->
  let changes := update_db_data W values in
  (forall v, changes !! "company_name" = Some v -> within 1 255 v)
  /\ (forall v, changes !! "company_phone" = Some v -> within 5 50 v)
  /\ (forall v, changes !! "founded_year" = Some v -> founded_year_ok W v)
  /\ (forall v, changes !! "is_verified" = Some v -> is_bool v).
Proof.
  intros Hm changes. subst changes. apply model_dict_inr in Hm.
  unfold Models.CompanyUpdate in Hm.
  apply validate_model_cons in Hm as (name & Hname & Hm).
  apply validate_model_cons in Hm as (address & _ & Hm).
  apply validate_model_cons in Hm as (email & _ & Hm).
  apply validate_model_cons in Hm as (phone & Hphone & Hm).
  apply validate_model_cons in Hm as (website & _ & Hm).
  apply validate_model_cons in Hm as (description & _ & Hm).
  apply validate_model_cons in Hm as (year & Hyear & Hm).
  apply validate_model_cons in Hm as (verified & Hverified & Hm).
  apply validate_model_nil in Hm. subst values.
  cbn [Models.f_name Models.required Models.optional Models.defaulted
       Models.with_validator] in *.
  repeat split; intros v Hv;
    apply update_db_data_lookup in Hv as [(Hk & _) | (_ & Hv & Hne)];
    try discriminate;
    (injection Hv as <-).
  - apply field_value_optional in Hname as [-> | (v & Hv)]; [contradiction |].
    exact (t_constr_valid W _ _ _ _ Hv).
  - apply field_value_optional in Hphone as [-> | (v & Hv)]; [contradiction |].
    exact (t_constr_valid W _ _ _ _ Hv).
  - apply field_value_with_validator in Hyear
      as [(_ & ->) | [(_ & Hpost) | (v & v' & Hv & Hpost)]].
    + left. reflexivity.
    + apply validate_founded_year_valid in Hpost as (-> & _). left. reflexivity.
    + apply validate_founded_year_valid in Hpost as (-> & Hrange).
      apply t_int_valid in Hv as (n & ->). right. exists n. auto.
  - apply field_value_optional in Hverified as [-> | (v & Hv)]; [contradiction |].
    exact (t_bool_valid W _ _ Hv).
Qed.

Lemma patch_constraints (company_id : string) (d values r : gmap string value) :
  Models.model_dict W (Models.CompanyUpdate W) d = inr values ->
  company_constraints W r ->
  company_constraints W
    (patch W (update_filter company_id) (update_db_data W values) r).
Proof.
  intros Hm Hr. unfold patch.
  destruct (selected W (update_filter company_id) r); [| exact Hr].
  destruct (CompanyUpdate_changes d values Hm) as (Hn & Hp & Hy & Hb).
  destruct Hr as (Rn & Rp & Ry & Rb).
  repeat split; apply holds_union; assumption.
Qed.

Lemma constrained_create_company : preserved (constrained W) (create_company W).
Proof.
  intros req st (Hc & Hs & Hp & He).
  destruct (create_company_store W req st) as [-> | (d & values & _ & Hm & ->)];
    [repeat split; assumption |].
  repeat split; try assumption. cbn [companies set_rows].
  apply Forall_app. split; [exact Hc |].
  apply Forall_cons. split; [| apply Forall_nil; exact I].
  exact (created_company_constraints W st d values Hm).
Qed.

Lemma constrained_update_company (company_id : string) :
  preserved (constrained W) (update_company W company_id).
Proof.
  intros req st (Hc & Hs & Hp & He).
  destruct (update_company_store W company_id req st)
    as [-> | (d & values & _ & Hm & ->)];
    [repeat split; assumption |].
  repeat split; try assumption. cbn [companies update_rows snd set_rows].
  apply List.Forall_map. revert Hc. apply List.Forall_impl. intros r.
  apply (patch_constraints company_id d values r Hm).
Qed.

Lemma constrained_delete_company (company_id : string) :
  preserved (constrained W) (delete_company W company_id).
Proof.
  intros req st (Hc & Hs & Hp & He).
  destruct (delete_company_store W company_id req st) as [-> | (_ & ->)];
    [repeat split; assumption |].
  unfold after_delete, delete_rows, cascade.
  repeat split; cbn [snd companies services projects employees set_rows rows];
    apply Forall_filter_list; assumption.
Qed.

Lemma constrained_add_company_service (company_id : string) :
  preserved (constrained W) (add_company_service W company_id).
Proof.
  intros req st (Hc & Hs & Hp & He).
  destruct (add_company_service_store W company_id req st)
    as [-> | (d & values & _ & Hm & _ & ->)];
    [repeat split; assumption |].
  repeat split; try assumption. cbn [services set_rows].
  apply Forall_app. split; [exact Hs |].
  apply Forall_cons. split; [| apply Forall_nil; exact I].
  exact (created_service_constraints W company_id st d values Hm).
Qed.

Lemma constrained_add_company_project (company_id : string) :
  preserved (constrained W) (add_company_project W company_id).
Proof.
  intros req st (Hc & Hs & Hp & He).
  destruct (add_company_project_store W company_id req st)
    as [-> | (d & values & _ & Hm & _ & ->)];
    [repeat split; assumption |].
  repeat split; try assumption. cbn [projects set_rows].
  apply Forall_app. split; [exact Hp |].
  apply Forall_cons. split; [| apply Forall_nil; exact I].
  exact (created_project_constraints W company_id st d values Hm).
Qed.

Lemma constrained_add_company_employee (company_id : string) :
  preserved (constrained W) (add_company_employee W company_id).
Proof.
  intros req st (Hc & Hs & Hp & He).
  destruct (add_company_employee_store W company_id req st)
    as [-> | (d & values & _ & Hm & _ & ->)];
    [repeat split; assumption |].
  repeat split; try assumption. cbn [employees set_rows].
  apply Forall_app. split; [exact He |].
  apply Forall_cons. split; [| apply Forall_nil; exact I].
  exact (created_employee_constraints W company_id st d values Hm).
Qed.

End Preserved.

(** X15.  No request to one of the six mutating routes takes the store
    out of the constraints of the schemas.  If every stored company has
    a name of 1 to 255 characters, a phone of 5 to 50, a founding year
    that is [None] or between 1800 and the current year and a boolean
    [is_verified]; every service a name of 1 to 255 characters and a
    boolean [is_free]; every project a name of 1 to 255 characters, one
    of the five statuses, and a start and an end date that are [None]
    or ISO texts, the end not before the start; every employee a name
    of 1 to 255 and a position of 1 to 100 characters and a join date
    that is [None] or an ISO text: then so it is after the request,
    whatever the request and however it is answered. *)
Theorem requests_keep_the_constraints (W : World) (company_id : string)
    (route : request -> M response) (req : request) (st : store) :
  route ∈ mutating_routes W company_id ->
  constrained W st -> constrained W (snd (route req st)).
Proof.
  intros Hin. revert req st. change (preserved (constrained W) route).
  unfold mutating_routes in Hin.
  repeat (apply elem_of_cons in Hin; destruct Hin as [-> | Hin]).
  - apply preserved_token_required, constrained_create_company.
  - apply preserved_token_required, constrained_update_company.
  - apply preserved_token_required, preserved_admin_required,
      constrained_delete_company.
  - apply preserved_token_required, constrained_add_company_service.
  - apply preserved_token_required, constrained_add_company_project.
  - apply preserved_token_required, constrained_add_company_employee.
  - apply elem_of_nil in Hin. destruct Hin.
Qed.

Lemma yard_constrained (W : World) :
  current_year W = 2024 -> constrained W Cases.yard.
Proof.
  intros Hy. split; [| split; [| split]].
  - apply Forall_cons. split; [| apply Forall_nil; exact I].
    split; [| split; [| split]].
    + exists (VStr "Stone Works"). split; [reflexivity |].
      exists "Stone Works". split; [reflexivity | simpl; lia].
    + exists (VStr "555-0199"). split; [reflexivity |].
      exists "555-0199". split; [reflexivity | simpl; lia].
    + exists (VInt 1990). split; [reflexivity |].
      right. exists 1990. split; [reflexivity | rewrite Hy; lia].
    + exists (VBool false). split; [reflexivity |]. exists false. reflexivity.
  - apply Forall_nil. exact I.
  - apply Forall_cons. split; [| apply Forall_nil; exact I].
    split; [| split].
    + exists (VStr "Wall"). split; [reflexivity |].
      exists "Wall". split; [reflexivity | simpl; lia].
    + exists (VStr "planned"). split; reflexivity.
    + exists (VDate (Date 2024 3 1)), VNone.
      split; [right; eexists; reflexivity |]. split; [left; reflexivity |].
      split; [vm_compute; reflexivity |]. split; reflexivity.
  - apply Forall_nil. exact I.
Qed.

Lemma requests_keep_the_constraints_witness :
  let W := Sample.world None in
  let req := Cases.signed "user-token" (VDict Cases.school) in
  let st' := snd (route_add_company_project W "y1" req Cases.yard) in
  constrained W st' /\ length (projects st') = 2%nat.
Proof.
  intros W req st'. split; [| vm_compute; reflexivity].
  apply (requests_keep_the_constraints W "y1" (route_add_company_project W "y1")
           req Cases.yard).
  - unfold mutating_routes. do 4 apply list_elem_of_further. apply list_elem_of_here.
  - apply yard_constrained. reflexivity.
Defined.

Section Integrity.
Context (W : World).

Lemma references_kept (st st' : store) (l : list (gmap string value)) :
  (forall company_id, company_exists company_id st -> company_exists company_id st') ->
  Forall (references_a_company st) l -> Forall (references_a_company st') l.
Proof.
  intros Hex. apply List.Forall_impl. intros r (c & Hc & Hr). exists c. auto.
Qed.

Lemma integrity_kept (st st' : store) :
  (forall company_id, company_exists company_id st -> company_exists company_id st') ->
  services st' = services st -> projects st' = projects st ->
  employees st' = employees st ->
  referential_integrity st -> referential_integrity st'.
Proof.
  intros Hex Hs Hp He (Is & Ip & Ie). unfold referential_integrity.
  rewrite Hs, Hp, He. repeat split; apply (references_kept st st' _ Hex); assumption.
Qed.

Lemma integrity_create_company :
  preserved referential_integrity (create_company W).
Proof.
  intros req st Hi.
  destruct (create_company_store W req st) as [-> | (d & values & _ & Hm & ->)];
    [exact Hi |].
  apply (integrity_kept st); [| reflexivity | reflexivity | reflexivity | exact Hi].
  intros c (g & Hg & Hid). exists g. split; [| exact Hid].
  cbn [companies set_rows]. apply elem_of_app. left. exact Hg.
Qed.

Lemma integrity_update_company (company_id : string) :
  preserved referential_integrity (update_company W company_id).
Proof.
  intros req st Hi.
  destruct (update_company_store W company_id req st)
    as [-> | (d & values & _ & Hm & ->)];
    [exact Hi |].
  apply (integrity_kept st); [| reflexivity | reflexivity | reflexivity | exact Hi].
  intros c (g & Hg & Hid).
  exists (patch W (update_filter company_id) (update_db_data W values) g).
  split.
  - cbn [companies update_rows snd set_rows]. apply list_elem_of_In, in_map.
    apply list_elem_of_In. exact Hg.
  - rewrite patch_frame; [exact Hid |].
    destruct (not_a_company_field W "id") as [Hn Hu]; [left; reflexivity |].
    exact (update_db_data_columns W d values "id" Hm Hn Hu).
Qed.

Lemma kept_child (company_id : string) (st : store)
    (l : list (gmap string value)) :
  Forall (references_a_company st) l ->
  Forall (references_a_company (after_delete W company_id st))
    (List.filter (fun r => negb (child_of company_id r)) l).
Proof.
  rewrite !List.Forall_forall. intros H r Hr.
  apply filter_In in Hr as [Hr Hkeep].
  destruct (H r Hr) as (c & Hc & g & Hg & Hid).
  exists c. split; [exact Hc |]. exists g. split; [| exact Hid].
  rewrite after_delete_companies. apply list_elem_of_In, filter_In.
  split; [apply list_elem_of_In; exact Hg |].
  apply negb_true_iff in Hkeep. apply negb_true_iff.
  destruct (selected W [Eq "id" (VStr company_id)] g) eqn:Hsel; [| reflexivity].
  apply selected_id in Hsel. rewrite Hsel in Hid. injection Hid as <-.
  apply child_of_true in Hc. congruence.
Qed.

Lemma integrity_delete_company (company_id : string) :
  preserved referential_integrity (delete_company W company_id).
Proof.
  intros req st (Hs & Hp & He).
  destruct (delete_company_store W company_id req st) as [-> | (Hex & ->)];
    [repeat split; assumption |].
  destruct (after_delete_children W company_id st Hex) as (Es & Ep & Ee).
  unfold referential_integrity. rewrite Es, Ep, Ee.
  repeat split; apply kept_child; assumption.
Qed.

Lemma integrity_child (t : table) (company_id : string) (st : store)
    (row : gmap string value) :
  t <> os_construction ->
  row !! "company_id" = Some (VStr company_id) ->
  company_exists company_id st ->
  referential_integrity st ->
  referential_integrity (set_rows t (rows t st ++ [row]) st).
Proof.
  intros Ht Hrow Hex (Hs & Hp & He).
  assert (forall l, Forall (references_a_company st) l ->
                    Forall (references_a_company
                              (set_rows t (rows t st ++ [row]) st)) l) as Hkeep.
  { intros l. apply references_kept. intros c Hc.
    destruct t; [contradiction | exact Hc | exact Hc | exact Hc]. }
  assert (references_a_company (set_rows t (rows t st ++ [row]) st) row) as Hnew.
  { exists company_id. split; [exact Hrow |].
    destruct t; [contradiction | exact Hex | exact Hex | exact Hex]. }
  destruct t; [contradiction | | |]; repeat split;
    cbn [services projects employees set_rows rows];
    try (apply Hkeep; assumption);
    (apply Forall_app; split; [apply Hkeep; assumption |]);
    (apply Forall_cons; split; [exact Hnew | apply Forall_nil; exact I]).
Qed.

Lemma integrity_add_company_service (company_id : string) :
  preserved referential_integrity (add_company_service W company_id).
Proof.
  intros req st Hi.
  destruct (add_company_service_store W company_id req st)
    as [-> | (d & values & _ & Hm & Hex & ->)];
    [exact Hi |].
  apply (integrity_child os_construction_services company_id st);
    [discriminate | | exact Hex | exact Hi].
  unfold created_child. rewrite stored_keeps by discriminate.
  apply lookup_insert_eq.
Qed.

Lemma integrity_add_company_project (company_id : string) :
  preserved referential_integrity (add_company_project W company_id).
Proof.
  intros req st Hi.
  destruct (add_company_project_store W company_id req st)
    as [-> | (d & values & _ & Hm & Hex & ->)];
    [exact Hi |].
  apply (integrity_child os_construction_projects company_id st);
    [discriminate | | exact Hex | exact Hi].
  unfold created_project. rewrite stored_keeps by discriminate.
  rewrite !iso_column_lookup.
  destruct (decide ("company_id" = "end_date")); [discriminate |].
  destruct (decide ("company_id" = "start_date")); [discriminate |].
  apply lookup_insert_eq.
Qed.

Lemma integrity_add_company_employee (company_id : string) :
  preserved referential_integrity (add_company_employee W company_id).
Proof.
  intros req st Hi.
  destruct (add_company_employee_store W company_id req st)
    as [-> | (d & values & _ & Hm & Hex & ->)];
    [exact Hi |].
  apply (integrity_child os_construction_employees company_id st);
    [discriminate | | exact Hex | exact Hi].
  unfold created_employee. rewrite stored_keeps by discriminate.
  rewrite iso_column_lookup.
  destruct (decide ("company_id" = "join_date")); [discriminate |].
  apply lookup_insert_eq.
Qed.

End Integrity.

(** X16.  No request to one of the six mutating routes breaks
    referential integrity: if every stored service, project and
    employee references, by its [company_id], a company that is in the
    store, then so it is after the request.  A child is stored only
    under a company the view has found, [update_company] cannot change
    an [id], and the rows that reference a deleted company go with
    it. *)
Theorem requests_keep_referential_integrity (W : World) (company_id : string)
    (route : request -> M response) (req : request) (st : store) :
  route ∈ mutating_routes W company_id ->
  referential_integrity st -> referential_integrity (snd (route req st)).
Proof.
  intros Hin. revert req st. change (preserved referential_integrity route).
  unfold mutating_routes in Hin.
  repeat (apply elem_of_cons in Hin; destruct Hin as [-> | Hin]).
  - apply preserved_token_required, integrity_create_company.
  - apply preserved_token_required, integrity_update_company.
  - apply preserved_token_required, preserved_admin_required,
      integrity_delete_company.
  - apply preserved_token_required, integrity_add_company_service.
  - apply preserved_token_required, integrity_add_company_project.
  - apply preserved_token_required, integrity_add_company_employee.
  - apply elem_of_nil in Hin. destruct Hin.
Qed.

Lemma requests_keep_referential_integrity_witness :
  let W := Sample.world (Some "admin-user-id") in
  let req := Cases.signed "admin-token" VNone in
  let st' := snd (route_delete_company W "y1" req Cases.yard) in
  referential_integrity st' /\ companies st' = [] /\ projects st' = [].
Proof.
  intros W req st'.
  split; [| split; vm_compute; reflexivity].
  apply (requests_keep_referential_integrity W "y1" (route_delete_company W "y1")
           req Cases.yard).
  - unfold mutating_routes. do 2 apply list_elem_of_further. apply list_elem_of_here.
  - split; [apply Forall_nil; exact I |]. split; [| apply Forall_nil; exact I].
    apply Forall_cons. split; [| apply Forall_nil; exact I].
    exists "y1". split; [reflexivity |].
    eexists. split; [apply list_elem_of_here | reflexivity].
Defined.

Section Rejected.
Context (W : World).

(** An error once recorded stays. *)
Lemma validate_model_keeps_errors (fields : list Models.field)
    (d : gmap string value) (e : string * string) :
  forall values errors,
    e ∈ errors -> e ∈ snd (Models.validate_model W fields d values errors).
Proof.
  induction fields as [| f fields IH]; intros values errors He; [exact He |].
  simpl. destruct (d !! Models.f_name f) as [v |].
  - destruct (Models.validate_field W f values v); apply IH; [exact He |].
    apply elem_of_app. left. exact He.
  - destruct (Models.f_required f); apply IH; [| exact He].
    apply elem_of_app. left. exact He.
Qed.

Lemma model_dict_error (fields : list Models.field) (d : gmap string value)
    (e : string * string) :
  e ∈ snd (Models.validate_model W fields d ∅ []) ->
  Models.model_dict W fields d
  = inl (PydanticValidationError (snd (Models.validate_model W fields d ∅ []))).
Proof.
  unfold Models.model_dict.
  destruct (Models.validate_model W fields d ∅ []) as [values errors].
  simpl. destruct errors; [intros H; apply elem_of_nil in H; destruct H |].
  reflexivity.
Qed.

(** The two date fields of a project, when the payload gives two dates
    and the second is before the first. *)
Lemma project_dates_refused (d values : gmap string value)
    (errors : list (string * string)) (s e : value) (ds de : date) :
  d !! "start_date" = Some s -> d !! "end_date" = Some e ->
  s <> VNone -> e <> VNone ->
  date_validator W s = Valid ds -> date_validator W e = Valid de ->
  date_ltb de ds = true ->
  Models.validate_model W
    [ Models.optional "start_date" (Models.t_date W);
      Models.with_validator (Models.optional "end_date" (Models.t_date W))
        Models.validate_end_date ] d values errors
  = (<["start_date" := VDate ds]> values,
     errors ++ [("end_date", "End date must be after start date")]).
Proof.
  intros Hs He Hsn Hen Hds Hde Hlt.
  assert (forall vals, Models.validate_field W
            (Models.optional "start_date" (Models.t_date W)) vals s
          = Valid (VDate ds)) as Hfs.
  { intros vals. unfold Models.validate_field.
    cbn [Models.f_validators Models.optional Models.f_allow_none].
    unfold Models.apply_post, Models.t_date. cbn [Models.f_post].
    rewrite Hds. destruct s; try reflexivity. contradiction. }
  assert (Models.validate_field W
            (Models.with_validator (Models.optional "end_date" (Models.t_date W))
               Models.validate_end_date)
            (<["start_date" := VDate ds]> values) e
          = Invalid "End date must be after start date") as Hfe.
  { unfold Models.validate_field.
    cbn [Models.f_validators Models.optional Models.f_allow_none
         Models.with_validator].
    unfold Models.apply_post, Models.t_date.
    cbn [Models.f_post Models.with_validator].
    rewrite Hde. cbn [Models.lift]. unfold Models.validate_end_date.
    rewrite lookup_insert_eq. cbn [truthy Models.date_lt andb]. rewrite Hlt.
    destruct e; try reflexivity. contradiction. }
  cbn [Models.validate_model Models.f_name Models.optional Models.with_validator].
  rewrite Hs, Hfs, He, Hfe. reflexivity.
Qed.

Lemma ProjectCreate_dates_refused (d : gmap string value) (s e : value)
    (ds de : date) :
  d !! "start_date" = Some s -> d !! "end_date" = Some e ->
  s <> VNone -> e <> VNone ->
  date_validator W s = Valid ds -> date_validator W e = Valid de ->
  date_ltb de ds = true ->
  exists errors,
    ("end_date", "End date must be after start date") ∈ errors
    /\ Models.model_dict W (Models.ProjectCreate W) d
       = inl (PydanticValidationError errors).
Proof.
  intros Hs He Hsn Hen Hds Hde Hlt.
  exists (snd (Models.validate_model W (Models.ProjectCreate W) d ∅ [])).
  assert (("end_date", "End date must be after start date")
          ∈ snd (Models.validate_model W (Models.ProjectCreate W) d ∅ [])) as Hin.
  { change (Models.ProjectCreate W)
      with ([ Models.required "project_name" (Models.t_constr W 1 255);
              Models.required "location" (Models.t_str W) ]
            ++ [ Models.optional "start_date" (Models.t_date W);
                 Models.with_validator
                   (Models.optional "end_date" (Models.t_date W))
                   Models.validate_end_date ]
            ++ [ Models.with_validator
                   (Models.defaulted "status" (Models.t_str W) (VStr "planned"))
                   Models.validate_status;
                 Models.optional "description" (Models.t_str W);
                 Models.optional "beneficiary_info" (Models.t_str W) ]).
    rewrite validate_model_app, validate_model_app.
    rewrite (project_dates_refused d _ _ s e ds de Hs He Hsn Hen Hds Hde Hlt).
    apply validate_model_keeps_errors. apply elem_of_app. right.
    apply list_elem_of_here. }
  split; [exact Hin | exact (model_dict_error _ d _ Hin)].
Qed.

End Rejected.

(** X17.  [add_company_project] refuses a project that ends before it
    starts.  When the payload gives a start and an end that the date
    validator reads as dates, the end before the start, the view raises
    [ValidationError]; among the errors joined into its message is
    [end_date: End date must be after start date]; the answer is 400
    and nothing is stored, whether the company exists or not and
    whatever the other fields hold.  An end equal to the start is not
    refused by this check. *)
Theorem project_ending_before_it_starts_is_refused (W : World)
    (company_id : string) (req : request) (st : store)
    (d : gmap string value) (s e : value) (ds de : date) :
  json req = inr (VDict d) ->
  d !! "start_date" = Some s -> d !! "end_date" = Some e ->
  s <> VNone -> e <> VNone ->
  date_validator W s = Valid ds -> date_validator W e = Valid de ->
  date_ltb de ds = true ->
  exists errors,
    ("end_date", "End date must be after start date") ∈ errors
    /\ add_company_project W company_id req st = (inl (invalid_data errors), st)
    /\ dispatch W (add_company_project W company_id req) st
       = (validation_error (joined_text errors), st).
Proof.
  intros Hj Hs He Hsn Hen Hds Hde Hlt.
  destruct (ProjectCreate_dates_refused W d s e ds de Hs He Hsn Hen Hds Hde Hlt)
    as (errors & Hin & Hm).
  exists errors. split; [exact Hin |].
  assert (d <> ∅) as Hd by (intros ->; rewrite lookup_empty in Hs; discriminate).
  assert (add_company_project W company_id req st = (inl (invalid_data errors), st))
    as Hview.
  { unfold add_company_project.
    rewrite (try_except_inl _ _ st st (PydanticValidationError errors));
      [reflexivity |].
    apply (body_invalid W (Models.ProjectCreate W) req st _ d errors Hj Hd Hm). }
  split; [exact Hview |]. unfold dispatch. rewrite Hview. reflexivity.
Qed.

Lemma project_ending_before_it_starts_is_refused_witness :
  let W := Sample.world None in
  let req := Sample.post (VDict Cases.backwards) in
  exists errors,
    ("end_date", "End date must be after start date") ∈ errors
    /\ add_company_project W "zz" req Sample.two_companies
       = (inl (invalid_data errors), Sample.two_companies)
    /\ dispatch W (add_company_project W "zz" req) Sample.two_companies
       = (validation_error (joined_text errors), Sample.two_companies).
Proof.
  intros W req.
  apply (project_ending_before_it_starts_is_refused W "zz" req Sample.two_companies
           Cases.backwards (VStr "2024-05-01") (VStr "2024-04-01")
           (Date 2024 5 1) (Date 2024 4 1)).
  - reflexivity.
  - reflexivity.
  - reflexivity.
  - discriminate.
  - discriminate.
  - reflexivity.
  - reflexivity.
  - reflexivity.
Defined.

Section Pages.
Context (W : World).

Lemma chunks {A} (k : nat) (l : list A) (m : nat) :
  concat ((fun i => take k (drop (i * k)%nat l)) <$> seq 0 m)
  = take (m * k)%nat l.
Proof.
  induction m as [| m IH]; [reflexivity |].
  rewrite seq_S, fmap_app, concat_app, IH. simpl.
  rewrite app_nil_r, take_take_drop. f_equal. lia.
Qed.

Lemma slice_page (page per_page : Z) (l : list (gmap string value)) :
  1 <= page -> 1 <= per_page ->
  slice ((page - 1) * per_page) ((page - 1) * per_page + per_page - 1) l
  = take (Z.to_nat per_page)
      (drop (Z.to_nat (page - 1) * Z.to_nat per_page)%nat l).
Proof.
  intros Hp Hpp. unfold slice. f_equal; [f_equal; lia | f_equal; nia].
Qed.

Lemma page_data (q : query) (st : store) (page per_page : Z) :
  1 <= page -> 1 <= per_page ->
  data (execute W (paginate_query q page per_page) st)
  = List.map (project (q_columns q))
      (take (Z.to_nat per_page)
         (drop (Z.to_nat (page - 1) * Z.to_nat per_page)%nat
            (List.filter (selected W (q_filters q)) (rows (q_table q) st)))).
Proof.
  intros Hp Hpp. unfold execute, paginate_query. cbn [q_range range data q_filters
    q_table q_columns]. cbv zeta. rewrite slice_page by assumption.
  reflexivity.
Qed.

Lemma pages_enough (per_page total n : Z) :
  1 <= per_page -> 0 <= total ->
  pages per_page total = inr n ->
  0 <= n /\ total <= n * per_page.
Proof.
  intros Hpp Ht. rewrite pages_value by lia.
  destruct (Z.ltb_spec 0 total); intros [= <-]; [| lia].
  pose proof (Z.div_mod (total + per_page - 1) per_page ltac:(lia)) as Hdm.
  pose proof (Z.mod_pos_bound (total + per_page - 1) per_page ltac:(lia)) as Hb.
  split; [apply Z.div_pos; lia | nia].
Qed.

End Pages.

(** X18.  The pages of a query cover its rows.  For [per_page >= 1] and
    the number of pages [format_paginated_response] reports for the
    count of the rows a query selects, the rows [paginate_query] cuts
    out for the pages 1 to [pages], one after the other, are the rows
    of the query, each once and in order; a page holds at most
    [per_page] rows, and a page after the last is empty. *)
Theorem pages_cover_the_rows (W : World) (q : query) (st : store)
    (per_page n : Z) :
  1 <= per_page ->
  q_range q = None ->
  pages per_page (count (execute W q st)) = inr n ->
  let page_rows page := data (execute W (paginate_query q page per_page) st) in
  concat (page_rows <$> seqZ 1 n) = data (execute W q st)
  /\ (forall page, 1 <= page -> (length (page_rows page) <= Z.to_nat per_page)%nat)
  /\ (forall page, n < page -> page_rows page = []).
Proof.
  intros Hpp Hr Hn page_rows.
  set (hit := List.filter (selected W (q_filters q)) (rows (q_table q) st)).
  assert (count (execute W q st) = Z.of_nat (length hit)) as Hc by reflexivity.
  rewrite Hc in Hn. apply pages_enough in Hn as [Hn0 Hn]; [| lia | lia].
  assert (data (execute W q st) = List.map (project (q_columns q)) hit) as Hd.
  { unfold execute. rewrite Hr. reflexivity. }
  split; [| split].
  - rewrite Hd. unfold seqZ. rewrite <- list_fmap_compose.
    rewrite (list_fmap_ext _
               (fun i => List.map (project (q_columns q))
                           (take (Z.to_nat per_page)
                              (drop (i * Z.to_nat per_page)%nat hit)))
               (seq 0 (Z.to_nat n))).
    2:{ intros i x _. simpl. unfold page_rows.
        rewrite page_data by lia. fold hit. do 3 f_equal. lia. }
    rewrite (list_fmap_compose
               (fun i => take (Z.to_nat per_page) (drop (i * Z.to_nat per_page)%nat hit))
               (List.map (project (q_columns q)))).
    change (concat (List.map (List.map (project (q_columns q)))
                      ((fun i => take (Z.to_nat per_page)
                                   (drop (i * Z.to_nat per_page)%nat hit))
                       <$> seq 0 (Z.to_nat n)))
            = List.map (project (q_columns q)) hit).
    rewrite <- concat_map, chunks. rewrite take_ge; [reflexivity | nia].
  - intros page Hp. unfold page_rows. rewrite page_data by lia.
    rewrite length_map, length_take. lia.
  - intros page Hp. unfold page_rows. rewrite page_data by lia. fold hit.
    rewrite drop_ge; [rewrite take_nil; reflexivity | nia].
Qed.

Lemma pages_cover_the_rows_witness :
  let W := Sample.world None in
  let q := select os_construction "*" in
  concat ((fun page => data (execute W (paginate_query q page 1)
                               Sample.two_companies)) <$> seqZ 1 2)
  = companies Sample.two_companies
  /\ data (execute W (paginate_query q 3 1) Sample.two_companies) = [].
Proof.
  intros W q.
  destruct (pages_cover_the_rows W q Sample.two_companies 1 2)
    as (Hall & _ & Hlast).
  - lia.
  - reflexivity.
  - reflexivity.
  - split; [rewrite Hall; reflexivity | apply Hlast; lia].
Defined.

(** ** Listing the children of a company *)

Section Listing.
Context (W : World).

Lemma except_exception_raises {A} (prefix : string) (e : exn) (st : store) :
  exists e', @except_exception W A prefix e st = (inl e', st).
Proof.
  unfold except_exception. destruct (is_OSConstructionError e); eexists; reflexivity.
Qed.

Lemma company_rows_exists (company_id : string) (st : store)
    (r : gmap string value) (l : list (gmap string value)) :
  company_rows W company_id st = r :: l -> company_exists company_id st.
Proof.
  intros Hr. exists r. split.
  - apply list_elem_of_In.
    apply (filter_In (selected W [Eq "id" (VStr company_id)])).
    fold (company_rows W company_id st). rewrite Hr. left. reflexivity.
  - apply (company_rows_ids W company_id st). rewrite Hr. left. reflexivity.
Qed.

(** A listing view that answers has read its page and found the
    company. *)
Lemma listing_answer (prefix : string) (company_id : string) (req : request)
    (k : Z -> Z -> M response) (st st' : store) (r : response) :
  try_except
    (let* '(page, per_page) := lift_exn (get_pagination_params W req) in
     check_company W company_id;; k page per_page)
    (except_exception W prefix) st = (inr r, st') ->
  exists page per_page,
    get_pagination_params W req = inr (page, per_page)
    /\ 1 <= page /\ 1 <= per_page <= 100
    /\ company_exists company_id st
    /\ k page per_page st = (inr r, st').
Proof.
  unfold try_except, bind at 1, lift_exn. intros H.
  destruct (get_pagination_params W req) as [e | [page per_page]] eqn:Hp.
  { simpl in H. destruct (except_exception_raises (A := response) prefix e st)
      as [e' He']. rewrite He' in H. discriminate. }
  unfold ret at 1 in H.
  destruct (company_rows W company_id st) as [| r0 l] eqn:Hr.
  - rewrite (bind_inl _ _ st st (not_found company_id)) in H
      by (rewrite check_company_rows, Hr; reflexivity).
    destruct (except_exception_raises (A := response) prefix
                (not_found company_id) st) as [e' He'].
    rewrite He' in H. discriminate.
  - rewrite (bind_inr _ _ st st tt) in H
      by (rewrite check_company_rows, Hr; reflexivity).
    exists page, per_page. split; [reflexivity |].
    apply get_pagination_params_range in Hp. split; [lia |]. split; [lia |].
    split; [exact (company_rows_exists _ _ _ _ Hr) |].
    destruct (k page per_page st) as [[e | r1] st1].
    + destruct (except_exception_raises (A := response) prefix e st1)
        as [e' He']. rewrite He' in H. discriminate.
    + exact H.
Qed.

Lemma project_all (l : list (gmap string value)) : List.map (project "*") l = l.
Proof.
  induction l as [| x l IH]; simpl; [reflexivity |]. rewrite IH. reflexivity.
Qed.

(** The rows a query for every column returns are rows of its table
    that pass its filters. *)
Lemma execute_rows (q : query) (st : store) (row : gmap string value) :
  q_columns q = "*" ->
  row ∈ data (execute W q st) ->
  row ∈ rows (q_table q) st /\ selected W (q_filters q) row = true.
Proof.
  intros Hc Hin. unfold execute in Hin. cbn [data] in Hin. rewrite Hc in Hin.
  rewrite project_all in Hin.
  assert (row ∈ List.filter (selected W (q_filters q)) (rows (q_table q) st)) as Hf.
  { destruct (q_range q) as [[first last] |]; [| exact Hin].
    unfold slice in Hin. apply subseteq_take in Hin. apply subseteq_drop in Hin.
    exact Hin. }
  apply list_elem_of_In, filter_In in Hf as [Hrow Hsel].
  split; [apply list_elem_of_In; exact Hrow | exact Hsel].
Qed.

(** What the answer of a listing view holds. *)
Lemma listing_body (rows : list (gmap string value)) (page per_page total : Z)
    (m : gmap string value) :
  format_paginated_response rows page per_page total = inr m ->
  data_of {| body := jsonify m; status := 200 |} = Some (VList (VDict <$> rows))
  /\ total_of {| body := jsonify m; status := 200 |} = Some (VInt total).
Proof.
  unfold format_paginated_response.
  destruct (pages per_page total) as [e | n]; [discriminate |].
  intros [= <-]. split; reflexivity.
Qed.


Lemma selected_company (company_id : string) (fs : list condition)
    (r : gmap string value) :
  selected W (Eq "company_id" (VStr company_id) :: fs) r = true ->
  selected W [Eq "company_id" (VStr company_id)] r = true.
Proof.
  unfold selected. simpl. intros H. apply andb_true_iff in H as [H _].
  rewrite H. reflexivity.
Qed.

Lemma get_company_services_answer (company_id : string) (req : request)
    (st st' : store) (r : response) :
  get_company_services W company_id req st = (inr r, st') ->
  st' = st
  /\ exists page per_page m,
       get_pagination_params W req = inr (page, per_page)
       /\ company_exists company_id st
       /\ format_paginated_response
            (data (execute W
                     (paginate_query
                        (eq "company_id" (VStr company_id)
                           (select os_construction_services "*"))
                        page per_page) st))
            page per_page (Z.of_nat (length (services st))) = inr m
       /\ r = {| body := jsonify m; status := 200 |}.
Proof.
  unfold get_company_services. intros H.
  apply listing_answer in H as (page & per_page & Hp & _ & _ & Hex & H).
  cbv beta iota zeta delta [bind get_total_count run_query ret raise lift_exn] in H.
  assert (count (execute W (select os_construction_services "count") st)
          = Z.of_nat (length (services st))) as Hc.
  { unfold execute. cbn [count q_filters select q_table rows].
    rewrite filter_all. reflexivity. }
  rewrite Hc in H.
  destruct (format_paginated_response _ page per_page _) as [e | m] eqn:Hf;
    [discriminate |].
  injection H as <- <-. split; [reflexivity |].
  exists page, per_page, m. auto.
Qed.


Lemma get_company_employees_answer (company_id : string) (req : request)
    (st st' : store) (r : response) :
  get_company_employees W company_id req st = (inr r, st') ->
  st' = st
  /\ exists page per_page m,
       get_pagination_params W req = inr (page, per_page)
       /\ company_exists company_id st
       /\ format_paginated_response
            (data (execute W
                     (paginate_query
                        (eq "company_id" (VStr company_id)
                           (select os_construction_employees "*"))
                        page per_page) st))
            page per_page
            (Z.of_nat (length (rows_of W company_id os_construction_employees st)))
          = inr m
       /\ r = {| body := jsonify m; status := 200 |}.
Proof.
  unfold get_company_employees. intros H.
  apply listing_answer in H as (page & per_page & Hp & _ & _ & Hex & H).
  cbv beta iota zeta delta [bind get_total_count run_query ret raise lift_exn] in H.
  change (count (execute W (eq "company_id" (VStr company_id)
                              (select os_construction_employees "count")) st))
    with (Z.of_nat (length (rows_of W company_id os_construction_employees st)))
    in H.
  destruct (format_paginated_response _ page per_page _) as [e | m] eqn:Hf;
    [discriminate |].
  injection H as <- <-. split; [reflexivity |].
  exists page, per_page, m. auto.
Qed.

Lemma projects_query_filters (company_id : string) (req : request) (q : query) :
  projects_query company_id req = inr q ->
  q = {| q_table := os_construction_projects; q_columns := "*";
         q_filters := project_filters company_id req; q_range := None |}.
Proof.
  unfold projects_query, project_filters.
  destruct (args req !! "status") as [s |]; [| intros [= <-]; reflexivity].
  destruct (truthy (VStr s)); [| intros [= <-]; reflexivity].
  destruct (in_str_list (VStr s) Models.valid_statuses);
    [intros [= <-]; reflexivity | discriminate].
Qed.

Lemma get_company_projects_answer (company_id : string) (req : request)
    (st st' : store) (r : response) :
  get_company_projects W company_id req st = (inr r, st') ->
  st' = st
  /\ exists page per_page q m,
       get_pagination_params W req = inr (page, per_page)
       /\ company_exists company_id st
       /\ projects_query company_id req = inr q
       /\ format_paginated_response
            (data (execute W (paginate_query q page per_page) st))
            page per_page
            (Z.of_nat (length (List.filter
                                 (selected W (project_filters company_id req))
                                 (projects st))))
          = inr m
       /\ r = {| body := jsonify m; status := 200 |}.
Proof.
  unfold get_company_projects. intros H.
  apply listing_answer in H as (page & per_page & Hp & _ & _ & Hex & H).
  cbv beta iota zeta delta [bind get_total_count run_query ret raise lift_exn] in H.
  destruct (projects_query company_id req) as [e | q] eqn:Hq; [discriminate |].
  pose proof (projects_query_filters company_id req q Hq) as Hshape.
  assert (length (data (execute W q st))
          = length (List.filter (selected W (project_filters company_id req))
                      (projects st))) as Hlen.
  { rewrite Hshape. unfold execute. cbn [data q_range q_columns q_filters q_table rows].
    rewrite length_map. reflexivity. }
  rewrite Hlen in H.
  destruct (format_paginated_response _ page per_page _) as [e | m] eqn:Hf;
    [discriminate |].
  injection H as <- <-. split; [reflexivity |].
  exists page, per_page, q, m. auto.
Qed.

(** The rows of a page of a query that filters on the company first. *)
Lemma page_rows_of (company_id : string) (t : table) (fs : list condition)
    (st : store) (page per_page : Z) (row : gmap string value) :
  1 <= page -> 1 <= per_page ->
  let q := {| q_table := t; q_columns := "*";
              q_filters := Eq "company_id" (VStr company_id) :: fs;
              q_range := None |} in
  (length (data (execute W (paginate_query q page per_page) st))
   <= Z.to_nat per_page)%nat
  /\ (row ∈ data (execute W (paginate_query q page per_page) st) ->
      row ∈ rows_of W company_id t st).
Proof.
  intros Hp Hpp q. split.
  - rewrite page_data by assumption. rewrite length_map, length_take. lia.
  - intros Hin. apply execute_rows in Hin as [Hrow Hsel]; [| reflexivity].
    unfold rows_of. apply list_elem_of_In, filter_In.
    split; [apply list_elem_of_In; exact Hrow |].
    exact (selected_company company_id fs row Hsel).
Qed.

End Listing.


(** X19.  The three views that list the services, the projects and the
    employees of a company answer only for a company that is in the
    store, with status 200 and the store as it was, and show rows of
    that company alone: every row of [data] is a row of the table whose
    [company_id] is the one in the URL, and there are at most
    [per_page] of them. *)
Theorem child_listings_show_only_the_company (W : World) (company_id : string)
    (t : table) (view : request -> M response) (req : request)
    (st st' : store) (r : response) :
  (t, view) ∈ child_listings W company_id ->
  view req st = (inr r, st') ->
  st' = st
  /\ company_exists company_id st
  /\ exists page per_page,
       get_pagination_params W req = inr (page, per_page)
       /\ page_of W company_id t st per_page r.
Proof.
  intros Hin H. unfold child_listings in Hin.
  repeat (apply elem_of_cons in Hin; destruct Hin as [Hin | Hin];
          [injection Hin as -> -> |]).
  - apply get_company_services_answer in H
      as (-> & page & per_page & m & Hp & Hex & Hf & ->).
    split; [reflexivity |]. split; [exact Hex |].
    exists page, per_page. split; [exact Hp |].
    apply get_pagination_params_range in Hp.
    split; [reflexivity |]. eexists.
    split; [exact (proj1 (listing_body _ _ _ _ _ Hf)) |].
    split; [| intros row].
    + apply (page_rows_of W company_id os_construction_services [] st page per_page
               ∅); lia.
    + apply (page_rows_of W company_id os_construction_services [] st page per_page
               row); lia.
  - apply get_company_projects_answer in H
      as (-> & page & per_page & q & m & Hp & Hex & Hq & Hf & ->).
    split; [reflexivity |]. split; [exact Hex |].
    exists page, per_page. split; [exact Hp |].
    apply get_pagination_params_range in Hp.
    split; [reflexivity |]. eexists.
    split; [exact (proj1 (listing_body _ _ _ _ _ Hf)) |].
    apply projects_query_filters in Hq. subst q.
    assert (exists fs, project_filters company_id req
                       = Eq "company_id" (VStr company_id) :: fs) as [fs Hfs].
    { unfold project_filters. destruct (args req !! "status") as [s |]; [| eauto].
      destruct (truthy (VStr s)); eauto. }
    rewrite Hfs. split; [| intros row].
    + apply (page_rows_of W company_id os_construction_projects fs st page per_page
               ∅); lia.
    + apply (page_rows_of W company_id os_construction_projects fs st page per_page
               row); lia.
  - apply get_company_employees_answer in H
      as (-> & page & per_page & m & Hp & Hex & Hf & ->).
    split; [reflexivity |]. split; [exact Hex |].
    exists page, per_page. split; [exact Hp |].
    apply get_pagination_params_range in Hp.
    split; [reflexivity |]. eexists.
    split; [exact (proj1 (listing_body _ _ _ _ _ Hf)) |].
    split; [| intros row].
    + apply (page_rows_of W company_id os_construction_employees [] st page per_page
               ∅); lia.
    + apply (page_rows_of W company_id os_construction_employees [] st page per_page
               row); lia.
  - apply elem_of_nil in Hin. destruct Hin.
Qed.

Lemma child_listings_show_only_the_company_witness :
  let W := Sample.world None in
  let view := get_company_services W "y2" in
  status (fst (dispatch W (view (Sample.get ∅)) Cases.depot)) = 200
  /\ forall r st',
       view (Sample.get ∅) Cases.depot = (inr r, st') ->
       page_of W "y2" os_construction_services Cases.depot 10 r.
Proof.
  intros W view. split; [vm_compute; reflexivity |]. intros r st' H.
  destruct (child_listings_show_only_the_company W "y2" os_construction_services
              view (Sample.get ∅) Cases.depot st' r)
    as (_ & _ & page & per_page & Hp & Hpage).
  - unfold child_listings. apply list_elem_of_here.
  - exact H.
  - injection Hp as _ <-. exact Hpage.
Defined.

(** X20.  The [total] the three child listings report.  For the
    projects it is the number of projects of the company, with the
    status asked for when one is given; for the employees the number of
    employees of the company; for the services it is the number of rows
    of the whole table [os_construction_services], the services of the
    other companies included. *)
Theorem child_listing_totals (W : World) (company_id : string) (req : request)
    (st st' : store) (r : response) :
  (get_company_services W company_id req st = (inr r, st') ->
   total_of r = Some (VInt (Z.of_nat (length (services st)))))
  /\ (get_company_projects W company_id req st = (inr r, st') ->
      total_of r
      = Some (VInt (Z.of_nat (length (List.filter
                                        (selected W (project_filters company_id req))
                                        (projects st))))))
  /\ (get_company_employees W company_id req st = (inr r, st') ->
      total_of r
      = Some (VInt (Z.of_nat (length (rows_of W company_id
                                        os_construction_employees st))))).
Proof.
  split; [| split]; intros H.
  - apply get_company_services_answer in H
      as (_ & page & per_page & m & _ & _ & Hf & ->).
    exact (proj2 (listing_body _ _ _ _ _ Hf)).
  - apply get_company_projects_answer in H
      as (_ & page & per_page & q & m & _ & _ & _ & Hf & ->).
    exact (proj2 (listing_body _ _ _ _ _ Hf)).
  - apply get_company_employees_answer in H
      as (_ & page & per_page & m & _ & _ & Hf & ->).
    exact (proj2 (listing_body _ _ _ _ _ Hf)).
Qed.

Lemma child_listing_totals_witness :
  let W := Sample.world None in
  let view := get_company_services W "y1" in
  status (fst (dispatch W (view (Sample.get ∅)) Cases.depot)) = 200
  /\ length (rows_of W "y1" os_construction_services Cases.depot) = 1%nat
  /\ forall r st',
       view (Sample.get ∅) Cases.depot = (inr r, st') ->
       total_of r = Some (VInt 3).
Proof.
  intros W view. split; [vm_compute; reflexivity |].
  split; [vm_compute; reflexivity |]. intros r st' H.
  destruct (child_listing_totals W "y1" (Sample.get ∅) Cases.depot st' r)
    as (Hs & _).
  exact (Hs H).
Defined.
